(** * Gymmy: joint angles, repetition counting and ROM calibration

    A shallow embedding of the angle analysis of [Camera_realsense.py], of the
    full ROM protocol of [Patient_Calibration.py] and of the warm-up protocol
    of [Patient_Calibration_Simple.py], with the properties the design
    document states about them.

    Numbers.  The Python code computes with IEEE floating point numbers
    (numpy [float32] scalars and Python floats).  They are embedded as
    [float]: a rational number or one of the three special values.  The
    arithmetic on finite values is exact, so rounding error and overflow are
    left out, while the special values follow IEEE 754: the code's behaviour
    on a zero-length vector is decided by them. *)

From Stdlib Require Import QArith Qabs Qround Qminmax Lqa ZArith Lia Ascii.
From stdpp Require Import gmap strings list.

(** ** Floating point values *)

Module NpFloat.
Local Open Scope Q_scope.

Inductive float : Type :=
| Fin (q : Q)
| PInf
| NInf
| NaN.

Definition Qlt_bool (x y : Q) : bool := negb (Qle_bool y x).

Definition is_finite (x : float) : bool :=
  match x with Fin _ => true | _ => false end.

Definition fneg (x : float) : float :=
  match x with
  | Fin q => Fin (- q)
  | PInf => NInf
  | NInf => PInf
  | NaN => NaN
  end.

Definition fadd (x y : float) : float :=
  match x, y with
  | NaN, _ | _, NaN => NaN
  | Fin a, Fin b => Fin (a + b)
  | PInf, NInf | NInf, PInf => NaN
  | PInf, _ | _, PInf => PInf
  | NInf, _ | _, NInf => NInf
  end.

Definition fsub (x y : float) : float := fadd x (fneg y).

(** The sign of a finite number; zero counts as [+0]. *)
Definition Qnegative (q : Q) : bool := Qlt_bool q 0.

Definition signed_inf (negative : bool) : float :=
  if negative then NInf else PInf.

Definition fmul (x y : float) : float :=
  match x, y with
  | NaN, _ | _, NaN => NaN
  | Fin a, Fin b => Fin (a * b)
  | Fin a, PInf | PInf, Fin a =>
      if Qeq_bool a 0 then NaN else signed_inf (Qnegative a)
  | Fin a, NInf | NInf, Fin a =>
      if Qeq_bool a 0 then NaN else signed_inf (negb (Qnegative a))
  | PInf, PInf | NInf, NInf => PInf
  | PInf, NInf | NInf, PInf => NInf
  end.

(** numpy scalar division: a zero divisor raises nothing, it gives [nan]
    for [0/0] and an infinity otherwise (with a [RuntimeWarning]). *)
Definition fdiv (x y : float) : float :=
  match x, y with
  | NaN, _ | _, NaN => NaN
  | Fin a, Fin b =>
      if Qeq_bool b 0
      then (if Qeq_bool a 0 then NaN else signed_inf (Qnegative a))
      else Fin (a / b)
  | Fin _, (PInf | NInf) => Fin 0
  | PInf, Fin b => signed_inf (Qnegative b)
  | NInf, Fin b => signed_inf (negb (Qnegative b))
  | (PInf | NInf), (PInf | NInf) => NaN
  end.

Definition fabs (x : float) : float :=
  match x with
  | Fin q => Fin (Qabs q)
  | PInf | NInf => PInf
  | NaN => NaN
  end.

(** [x < y]; every comparison with [nan] is false. *)
Definition flt (x y : float) : bool :=
  match x, y with
  | NaN, _ | _, NaN => false
  | Fin a, Fin b => Qlt_bool a b
  | _, NInf => false
  | NInf, _ => true
  | PInf, _ => false
  | Fin _, PInf => true
  end.

Definition fgt (x y : float) : bool := flt y x.

(** [x <= y]. *)
Definition fle (x y : float) : bool :=
  match x, y with
  | NaN, _ | _, NaN => false
  | Fin a, Fin b => Qle_bool a b
  | NInf, _ => true
  | _, PInf => true
  | _, NInf => false
  | PInf, _ => false
  end.

Definition fge (x y : float) : bool := fle y x.

(** Rounding to the nearest integer, ties to the even one. *)
Definition round_half_even (q : Q) : Z :=
  let f := Qfloor q in
  let r := q - inject_Z f in
  if Qlt_bool r (1 # 2) then f
  else if Qlt_bool (1 # 2) r then (f + 1)%Z
  else if Z.even f then f else (f + 1)%Z.

Definition Qround2 (q : Q) : Q := round_half_even (q * 100) # 100.

(** [round(x, 2)] *)
Definition round2 (x : float) : float :=
  match x with
  | Fin q => Fin (Qround2 q)
  | _ => x
  end.

(** [np.clip(x, lo, hi)] on a scalar: [minimum(maximum(x, lo), hi)], which
    lets [nan] through. *)
Definition clip (x : float) (lo hi : Q) : float :=
  match x with
  | NaN => NaN
  | PInf => Fin hi
  | NInf => Fin lo
  | Fin q => Fin (Qmin (Qmax q lo) hi)
  end.

(** [np.isclose(a, b, atol=atol)] with numpy's default [rtol = 1e-05]:
    [|a - b| <= atol + rtol * |b|]. *)
Definition rtol : Q := 1 # 100000.

Definition isclose (a : float) (b atol : Q) : bool :=
  match a with
  | Fin q => Qle_bool (Qabs (q - b)) (atol + rtol * Qabs b)
  | _ => false
  end.

End NpFloat.
Export NpFloat.

(** The two transcendental functions the code takes from numpy.  On finite
    arguments they are left open; [sqrt 0 = 0] is the one fact used. *)
Class NumPy : Type := {
  np_sqrt : Q -> Q;
  np_arccos_deg : Q -> Q;
  np_sqrt_0 : forall q : Q, (q == 0)%Q -> (np_sqrt q == 0)%Q
}.

Section Numpy.
Context {np : NumPy}.
Local Open Scope Q_scope.

Definition fsqrt (x : float) : float :=
  match x with
  | Fin q => if Qnegative q then NaN else Fin (np_sqrt q)
  | PInf => PInf
  | NInf | NaN => NaN
  end.

(** [np.degrees(np.arccos(x))] *)
Definition arccos_degrees (x : float) : float :=
  match x with
  | Fin q =>
      if Qle_bool (-1) q && Qle_bool q 1 then Fin (np_arccos_deg q) else NaN
  | _ => NaN
  end.

End Numpy.

(** ** Skeleton frames *)

(** Modelled from the spec: the class [Joint] of module [Joint] is not part
    of the sources at hand; the design document gives a joint a name, x/y/z
    coordinates and a visibility flag, and [get_skeleton_data] builds one as
    [Joint(name, x, y, z)]. *)
Record Joint : Type := mkJoint {
  joint_name : string;
  x : float;
  y : float;
  z : float;
  visible : bool
}.

(** A frame: the dictionary [get_skeleton_data] returns. *)
Abbreviation Skeleton := (gmap string Joint).

(** ** Exceptions *)

Inductive exn : Type :=
| KeyError (key : string).

Inductive result (A : Type) : Type :=
| Ok (a : A)
| Raise (e : exn).
Arguments Ok {A} a.
Arguments Raise {A} e.

(** [d[k]] on a Python dictionary. *)
Definition getitem {A : Type} (d : gmap string A) (k : string) : result A :=
  match d !! k with
  | Some v => Ok v
  | None => Raise (KeyError k)
  end.

(** ** The camera object: [RealsenseNew] *)

Record Camera : Type := mkCamera {
  previous_angles : gmap string float;
  max_angle_jump : float
}.

(** [RealsenseNew.__init__] *)
Definition Camera_init : Camera :=
  {| previous_angles := ∅; max_angle_jump := Fin 10%Q |}.

Definition set_previous_angles (m : gmap string float) (cam : Camera) : Camera :=
  {| previous_angles := m; max_angle_jump := max_angle_jump cam |}.

Section AngleCalculator.
Context {np : NumPy}.
Local Open Scope Q_scope.

Definition vec : Type := (float * float * float)%type.

Definition vsub (a b : vec) : vec :=
  let '(a1, a2, a3) := a in
  let '(b1, b2, b3) := b in
  (fsub a1 b1, fsub a2 b2, fsub a3 b3).

(** [np.dot] *)
Definition dot (a b : vec) : float :=
  let '(a1, a2, a3) := a in
  let '(b1, b2, b3) := b in
  fadd (fadd (fmul a1 b1) (fmul a2 b2)) (fmul a3 b3).

(** [np.linalg.norm] *)
Definition norm (a : vec) : float := fsqrt (dot a a).

Definition position (j : Joint) : vec := (x j, y j, z j).

(** Lines 53-72 of [calc_angle_3d]: the angle at [joint2] before smoothing. *)
Definition raw_angle_3d (joint1 joint2 joint3 : Joint) : float :=
  let a := position joint1 in
  let b := position joint2 in
  let c := position joint3 in
  let ba := vsub a b in
  let bc := vsub c b in
  let cosine_angle := fdiv (dot ba bc) (fmul (norm ba) (norm bc)) in
  let cosine_angle := clip cosine_angle (-1) 1 in
  let angle := arccos_degrees cosine_angle in
  if isclose cosine_angle (-1) (1 # 1000)
  then fsub angle (Fin (1 # 10))
  else angle.

(** [limit_angle_jump]; the dictionary access raises [KeyError] on a slot
    that holds nothing. *)
Definition limit_angle_jump (cam : Camera) (angle : float) (joint_name : string)
  : result float :=
  match getitem (previous_angles cam) joint_name with
  | Raise e => Raise e
  | Ok previous_angle =>
      if fgt (fabs (fsub angle previous_angle)) (max_angle_jump cam)
      then
        let direction := if fgt angle previous_angle then Fin 1 else Fin (-1) in
        Ok (fadd previous_angle (fmul direction (max_angle_jump cam)))
      else Ok angle
  end.

(** Lines 74-78: the body of the [try] once the raw angle is known. *)
Definition smooth_and_store (cam : Camera) (angle : float) (joint_name : string)
  : result (float * Camera) :=
  let limited :=
    match previous_angles cam !! joint_name with
    | Some _ => limit_angle_jump cam angle joint_name
    | None => Ok angle
    end in
  match limited with
  | Raise e => Raise e
  | Ok angle =>
      Ok (angle, set_previous_angles (<[joint_name := angle]> (previous_angles cam)) cam)
  end.

(** [calc_angle_3d]: the angle, or [None] when the [try] block raised. *)
Definition calc_angle_3d (cam : Camera) (joint1 joint2 joint3 : Joint)
    (joint_name : string) : option float * Camera :=
  match smooth_and_store cam (raw_angle_3d joint1 joint2 joint3) joint_name with
  | Ok (angle, cam') => (Some (round2 angle), cam')
  | Raise _ => (None, cam)
  end.

End AngleCalculator.

(** ** The shared module [Settings]

    Only the fields read or written by the code below.  The user interface
    fields ([information], [time_of_change_position]), the audio output
    ([say]) and the joint log ([Excel.wf_joints], always handed an empty
    list) are left out. *)

Record Settings : Type := mkSettings {
  req_exercise : string;
  stop_requested : bool;
  did_training_paused : bool;
  rep : Z;
  success_exercise : bool;
  number_of_repetitions_in_training : Z;
  patient_repetitions_counting_in_exercise : Z;
  ex_list : gmap string Z;
  calibration_mode : bool;
  calibration_ranges : gmap string float;
  patient_calibrated : bool;
  patient_rom : gmap string float
}.

Definition set_req_exercise (v : string) (s : Settings) : Settings :=
  mkSettings v (stop_requested s) (did_training_paused s) (rep s)
    (success_exercise s) (number_of_repetitions_in_training s)
    (patient_repetitions_counting_in_exercise s) (ex_list s)
    (calibration_mode s) (calibration_ranges s) (patient_calibrated s)
    (patient_rom s).

Definition set_stop_requested (v : bool) (s : Settings) : Settings :=
  mkSettings (req_exercise s) v (did_training_paused s) (rep s)
    (success_exercise s) (number_of_repetitions_in_training s)
    (patient_repetitions_counting_in_exercise s) (ex_list s)
    (calibration_mode s) (calibration_ranges s) (patient_calibrated s)
    (patient_rom s).

Definition set_did_training_paused (v : bool) (s : Settings) : Settings :=
  mkSettings (req_exercise s) (stop_requested s) v (rep s)
    (success_exercise s) (number_of_repetitions_in_training s)
    (patient_repetitions_counting_in_exercise s) (ex_list s)
    (calibration_mode s) (calibration_ranges s) (patient_calibrated s)
    (patient_rom s).

Definition set_success_exercise (v : bool) (s : Settings) : Settings :=
  mkSettings (req_exercise s) (stop_requested s) (did_training_paused s) (rep s)
    v (number_of_repetitions_in_training s)
    (patient_repetitions_counting_in_exercise s) (ex_list s)
    (calibration_mode s) (calibration_ranges s) (patient_calibrated s)
    (patient_rom s).

Definition set_number_of_repetitions_in_training (v : Z) (s : Settings) : Settings :=
  mkSettings (req_exercise s) (stop_requested s) (did_training_paused s) (rep s)
    (success_exercise s) v
    (patient_repetitions_counting_in_exercise s) (ex_list s)
    (calibration_mode s) (calibration_ranges s) (patient_calibrated s)
    (patient_rom s).

Definition set_patient_repetitions_counting_in_exercise (v : Z) (s : Settings)
  : Settings :=
  mkSettings (req_exercise s) (stop_requested s) (did_training_paused s) (rep s)
    (success_exercise s) (number_of_repetitions_in_training s)
    v (ex_list s)
    (calibration_mode s) (calibration_ranges s) (patient_calibrated s)
    (patient_rom s).

Definition set_ex_list (v : gmap string Z) (s : Settings) : Settings :=
  mkSettings (req_exercise s) (stop_requested s) (did_training_paused s) (rep s)
    (success_exercise s) (number_of_repetitions_in_training s)
    (patient_repetitions_counting_in_exercise s) v
    (calibration_mode s) (calibration_ranges s) (patient_calibrated s)
    (patient_rom s).

Definition set_calibration_mode (v : bool) (s : Settings) : Settings :=
  mkSettings (req_exercise s) (stop_requested s) (did_training_paused s) (rep s)
    (success_exercise s) (number_of_repetitions_in_training s)
    (patient_repetitions_counting_in_exercise s) (ex_list s)
    v (calibration_ranges s) (patient_calibrated s)
    (patient_rom s).

Definition set_calibration_ranges (v : gmap string float) (s : Settings)
  : Settings :=
  mkSettings (req_exercise s) (stop_requested s) (did_training_paused s) (rep s)
    (success_exercise s) (number_of_repetitions_in_training s)
    (patient_repetitions_counting_in_exercise s) (ex_list s)
    (calibration_mode s) v (patient_calibrated s)
    (patient_rom s).

Definition set_patient_calibrated (v : bool) (s : Settings) : Settings :=
  mkSettings (req_exercise s) (stop_requested s) (did_training_paused s) (rep s)
    (success_exercise s) (number_of_repetitions_in_training s)
    (patient_repetitions_counting_in_exercise s) (ex_list s)
    (calibration_mode s) (calibration_ranges s) v
    (patient_rom s).

Definition set_patient_rom (v : gmap string float) (s : Settings) : Settings :=
  mkSettings (req_exercise s) (stop_requested s) (did_training_paused s) (rep s)
    (success_exercise s) (number_of_repetitions_in_training s)
    (patient_repetitions_counting_in_exercise s) (ex_list s)
    (calibration_mode s) (calibration_ranges s) (patient_calibrated s)
    v.

(** The values [main.py] gives these fields. *)
Definition Settings_init : Settings :=
  {| req_exercise := "";
     stop_requested := false;
     did_training_paused := false;
     rep := 5;
     success_exercise := false;
     number_of_repetitions_in_training := 0;
     patient_repetitions_counting_in_exercise := 0;
     ex_list := ∅;
     calibration_mode := false;
     calibration_ranges :=
       <["right_max" := Fin 0%Q]> (<["right_min" := Fin 180%Q]>
       (<["left_max" := Fin 0%Q]> (<["left_min" := Fin 180%Q]> ∅)));
     patient_calibrated := false;
     patient_rom := ∅ |}.

(** What the other threads (screen, training) write into [Settings]: the
    session control surface. *)
Inductive Request : Type :=
| SetReqExercise (name : string)
| SetStopRequested (b : bool)
| SetTrainingPaused (b : bool).

Definition apply_request (s : Settings) (r : Request) : Settings :=
  match r with
  | SetReqExercise name => set_req_exercise name s
  | SetStopRequested b => set_stop_requested b s
  | SetTrainingPaused b => set_did_training_paused b s
  end.

Definition apply_requests (rs : list Request) (s : Settings) : Settings :=
  fold_left apply_request rs s.

(** ** The repetition counter: [exercise_two_angles_3d] *)

Record TwoAngles : Type := mkTwoAngles {
  exercise_name : string;
  joint1 : string; joint2 : string; joint3 : string;
  up_lb : Q; up_ub : Q; down_lb : Q; down_ub : Q;
  joint4 : string; joint5 : string; joint6 : string;
  up_lb2 : Q; up_ub2 : Q; down_lb2 : Q; down_ub2 : Q;
  use_alternate_angles : bool;
  left_right_differ : bool
}.

(** The four smoothed angles of one frame. *)
Record Angles : Type := mkAngles {
  right_angle : option float;
  left_angle : option float;
  right_angle2 : option float;
  left_angle2 : option float
}.

(** The local variables of the tracking loop. *)
Record Local : Type := mkLocal {
  flag : bool;
  counter : Z
}.

(** [flag = True; counter = 0] *)
Definition Local_init : Local := {| flag := true; counter := 0 |}.

(** The phase names of the design document: a repetition is counted on the
    way from [DOWN] to [UP].  The code counts when [flag] is false and sets
    it; it clears [flag] on the way back. *)
Inductive Phase : Type := DOWN | UP.

Definition phase (l : Local) : Phase := if flag l then UP else DOWN.

(** Code that works on the camera object and may raise: the object as it is
    at the raise is kept. *)
Definition CamM (A : Type) : Type := Camera -> result A * Camera.

Definition cam_ret {A : Type} (a : A) : CamM A := fun cam => (Ok a, cam).

Definition cam_bind {A B : Type} (m : CamM A) (f : A -> CamM B) : CamM B :=
  fun cam =>
    match m cam with
    | (Ok a, cam') => f a cam'
    | (Raise e, cam') => (Raise e, cam')
    end.

Notation "'do' x <- m ; k" := (cam_bind m (fun x => k))
  (at level 10, x name, m at level 100, k at level 200, only parsing).

(** [joints[k]] *)
Definition lookup_joint (joints : Skeleton) (k : string) : CamM Joint :=
  fun cam => (getitem joints k, cam).

Section Tracking.
Context {np : NumPy}.
Local Open Scope Q_scope.

(** [self.calc_angle_3d(joints[k1], joints[k2], joints[k3], slot)]: the
    three look-ups come first, from left to right. *)
Definition angle_of (joints : Skeleton) (k1 k2 k3 slot : string)
  : CamM (option float) :=
  do j1 <- lookup_joint joints k1;
  do j2 <- lookup_joint joints k2;
  do j3 <- lookup_joint joints k3;
  fun cam => let '(a, cam') := calc_angle_3d cam j1 j2 j3 slot in (Ok a, cam').

(** Lines 178-192. *)
Definition measure_two_angles (p : TwoAngles) (joints : Skeleton) : CamM Angles :=
  do ra <- angle_of joints ("R_" +:+ joint1 p) ("R_" +:+ joint2 p)
             ("R_" +:+ joint3 p) "R_1";
  do la <- angle_of joints ("L_" +:+ joint1 p) ("L_" +:+ joint2 p)
             ("L_" +:+ joint3 p) "L_1";
  if use_alternate_angles p then
    do ra2 <- angle_of joints ("R_" +:+ joint4 p) ("R_" +:+ joint5 p)
                ("L_" +:+ joint6 p) "R_2";
    do la2 <- angle_of joints ("L_" +:+ joint4 p) ("L_" +:+ joint5 p)
                ("R_" +:+ joint6 p) "L_2";
    cam_ret (mkAngles ra la ra2 la2)
  else
    do ra2 <- angle_of joints ("R_" +:+ joint4 p) ("R_" +:+ joint5 p)
                ("R_" +:+ joint6 p) "R_2";
    do la2 <- angle_of joints ("L_" +:+ joint4 p) ("L_" +:+ joint5 p)
                ("L_" +:+ joint6 p) "L_2";
    cam_ret (mkAngles ra la ra2 la2).

End Tracking.

(** [lb < v < ub] *)
Definition between (lb : Q) (v : float) (ub : Q) : bool :=
  flt (Fin lb) v && flt v (Fin ub).

(** The counting branch: lines 212-215. *)
Definition count_repetition (l : Local) (s : Settings) : Local * Settings :=
  ({| flag := true; counter := counter l + 1 |},
   set_patient_repetitions_counting_in_exercise
     (patient_repetitions_counting_in_exercise s + 1)
     (set_number_of_repetitions_in_training
        (number_of_repetitions_in_training s + 1) s)).

(** Lines 207-232. *)
Definition decide_two_angles (p : TwoAngles) (a : Angles) (l : Local) (s : Settings)
  : Local * Settings :=
  match right_angle a, left_angle a, right_angle2 a, left_angle2 a with
  | Some ra, Some la, Some ra2, Some la2 =>
      if left_right_differ p then
        if between (up_lb p) ra (up_ub p) && between (down_lb p) la (down_ub p)
           && between (up_lb2 p) ra2 (up_ub2 p)
           && between (down_lb2 p) la2 (down_ub2 p) && negb (flag l)
        then count_repetition l s
        else if between (down_lb p) ra (down_ub p) && between (up_lb p) la (up_ub p)
                && between (down_lb2 p) ra2 (down_ub2 p)
                && between (up_lb2 p) la2 (up_ub2 p) && flag l
        then ({| flag := false; counter := counter l |}, s)
        else (l, s)
      else
        if between (up_lb p) ra (up_ub p) && between (up_lb p) la (up_ub p)
           && between (up_lb2 p) ra2 (up_ub2 p)
           && between (up_lb2 p) la2 (up_ub2 p) && negb (flag l)
        then count_repetition l s
        else if between (down_lb p) ra (down_ub p) && between (down_lb p) la (down_ub p)
                && between (down_lb2 p) ra2 (down_ub2 p)
                && between (down_lb2 p) la2 (down_ub2 p) && flag l
        then ({| flag := false; counter := counter l |}, s)
        else (l, s)
  | _, _, _, _ => (l, s)
  end.

(** Where the tracking thread stands between two passes: at the test of the
    outer [while], or inside the pause loop. *)
Inductive Where : Type := AtTest | InPause.

(** One pass: through the body of the outer loop, or one turn of the pause
    loop, or the way out. *)
Inductive Step : Type :=
| Continue (l : Local) (s : Settings) (cam : Camera)
| Pause (l : Local) (s : Settings) (cam : Camera)
| Leave (l : Local) (s : Settings) (cam : Camera)
| Uncaught (e : exn) (s : Settings) (cam : Camera).

(** What one pass meets: the writes of the other threads since the last
    pass, and the answer of [get_skeleton_data] ([None] on a timeout), which
    a turn of the pause loop does not ask for. *)
Record Tick (F : Type) : Type := mkTick {
  requests : list Request;
  frame : option F
}.
Arguments mkTick {F} _ _.
Arguments requests {F} _.
Arguments frame {F} _.

Section Loop.
(** The read-out of the four angles from a frame is a parameter: the camera
    gives [measure_two_angles], a script gives the angles themselves. *)
Context {F : Type} (measure : F -> CamM Angles).

(** Lines 234-237. *)
Definition check_target (l : Local) (s : Settings) (cam : Camera) : Step :=
  if (counter l =? rep s)%Z
  then Leave l (set_success_exercise true (set_req_exercise "" s)) cam
  else Continue l s cam.

(** Lines 176-237. *)
Definition two_angles_body (p : TwoAngles) (joints : option F) (l : Local)
    (s : Settings) (cam : Camera) : Step :=
  match joints with
  | None => check_target l s cam
  | Some joints =>
      match measure joints cam with
      | (Raise e, cam) => Uncaught e s cam
      | (Ok a, cam) =>
          let '(l, s) := decide_two_angles p a l s in
          check_target l s cam
      end
  end.

(** Lines 170-237: the test of the outer loop (when the thread stands
    there), the test of the pause loop, and then either one turn of the
    pause loop, which empties the smoothing slots, or the body. *)
Definition two_angles_pass (p : TwoAngles) (t : Tick F) (w : Where) (l : Local)
    (s : Settings) (cam : Camera) : Step :=
  let s := apply_requests (requests t) s in
  let leaving :=
    match w with
    | AtTest => negb (String.eqb (req_exercise s) (exercise_name p))
    | InPause => false
    end in
  if leaving then Leave l s cam
  else if did_training_paused s && negb (stop_requested s)
  then Pause l s (set_previous_angles ∅ cam)
  else two_angles_body p (frame t) l s cam.

(** How a run over a finite script of ticks ends. *)
Inductive Outcome : Type :=
| Returned (counter : Z) (s : Settings) (cam : Camera)
| Crashed (e : exn) (s : Settings) (cam : Camera)
| Running (w : Where) (l : Local) (s : Settings) (cam : Camera).

(** Lines 239-240, after the loop. *)
Definition leave_exercise (p : TwoAngles) (l : Local) (s : Settings) : Settings :=
  set_ex_list (<[exercise_name p := counter l]> (ex_list s)) s.

Fixpoint two_angles_loop (p : TwoAngles) (ticks : list (Tick F)) (w : Where)
    (l : Local) (s : Settings) (cam : Camera) : Outcome :=
  match ticks with
  | [] => Running w l s cam
  | t :: ticks =>
      match two_angles_pass p t w l s cam with
      | Continue l s cam => two_angles_loop p ticks AtTest l s cam
      | Pause l s cam => two_angles_loop p ticks InPause l s cam
      | Leave l s cam => Returned (counter l) (leave_exercise p l s) cam
      | Uncaught e s cam => Crashed e s cam
      end
  end.

End Loop.

(** [exercise_two_angles_3d] on the frames of the camera. *)
Definition exercise_two_angles_3d {np : NumPy} (p : TwoAngles)
    (ticks : list (Tick Skeleton)) (s : Settings) (cam : Camera) : Outcome :=
  two_angles_loop (measure_two_angles p) p ticks AtTest Local_init s cam.

(** [exercise_two_angles_3d] on a script of measured angles: the values
    [calc_angle_3d] returned for each frame. *)
Definition exercise_two_angles_3d_scripted (p : TwoAngles)
    (ticks : list (Tick Angles)) (s : Settings) (cam : Camera) : Outcome :=
  two_angles_loop cam_ret p ticks AtTest Local_init s cam.

(** ** Catalogue entries used below *)

(** [ball_bend_elbows], EX1. *)
Definition ball_bend_elbows : TwoAngles :=
  mkTwoAngles "ball_bend_elbows" "shoulder" "elbow" "wrist" 150 180 10 60
    "elbow" "shoulder" "hip" 0 60 0 60 false false.

(** [weights_abduction], EX19. *)
Definition weights_abduction : TwoAngles :=
  mkTwoAngles "weights_abduction" "hip" "shoulder" "elbow" 80 120 0 40
    "shoulder" "elbow" "wrist" 130 180 130 180 false false.

(** ** The adaptive range: [get_adaptive_range_for_joint] *)

Definition map_is_empty {A : Type} (m : gmap string A) : bool :=
  match map_to_list m with [] => true | _ => false end.

Definition get_adaptive_range_for_joint (s : Settings) (joint_combo : string)
    (default_min default_max : float) : float * float :=
  if negb (patient_calibrated s) then (default_min, default_max)
  else if map_is_empty (patient_rom s) then (default_min, default_max)
  else
    let max_key := joint_combo +:+ "_Max" in
    let min_key := joint_combo +:+ "_Min" in
    match patient_rom s !! max_key, patient_rom s !! min_key with
    | Some patient_max, Some patient_min =>
        let safety := Fin (9 # 10) in
        let range_span := fsub patient_max patient_min in
        let safe_max := fadd patient_min (fmul range_span safety) in
        if flt patient_max default_max
        then (patient_min, safe_max)
        else (default_min, default_max)
    | _, _ => (default_min, default_max)
    end.

(** ** The warm-up protocol: [Simple_Calibration] *)

(** The dictionary [calibrate_one_exercise] stores in [s.calibration_ranges]
    before the patient moves. *)
Definition fresh_ranges : gmap string float :=
  <["right_max" := Fin 0%Q]> (<["right_min" := Fin 180%Q]>
  (<["left_max" := Fin 0%Q]> (<["left_min" := Fin 180%Q]> ∅))).

(** The camera thread ([RealsenseNew.run]): it tracks the exercise, or waits
    for a request, or has died of an exception nobody caught. *)
Inductive CameraThread : Type :=
| Tracking (w : Where) (l : Local)
| Idle
| Dead (e : exn).

Section Warmup.
Context {np : NumPy}.

(** The camera thread over the ticks that fall into one sleep of the
    calibrator.  An idle thread that finds its exercise requested calls the
    exercise method; when the method returns, [run] empties
    [s.req_exercise]. *)
Fixpoint camera_thread (p : TwoAngles) (ticks : list (Tick Skeleton))
    (th : CameraThread) (s : Settings) (cam : Camera)
  : CameraThread * Settings * Camera :=
  match ticks with
  | [] => (th, s, cam)
  | t :: ticks =>
      match th with
      | Tracking w l =>
          match two_angles_pass (measure_two_angles p) p t w l s cam with
          | Continue l s cam => camera_thread p ticks (Tracking AtTest l) s cam
          | Pause l s cam => camera_thread p ticks (Tracking InPause l) s cam
          | Leave l s cam =>
              camera_thread p ticks Idle
                (set_req_exercise "" (leave_exercise p l s)) cam
          | Uncaught e s cam => camera_thread p ticks (Dead e) s cam
          end
      | Idle =>
          let s := apply_requests (requests t) s in
          if String.eqb (req_exercise s) (exercise_name p)
          then camera_thread p ticks (Tracking AtTest Local_init) s cam
          else camera_thread p ticks Idle s cam
      | Dead e =>
          camera_thread p ticks (Dead e) (apply_requests (requests t) s) cam
      end
  end.

(** One test of the waiting loop of [calibrate_one_exercise]: the time
    since [start_time] in milliseconds, and what the camera thread meets
    during the [time.sleep(0.1)] that follows. *)
Record Poll : Type := mkPoll {
  elapsed : Z;
  camera_ticks : list (Tick Skeleton)
}.

(** Lines 124-132; [None] when the script of polls ends before the loop. *)
Fixpoint wait_for_repetition (p : TwoAngles) (polls : list Poll)
    (th : CameraThread) (s : Settings) (cam : Camera)
  : option (CameraThread * Settings * Camera) :=
  if (patient_repetitions_counting_in_exercise s <? 1)%Z then
    match polls with
    | [] => None
    | q :: polls =>
        if (30000 <? elapsed q)%Z then Some (th, s, cam)
        else if stop_requested s then Some (th, s, cam)
        else
          let '(th, s, cam) := camera_thread p (camera_ticks q) th s cam in
          wait_for_repetition p polls th s cam
    end
  else Some (th, s, cam).

(** Lines 140-145: the returned dictionary. *)
Definition read_ranges (s : Settings) : result (gmap string float) :=
  match getitem (calibration_ranges s) "right_max",
        getitem (calibration_ranges s) "right_min",
        getitem (calibration_ranges s) "left_max",
        getitem (calibration_ranges s) "left_min" with
  | Ok rmax, Ok rmin, Ok lmax, Ok lmin =>
      Ok (<["right_max" := rmax]> (<["right_min" := rmin]>
         (<["left_max" := lmax]> (<["left_min" := lmin]> ∅))))
  | Raise e, _, _, _ | _, Raise e, _, _ | _, _, Raise e, _ | _, _, _, Raise e =>
      Raise e
  end.

(** [calibrate_one_exercise]; [warmup] is what the camera thread meets
    during the first [time.sleep(2)]. *)
Definition calibrate_one_exercise (p : TwoAngles)
    (warmup : list (Tick Skeleton)) (polls : list Poll)
    (th : CameraThread) (s : Settings) (cam : Camera)
  : option (result (option (gmap string float)) * CameraThread * Settings * Camera) :=
  let s := set_req_exercise (exercise_name p) s in
  let s := set_patient_repetitions_counting_in_exercise 0 s in
  let s := set_calibration_mode true s in
  let s := set_calibration_ranges fresh_ranges s in
  let '(th, s, cam) := camera_thread p warmup th s cam in
  match wait_for_repetition p polls th s cam with
  | None => None
  | Some (th, s, cam) =>
      let s := set_req_exercise "" s in
      let s := set_calibration_mode false s in
      let ranges :=
        if (1 <=? patient_repetitions_counting_in_exercise s)%Z
        then match read_ranges s with
             | Ok r => Ok (Some r)
             | Raise e => Raise e
             end
        else Ok None in
      Some (ranges, th, s, cam)
  end.

End Warmup.

(** *** The sheet [PatientROM_Simple.xlsx] *)

Record Row : Type := mkRow {
  PatientID : string;
  Date : string;
  Exercise : string;
  Right_Max : float;
  Right_Min : float;
  Left_Max : float;
  Left_Min : float
}.

(** [ranges.get(key, 0)] *)
Definition get_or_zero (ranges : gmap string float) (key : string) : float :=
  default (Fin 0%Q) (ranges !! key).

(** [save_to_excel]: one row per exercise, in the order of the dictionary,
    appended below the rows the sheet has; [date_str] is
    [datetime.now().strftime("%Y-%m-%d %H:%M")]. *)
Definition session_row (patient_id date_str : string)
    (item : string * gmap string float) : Row :=
  let '(exercise, ranges) := item in
  mkRow patient_id date_str exercise
    (get_or_zero ranges "right_max") (get_or_zero ranges "right_min")
    (get_or_zero ranges "left_max") (get_or_zero ranges "left_min").

Definition save_to_excel (patient_id date_str : string)
    (calibration_data : list (string * gmap string float)) (sheet : list Row)
  : list Row :=
  sheet ++ map (session_row patient_id date_str) calibration_data.

(** [sort_values('Date', ascending=False)]: rows with equal dates keep their
    order here (pandas does not promise it). *)
Fixpoint insert_by_date_desc (r : Row) (rows : list Row) : list Row :=
  match rows with
  | [] => [r]
  | r' :: rows' =>
      if String.ltb (Date r') (Date r)
      then r :: rows
      else r' :: insert_by_date_desc r rows'
  end.

Fixpoint sort_by_date_desc (rows : list Row) : list Row :=
  match rows with
  | [] => []
  | r :: rows' => insert_by_date_desc r (sort_by_date_desc rows')
  end.

Definition row_ranges (r : Row) : gmap string float :=
  <["right_max" := Right_Max r]> (<["right_min" := Right_Min r]>
  (<["left_max" := Left_Max r]> (<["left_min" := Left_Min r]> ∅))).

(** [load_from_excel] on an existing sheet. *)
Definition load_from_excel (patient_id : string) (sheet : list Row)
  : option (gmap string (gmap string float)) :=
  let patient_data := filter (fun r => PatientID r = patient_id) sheet in
  match patient_data with
  | [] => None
  | _ =>
      let patient_data := sort_by_date_desc patient_data in
      Some (fold_left (fun calibration row =>
                         <[Exercise row := row_ranges row]> calibration)
                      patient_data ∅)
  end.

(** ** The full protocol: [Patient_Calibration] *)

Record Measurement : Type := mkMeasurement {
  name : string;
  joints : string * string * string;
  normal_max : float;
  normal_min : float
}.

Definition calibration_measurements : list Measurement :=
  [ mkMeasurement "R_Shoulder_Hip_Elbow" ("R_hip", "R_shoulder", "R_elbow") (Fin 180%Q) (Fin 10%Q);
    mkMeasurement "L_Shoulder_Hip_Elbow" ("L_hip", "L_shoulder", "L_elbow") (Fin 180%Q) (Fin 10%Q);
    mkMeasurement "R_Shoulder_Hip_Wrist" ("R_hip", "R_shoulder", "R_wrist") (Fin 150%Q) (Fin 20%Q);
    mkMeasurement "L_Shoulder_Hip_Wrist" ("L_hip", "L_shoulder", "L_wrist") (Fin 150%Q) (Fin 20%Q);
    mkMeasurement "R_Elbow" ("R_shoulder", "R_elbow", "R_wrist") (Fin 150%Q) (Fin 5%Q);
    mkMeasurement "L_Elbow" ("L_shoulder", "L_elbow", "L_wrist") (Fin 150%Q) (Fin 5%Q);
    mkMeasurement "R_Elbow_Shoulder_Hip" ("R_elbow", "R_shoulder", "R_hip") (Fin 180%Q) (Fin 0%Q);
    mkMeasurement "L_Elbow_Shoulder_Hip" ("L_elbow", "L_shoulder", "L_hip") (Fin 180%Q) (Fin 0%Q);
    mkMeasurement "R_Wrist_Shoulder_Shoulder" ("R_wrist", "R_shoulder", "L_shoulder") (Fin 180%Q) (Fin 60%Q);
    mkMeasurement "L_Wrist_Shoulder_Shoulder" ("L_wrist", "L_shoulder", "R_shoulder") (Fin 180%Q) (Fin 60%Q);
    mkMeasurement "R_Wrist_Hip_Hip" ("R_wrist", "R_hip", "L_hip") (Fin 160%Q) (Fin 35%Q);
    mkMeasurement "L_Wrist_Hip_Hip" ("L_wrist", "L_hip", "R_hip") (Fin 160%Q) (Fin 35%Q);
    mkMeasurement "R_Wrist_Elbow_Shoulder" ("R_wrist", "R_elbow", "R_shoulder") (Fin 180%Q) (Fin 120%Q);
    mkMeasurement "L_Wrist_Elbow_Shoulder" ("L_wrist", "L_elbow", "L_shoulder") (Fin 180%Q) (Fin 120%Q);
    mkMeasurement "R_Wrist_Shoulder_Hip" ("R_wrist", "R_shoulder", "R_hip") (Fin 135%Q) (Fin 80%Q);
    mkMeasurement "L_Wrist_Shoulder_Hip" ("L_wrist", "L_shoulder", "L_hip") (Fin 135%Q) (Fin 80%Q) ].

(** One answer of [s.camera.get_skeleton_data()]: the time it took in
    milliseconds (up to the socket timeout), and the frame or [None]. *)
Record Frame : Type := mkFrame {
  latency : N;
  skeleton : option Skeleton
}.

(** What the calibration thread acts on: the clock in milliseconds, the
    value of [s.stop_requested] (written by the screen) as a function of the
    time, the answers the camera has yet to give, and the camera object. *)
Record World : Type := mkWorld {
  clock : Z;
  stop_at : Z -> bool;
  feed : list Frame;
  camera : Camera
}.

(** [time.sleep(ms / 1000)] *)
Definition sleep (ms : Z) (w : World) : World :=
  mkWorld (clock w + ms) (stop_at w) (feed w) (camera w).

Inductive Target : Type := target_max | target_min.

(** How the sampling loop of [capture_angle] ends: by its [return None] on
    a stop request, or by its test with the samples it has. *)
Inductive Window : Type :=
| Stopped
| Collected (samples : list float).

(** [np.max] and [np.min] of a list without [nan]. *)
Definition fmax (a b : float) : float := if flt a b then b else a.
Definition fmin (a b : float) : float := if flt b a then b else a.

Definition np_max (samples : list float) : option float :=
  match samples with
  | [] => None
  | a :: rest => Some (fold_left fmax rest a)
  end.

Definition np_min (samples : list float) : option float :=
  match samples with
  | [] => None
  | a :: rest => Some (fold_left fmin rest a)
  end.

Section FullProtocol.
Context {np : NumPy}.

(** Lines 350-361: one frame of the window. *)
Definition capture_sample (joints : string * string * string)
    (skeleton : Skeleton) (samples : list float) (cam : Camera)
  : list float * Camera :=
  let '(k1, k2, k3) := joints in
  match getitem skeleton k1, getitem skeleton k2, getitem skeleton k3 with
  | Ok j1, Ok j2, Ok j3 =>
      let '(angle, cam) := calc_angle_3d cam j1 j2 j3 "calibration" in
      match angle with
      | Some a => if fgt a (Fin 0%Q) then (samples ++ [a], cam) else (samples, cam)
      | None => (samples, cam)
      end
  | _, _, _ => (samples, cam)
  end.

(** Lines 343-363; [None] when the answers of the camera run out while the
    loop is still going. *)
Fixpoint capture_loop (joints : string * string * string) (duration : Z)
    (start_time : Z) (samples : list float) (stop : Z -> bool)
    (frames : list Frame) (now : Z) (cam : Camera)
  : option (Window * World) :=
  if (now - start_time <? duration)%Z then
    if stop now then Some (Stopped, mkWorld now stop frames cam)
    else
      match frames with
      | [] => None
      | f :: frames =>
          let '(samples, cam) :=
            match skeleton f with
            | Some sk => capture_sample joints sk samples cam
            | None => (samples, cam)
            end in
          capture_loop joints duration start_time samples stop frames
            (now + Z.of_N (latency f) + 100)%Z cam
      end
  else Some (Collected samples, mkWorld now stop frames cam).

Definition capture_window (joints : string * string * string) (duration : Z)
    (w : World) : option (Window * World) :=
  capture_loop joints duration (clock w) [] (stop_at w) (feed w) (clock w)
    (camera w).

(** [capture_angle] *)
Definition capture_angle (joints : string * string * string) (duration : Z)
    (target : Target) (w : World) : option (option float * World) :=
  match capture_window joints duration w with
  | None => None
  | Some (Stopped, w) => Some (None, w)
  | Some (Collected samples, w) =>
      Some (match target with
            | target_max => np_max samples
            | target_min => np_min samples
            end, w)
  end.

(** [measure_rom]: [Some (max, min)] for [(True, max, min)], [None] for
    [(False, None, None)]. *)
Definition measure_rom (config : Measurement) (w : World)
  : option (option (float * float) * World) :=
  let w := sleep 2000 w in
  match capture_angle (joints config) 4000 target_max w with
  | None => None
  | Some (None, w) => Some (None, w)
  | Some (Some max_angle, w) =>
      let w := sleep 1000 w in
      let w := sleep 2000 w in
      match capture_angle (joints config) 4000 target_min w with
      | None => None
      | Some (None, w) => Some (None, w)
      | Some (Some min_angle, w) =>
          if flt max_angle min_angle
          then Some (Some (min_angle, max_angle), w)
          else Some (Some (max_angle, min_angle), w)
      end
  end.

(** Lines 266-278: one measurement and its entry in [rom_data]. *)
Definition record_measurement (measurement : Measurement)
    (rom_data : gmap string float) (w : World)
  : option (gmap string float * World) :=
  match measure_rom measurement w with
  | None => None
  | Some (r, w) =>
      let rom_data :=
        match r with
        | Some (max_val, min_val) =>
            <[name measurement +:+ "_Min" := min_val]>
              (<[name measurement +:+ "_Max" := max_val]> rom_data)
        | None =>
            <[name measurement +:+ "_Min" := normal_min measurement]>
              (<[name measurement +:+ "_Max" := normal_max measurement]> rom_data)
        end in
      Some (rom_data, sleep 1000 w)
  end.

(** Lines 259-278: the loop over the measurements; [false] for the
    [return False] of a cancelled calibration. *)
Fixpoint run_measurements (measurements : list Measurement)
    (rom_data : gmap string float) (w : World)
  : option (bool * gmap string float * World) :=
  match measurements with
  | [] => Some (true, rom_data, w)
  | measurement :: measurements =>
      if stop_at w (clock w) then Some (false, rom_data, w)
      else
        match record_measurement measurement rom_data w with
        | None => None
        | Some (rom_data, w) => run_measurements measurements rom_data w
        end
  end.

(** [run_calibration]; the scores and the Excel file are left out. *)
Definition run_calibration (s : Settings) (w : World)
  : option (bool * Settings * World) :=
  let s := set_patient_calibrated false s in
  match run_measurements calibration_measurements ∅ w with
  | None => None
  | Some (false, _, w) => Some (false, s, w)
  | Some (true, rom_data, w) =>
      Some (true, set_patient_calibrated true (set_patient_rom rom_data s), w)
  end.

End FullProtocol.

(** ** Vocabulary of the statements *)

(** A joint whose three coordinates are numbers. *)
Definition finite_position (j : Joint) : Prop :=
  exists a1 a2 a3 : Q, position j = (Fin a1, Fin a2, Fin a3).

Definition nonfinite (v : float) : Prop := is_finite v = false.

(** A vector with a component that is not a number. *)
Definition nonfinite_vec (v : vec) : Prop :=
  nonfinite (v.1.1) \/ nonfinite (v.1.2) \/ nonfinite (v.2).

(** The triples the design document lets [computeAngle] refuse: one of the
    two arms of the angle has zero length, or a coordinate is not finite. *)
Definition degenerate (joint1 joint2 joint3 : Joint) : Prop :=
  (finite_position joint1 /\ finite_position joint2 /\ finite_position joint3
   /\ (position joint1 = position joint2 \/ position joint3 = position joint2))
  \/ nonfinite_vec (position joint1) \/ nonfinite_vec (position joint2)
  \/ nonfinite_vec (position joint3).

(** The joints [exercise_two_angles_3d] looks up in a frame, in the order
    of the look-ups. *)
Definition required_joints (p : TwoAngles) : list string :=
  [ "R_" +:+ joint1 p; "R_" +:+ joint2 p; "R_" +:+ joint3 p;
    "L_" +:+ joint1 p; "L_" +:+ joint2 p; "L_" +:+ joint3 p;
    "R_" +:+ joint4 p; "R_" +:+ joint5 p;
    (if use_alternate_angles p then "L_" else "R_") +:+ joint6 p;
    "L_" +:+ joint4 p; "L_" +:+ joint5 p;
    (if use_alternate_angles p then "R_" else "L_") +:+ joint6 p ].

(** Settings under which the loop goes on tracking [p] towards five
    repetitions. *)
Definition tracking (p : TwoAngles) (s : Settings) : Prop :=
  req_exercise s = exercise_name p /\ did_training_paused s = false /\ rep s = 5%Z.

(** The settings after [n] counted repetitions. *)
Definition credited (n : nat) (s : Settings) : Settings :=
  Nat.iter n (fun s => snd (count_repetition Local_init s)) s.

(** The settings a step hands on. *)
Definition step_settings (st : Step) : Settings :=
  match st with
  | Continue _ s _ | Pause _ s _ | Leave _ s _ | Uncaught _ s _ => s
  end.

(** The slots of [cam'] are those of [cam], but for [calibration], which is
    still filled if it was; the largest jump is the same. *)
Definition only_calibration_slot (cam cam' : Camera) : Prop :=
  max_angle_jump cam' = max_angle_jump cam
  /\ (forall k, k <> "calibration" ->
                previous_angles cam' !! k = previous_angles cam !! k)
  /\ (is_Some (previous_angles cam !! "calibration") ->
      is_Some (previous_angles cam' !! "calibration")).

(** [rom_data] with the normal values of a measurement. *)
Definition with_defaults (m : Measurement) (rom_data : gmap string float)
  : gmap string float :=
  <[name m +:+ "_Min" := normal_min m]>
    (<[name m +:+ "_Max" := normal_max m]> rom_data).

(** [rom_data] when every measurement fell back to its normal values. *)
Definition all_defaults : gmap string float :=
  fold_left (fun rom m => with_defaults m rom) calibration_measurements ∅.

(** ** Concrete inputs *)

(** An executable stand-in for numpy on the inputs used below: the square
    root to six decimals (exact on the squares met there), and the chord
    through the three points where the arc cosine in degrees is rational,
    [arccos 1 = 0], [arccos 0 = 90], [arccos (-1) = 180]; the frames below
    only have cosines -1, 0 and 1. *)
Program Definition coarse_numpy : NumPy :=
  {| np_sqrt := fun q =>
       Qred (Z.sqrt (Qfloor (q * 1000000000000)) # 1000000);
     np_arccos_deg := fun c => Qred (90 - 90 * c) |}.
Next Obligation.
  intros q Hq. rewrite Qred_correct, Hq. reflexivity.
Qed.

Definition joint_at (k : string) (px py pz : Q) : Joint :=
  mkJoint k (Fin px) (Fin py) (Fin pz) true.

(** One arm, the same on both sides: the shoulder at the origin, the hip
    below it, and elbow and wrist on a straight line from the shoulder. *)
Definition arm (side : string) (ex ey wx wy : Q) : list (string * Joint) :=
  [ (side +:+ "hip", joint_at (side +:+ "hip") 0 (-3) 0);
    (side +:+ "shoulder", joint_at (side +:+ "shoulder") 0 0 0);
    (side +:+ "elbow", joint_at (side +:+ "elbow") ex ey 0);
    (side +:+ "wrist", joint_at (side +:+ "wrist") wx wy 0) ].

(** Both arms hanging: 0 degrees at the shoulder, a straight elbow. *)
Definition arms_down : Skeleton :=
  list_to_map (arm "R_" 0 (-1) 0 (-2) ++ arm "L_" 0 (-1) 0 (-2)).

(** Both arms raised to the side: 90 degrees at the shoulder, a straight
    elbow. *)
Definition arms_side : Skeleton :=
  list_to_map (arm "R_" 1 0 2 0 ++ arm "L_" 1 0 2 0).

(** [arms_side] without the right wrist. *)
Definition arms_side_no_R_wrist : Skeleton := delete "R_wrist" arms_side.

(** A tick without requests. *)
Definition quiet {F : Type} (f : F) : Tick F := mkTick [] (Some f).

(** A frame of measured angles: [a] on both sides of the first pair, [a2]
    on both sides of the second. *)
Definition measured (a a2 : Q) : Angles :=
  mkAngles (Some (Fin a)) (Some (Fin a)) (Some (Fin a2)) (Some (Fin a2)).

(** [n] cycles of the first pair at [a] and then at [b], the second pair
    held at [a2]. *)
Fixpoint cycles (n : nat) (a b a2 : Q) : list (Tick Angles) :=
  match n with
  | O => []
  | S n => quiet (measured a a2) :: quiet (measured b a2) :: cycles n a b a2
  end.

(** [Settings] as [main.py] leaves them, with an exercise requested. *)
Definition requested (exercise : string) : Settings :=
  set_req_exercise exercise Settings_init.

(** A camera whose slot [slot] holds [previous]. *)
Definition camera_with (slot : string) (previous : Q) : Camera :=
  set_previous_angles {[ slot := Fin previous ]} Camera_init.

(** A world for the calibration thread: the clock at 0, a stop request from
    [stop_time] on, the camera answering at once with the same frame [n]
    times. *)
Definition steady_world (stop_time : option Z) (sk : option Skeleton) (n : nat)
  : World :=
  mkWorld 0
    (fun t => match stop_time with
              | Some t0 => (t0 <=? t)%Z
              | None => false
              end)
    (repeat (mkFrame 0 sk) n) Camera_init.

(** Two warm-up sessions of one patient for the same exercise. *)
Definition ranges_of (rmax rmin lmax lmin : Q) : gmap string float :=
  <["right_max" := Fin rmax]> (<["right_min" := Fin rmin]>
  (<["left_max" := Fin lmax]> (<["left_min" := Fin lmin]> ∅))).

Definition two_sessions : list Row :=
  save_to_excel "1234" "2025-11-02 09:30"
    [("ball_bend_elbows", ranges_of 170 30 165 35)]
    (save_to_excel "1234" "2025-11-01 09:30"
       [("ball_bend_elbows", ranges_of 120 50 110 55)] []).

(** What the camera thread meets while the patient does one repetition of
    [weights_abduction]: the request is picked up, then the arms are seen at
    the side, hanging for six frames, and at the side again for six. *)
Definition one_repetition : list (Tick Skeleton) :=
  mkTick [] None :: quiet arms_side
  :: repeat (quiet arms_down) 6 ++ repeat (quiet arms_side) 6.

(** A patient measured with a right elbow between 20 and [elbow_max]. *)
Definition calibrated_elbow (elbow_max : Q) : Settings :=
  set_patient_calibrated true
    (set_patient_rom
       (<["R_Elbow_Max" := Fin elbow_max]> (<["R_Elbow_Min" := Fin 20%Q]> ∅))
       Settings_init).

(** A straight arm along the x axis. *)
Definition straight_shoulder : Joint := joint_at "R_shoulder" (-1) 0 0.
Definition straight_elbow : Joint := joint_at "R_elbow" 0 0 0.
Definition straight_wrist : Joint := joint_at "R_wrist" 1 0 0.

(** * Further code *)

(** ** [get_skeleton_data] *)

(** [text.split(sep)] for a separator of one character. *)
Fixpoint split (sep : Ascii.ascii) (text : string) : list string :=
  match text with
  | EmptyString => [EmptyString]
  | String c rest =>
      if Ascii.eqb c sep then EmptyString :: split sep rest
      else
        match split sep rest with
        | [] => [String c EmptyString]
        | field :: fields => String c field :: fields
        end
  end.

(** [Joint(name, x, y, z)]; what the class puts into its visibility flag is
    not in the sources at hand, and nothing below reads it. *)
Definition new_joint (k : string) (px py pz : float) : Joint :=
  mkJoint k px py pz true.

Section Parsing.
(** [float(text)], with [None] for the [ValueError] of a text that is no
    number; the grammar of Python's numbers is left open. *)
Variable py_float : string -> option float.

(** Lines 124-125: one entry of the datagram. *)
Definition add_joint (joints : Skeleton) (j : list string) : option Skeleton :=
  match j with
  | [k; tx; ty; tz] =>
      match py_float tx, py_float ty, py_float tz with
      | Some px, Some py, Some pz =>
          Some (<[k := new_joint k px py (fmul pz (Fin 100%Q))]> joints)
      | _, _, _ => None
      end
  | _ => Some joints
  end.

(** Lines 122-126; [None] when a [float] raised, which the last [except]
    turns into the answer [None]. *)
Fixpoint parse_joints (joints : Skeleton) (joints_str : list (list string))
  : option Skeleton :=
  match joints_str with
  | [] => Some joints
  | j :: joints_str =>
      match add_joint joints j with
      | Some joints => parse_joints joints joints_str
      | None => None
      end
  end.

(** Lines 113-119: the entries of a decoded datagram. *)
Definition entries_of (data : string) : list (list string) :=
  map (split ","%char) (filter (fun i => i <> EmptyString) (split "/"%char data)).

(** [get_skeleton_data] on what [recvfrom] gives, decoded: [None] for the
    timeout of the socket (a datagram that does not decode is answered
    with [None] as well). *)
Definition get_skeleton_data (received : option string) : option Skeleton :=
  match received with
  | None => None
  | Some data => parse_joints ∅ (entries_of data)
  end.

End Parsing.

(** ** The four evaluators over one loop *)

(** The conditions of the two branches of [exercise_two_angles_3d], without
    the test of [flag]. *)
Definition up_condition (p : TwoAngles) (a : Angles) : bool :=
  match right_angle a, left_angle a, right_angle2 a, left_angle2 a with
  | Some ra, Some la, Some ra2, Some la2 =>
      if left_right_differ p then
        between (up_lb p) ra (up_ub p) && between (down_lb p) la (down_ub p)
        && between (up_lb2 p) ra2 (up_ub2 p) && between (down_lb2 p) la2 (down_ub2 p)
      else
        between (up_lb p) ra (up_ub p) && between (up_lb p) la (up_ub p)
        && between (up_lb2 p) ra2 (up_ub2 p) && between (up_lb2 p) la2 (up_ub2 p)
  | _, _, _, _ => false
  end.

Definition down_condition (p : TwoAngles) (a : Angles) : bool :=
  match right_angle a, left_angle a, right_angle2 a, left_angle2 a with
  | Some ra, Some la, Some ra2, Some la2 =>
      if left_right_differ p then
        between (down_lb p) ra (down_ub p) && between (up_lb p) la (up_ub p)
        && between (down_lb2 p) ra2 (down_ub2 p) && between (up_lb2 p) la2 (up_ub2 p)
      else
        between (down_lb p) ra (down_ub p) && between (down_lb p) la (down_ub p)
        && between (down_lb2 p) ra2 (down_ub2 p)
        && between (down_lb2 p) la2 (down_ub2 p)
  | _, _, _, _ => false
  end.

(** The shape all four evaluators share: count when the first condition
    holds in the phase [DOWN], else go back to [DOWN] when the second holds
    in the phase [UP]. *)
Definition transition (up down : bool) (l : Local) (s : Settings)
  : Local * Settings :=
  if up && negb (flag l) then count_repetition l s
  else if down && flag l then ({| flag := false; counter := counter l |}, s)
  else (l, s).

(** Code that looks joints up and may raise. *)
Definition result_bind {A B : Type} (m : result A) (f : A -> result B) : result B :=
  match m with
  | Ok a => f a
  | Raise e => Raise e
  end.

Notation "'try' v <- m ; k" := (result_bind m (fun v => k))
  (at level 10, v name, m at level 100, k at level 200, only parsing).

(** [abs(joints["L_shoulder"].x - joints["R_shoulder"].x) < 200] *)
Definition shoulders_close (joints : Skeleton) : result bool :=
  try ls <- getitem joints "L_shoulder";
  try rs <- getitem joints "R_shoulder";
  Ok (flt (fabs (fsub (x ls) (x rs))) (Fin 200%Q)).

(** Lines 275-301 of [exercise_two_angles_3d_with_axis_check].  The
    parameter [diff_size] is not read: the bound is the literal 200.  Both
    branches of the mode [left_right_differ] look the shoulders up, the
    first one whatever the angles are. *)
Definition decide_with_axis_check (p : TwoAngles) (diff_size : Q)
    (joints : Skeleton) (a : Angles) (l : Local) (s : Settings)
  : result (Local * Settings) :=
  match right_angle a, left_angle a, right_angle2 a, left_angle2 a with
  | Some _, Some _, Some _, Some _ =>
      if left_right_differ p then
        try close <- shoulders_close joints;
        if up_condition p a && close && negb (flag l)
        then Ok (count_repetition l s)
        else
          try close <- shoulders_close joints;
          if down_condition p a && close && flag l
          then Ok ({| flag := false; counter := counter l |}, s)
          else Ok (l, s)
      else Ok (transition (up_condition p a) (down_condition p a) l s)
  | _, _, _, _ => Ok (l, s)
  end.

(** [exercise_three_angles_3d]: a third pair of angles; the parameter
    [left_right_differ] of the method is not read, and
    [use_alternate_angles] crosses the sides of the third pair only. *)
Record ThreeAngles : Type := mkThreeAngles {
  first_two : TwoAngles;
  joint7 : string; joint8 : string; joint9 : string;
  up_lb3 : Q; up_ub3 : Q; down_lb3 : Q; down_ub3 : Q
}.

Record Angles3 : Type := mkAngles3 {
  angles12 : Angles;
  right_angle3 : option float;
  left_angle3 : option float
}.

(** Lines 354-366. *)
Definition decide_three_angles (p : ThreeAngles) (a : Angles3) (l : Local)
    (s : Settings) : Local * Settings :=
  let q := first_two p in
  match right_angle (angles12 a), left_angle (angles12 a),
        right_angle2 (angles12 a), left_angle2 (angles12 a),
        right_angle3 a, left_angle3 a with
  | Some ra, Some la, Some ra2, Some la2, Some ra3, Some la3 =>
      transition
        (between (up_lb q) ra (up_ub q) && between (up_lb q) la (up_ub q)
         && between (up_lb2 q) ra2 (up_ub2 q) && between (up_lb2 q) la2 (up_ub2 q)
         && between (up_lb3 p) ra3 (up_ub3 p) && between (up_lb3 p) la3 (up_ub3 p))
        (between (down_lb q) ra (down_ub q) && between (down_lb q) la (down_ub q)
         && between (down_lb2 q) ra2 (down_ub2 q)
         && between (down_lb2 q) la2 (down_ub2 q)
         && between (down_lb3 p) ra3 (down_ub3 p)
         && between (down_lb3 p) la3 (down_ub3 p))
        l s
  | _, _, _, _, _, _ => (l, s)
  end.

(** [exercise_one_angle_3d_by_sides] *)
Record OneAngle : Type := mkOneAngle {
  one_name : string;
  one_joint1 : string; one_joint2 : string; one_joint3 : string;
  one_lb : Q; one_ub : Q; two_lb : Q; two_ub : Q;
  side : string
}.

(** Lines 396-419.  Python's [&] evaluates both operands, so every look-up
    of a condition is made, whatever the angle is. *)
Definition decide_by_sides (p : OneAngle) (joints : Skeleton)
    (ra la : option float) (l : Local) (s : Settings)
  : result (Local * Settings) :=
  match ra, la with
  | Some ra, Some la =>
      if String.eqb (side p) "right" then
        try w1 <- getitem joints "R_wrist";
        try sh <- getitem joints "L_shoulder";
        try nose <- getitem joints "nose";
        try w2 <- getitem joints "R_wrist";
        if between (one_lb p) ra (one_ub p)
           && fgt (x w1) (fadd (x sh) (Fin 50%Q))
           && fgt (fsub (y nose) (Fin 50%Q)) (y w2) && negb (flag l)
        then Ok (count_repetition l s)
        else
          try w1 <- getitem joints "R_wrist";
          try sh <- getitem joints "L_shoulder";
          if between (two_lb p) ra (two_ub p)
             && flt (x w1) (fsub (x sh) (Fin 400%Q)) && flag l
          then Ok ({| flag := false; counter := counter l |}, s)
          else Ok (l, s)
      else
        try sh <- getitem joints "R_shoulder";
        try w1 <- getitem joints "L_wrist";
        try nose <- getitem joints "nose";
        try w2 <- getitem joints "L_wrist";
        if between (one_lb p) la (one_ub p)
           && fgt (fsub (x sh) (Fin 50%Q)) (x w1)
           && fgt (fsub (y nose) (Fin 50%Q)) (y w2) && negb (flag l)
        then Ok (count_repetition l s)
        else
          try w1 <- getitem joints "L_wrist";
          try sh <- getitem joints "R_shoulder";
          if between (two_lb p) la (two_ub p)
             && fgt (x w1) (fadd (x sh) (Fin 400%Q)) && flag l
          then Ok ({| flag := false; counter := counter l |}, s)
          else Ok (l, s)
  | _, _ => Ok (l, s)
  end.

Section Evaluators.
Context {np : NumPy}.

(** The frame of [exercise_two_angles_3d]: lines 178-232. *)
Definition two_angles_frame {F : Type} (measure : F -> CamM Angles)
    (p : TwoAngles) (joints : F) (l : Local) (s : Settings)
  : CamM (Local * Settings) :=
  do a <- measure joints;
  cam_ret (decide_two_angles p a l s).

(** The frame of [exercise_two_angles_3d_with_axis_check]: lines 259-301. *)
Definition axis_check_frame (p : TwoAngles) (diff_size : Q) (joints : Skeleton)
    (l : Local) (s : Settings) : CamM (Local * Settings) :=
  do a <- measure_two_angles p joints;
  fun cam => (decide_with_axis_check p diff_size joints a l s, cam).

(** Lines 329-348. *)
Definition measure_three_angles (p : ThreeAngles) (joints : Skeleton)
  : CamM Angles3 :=
  let q := first_two p in
  do ra <- angle_of joints ("R_" +:+ joint1 q) ("R_" +:+ joint2 q)
             ("R_" +:+ joint3 q) "R_1";
  do la <- angle_of joints ("L_" +:+ joint1 q) ("L_" +:+ joint2 q)
             ("L_" +:+ joint3 q) "L_1";
  do ra2 <- angle_of joints ("R_" +:+ joint4 q) ("R_" +:+ joint5 q)
              ("R_" +:+ joint6 q) "R_2";
  do la2 <- angle_of joints ("L_" +:+ joint4 q) ("L_" +:+ joint5 q)
              ("L_" +:+ joint6 q) "L_2";
  if use_alternate_angles q then
    do ra3 <- angle_of joints ("R_" +:+ joint7 p) ("R_" +:+ joint8 p)
                ("L_" +:+ joint9 p) "R_3";
    do la3 <- angle_of joints ("L_" +:+ joint7 p) ("L_" +:+ joint8 p)
                ("R_" +:+ joint9 p) "L_3";
    cam_ret (mkAngles3 (mkAngles ra la ra2 la2) ra3 la3)
  else
    do ra3 <- angle_of joints ("R_" +:+ joint7 p) ("R_" +:+ joint8 p)
                ("R_" +:+ joint9 p) "R_3";
    do la3 <- angle_of joints ("L_" +:+ joint7 p) ("L_" +:+ joint8 p)
                ("L_" +:+ joint9 p) "L_3";
    cam_ret (mkAngles3 (mkAngles ra la ra2 la2) ra3 la3).

(** The frame of [exercise_three_angles_3d]: lines 329-366. *)
Definition three_angles_frame (p : ThreeAngles) (joints : Skeleton)
    (l : Local) (s : Settings) : CamM (Local * Settings) :=
  do a <- measure_three_angles p joints;
  cam_ret (decide_three_angles p a l s).

(** The frame of [exercise_one_angle_3d_by_sides]: lines 391-419. *)
Definition by_sides_frame (p : OneAngle) (joints : Skeleton)
    (l : Local) (s : Settings) : CamM (Local * Settings) :=
  do ra <- angle_of joints ("R_" +:+ one_joint1 p) ("R_" +:+ one_joint2 p)
             ("R_" +:+ one_joint3 p) "R_1";
  do la <- angle_of joints ("L_" +:+ one_joint1 p) ("L_" +:+ one_joint2 p)
             ("L_" +:+ one_joint3 p) "L_1";
  fun cam => (decide_by_sides p joints ra la l s, cam).

End Evaluators.

Section ExerciseLoop.
(** The loop the four methods repeat word for word around their frames. *)
Context {F : Type} (frame_step : F -> Local -> Settings -> CamM (Local * Settings)).

Definition exercise_body (joints : option F) (l : Local) (s : Settings)
    (cam : Camera) : Step :=
  match joints with
  | None => check_target l s cam
  | Some joints =>
      match frame_step joints l s cam with
      | (Raise e, cam) => Uncaught e s cam
      | (Ok (l, s), cam) => check_target l s cam
      end
  end.

Definition exercise_pass (exercise : string) (t : Tick F) (w : Where) (l : Local)
    (s : Settings) (cam : Camera) : Step :=
  let s := apply_requests (requests t) s in
  let leaving :=
    match w with
    | AtTest => negb (String.eqb (req_exercise s) exercise)
    | InPause => false
    end in
  if leaving then Leave l s cam
  else if did_training_paused s && negb (stop_requested s)
  then Pause l s (set_previous_angles ∅ cam)
  else exercise_body (frame t) l s cam.

Fixpoint exercise_loop (exercise : string) (ticks : list (Tick F)) (w : Where)
    (l : Local) (s : Settings) (cam : Camera) : Outcome :=
  match ticks with
  | [] => Running w l s cam
  | t :: ticks =>
      match exercise_pass exercise t w l s cam with
      | Continue l s cam => exercise_loop exercise ticks AtTest l s cam
      | Pause l s cam => exercise_loop exercise ticks InPause l s cam
      | Leave l s cam =>
          Returned (counter l)
            (set_ex_list (<[exercise := counter l]> (ex_list s)) s) cam
      | Uncaught e s cam => Crashed e s cam
      end
  end.

End ExerciseLoop.

Definition exercise_two_angles_3d_with_axis_check {np : NumPy} (p : TwoAngles)
    (diff_size : Q) (ticks : list (Tick Skeleton)) (s : Settings) (cam : Camera)
  : Outcome :=
  exercise_loop (axis_check_frame p diff_size) (exercise_name p) ticks AtTest
    Local_init s cam.

Definition exercise_three_angles_3d {np : NumPy} (p : ThreeAngles)
    (ticks : list (Tick Skeleton)) (s : Settings) (cam : Camera) : Outcome :=
  exercise_loop (three_angles_frame p) (exercise_name (first_two p)) ticks AtTest
    Local_init s cam.

Definition exercise_one_angle_3d_by_sides {np : NumPy} (p : OneAngle)
    (ticks : list (Tick Skeleton)) (s : Settings) (cam : Camera) : Outcome :=
  exercise_loop (by_sides_frame p) (one_name p) ticks AtTest Local_init s cam.

(** [weights_open_arms_and_forward], EX18. *)
Definition weights_open_arms_and_forward : TwoAngles :=
  mkTwoAngles "weights_open_arms_and_forward" "hip" "shoulder" "elbow" 40 120 80 120
    "shoulder" "elbow" "wrist" 0 180 140 180 false false.

(** [stick_switch], EX14, with its [diff_size]. *)
Definition stick_switch : TwoAngles :=
  mkTwoAngles "stick_switch" "shoulder" "elbow" "wrist" 0 180 140 180
    "wrist" "hip" "hip" 95 140 35 70 true true.

(** [ball_open_arms_and_forward], EX4. *)
Definition ball_open_arms_and_forward : ThreeAngles :=
  mkThreeAngles
    (mkTwoAngles "ball_open_arms_and_forward" "hip" "shoulder" "elbow" 40 120 80 120
       "shoulder" "elbow" "wrist" 0 180 140 180 true false)
    "elbow" "shoulder" "shoulder" 60 135 150 180.

(** [notool_right_hand_up_and_bend], EX21. *)
Definition notool_right_hand_up_and_bend : OneAngle :=
  mkOneAngle "notool_right_hand_up_and_bend" "hip" "shoulder" "wrist"
    120 160 0 180 "right".


(** ** Scores and the sheet of the full protocol *)

Module Patient_Calibration.

(** [min(a, b)] of Python: [b] when [b < a], else [a]. *)
Definition py_min (a b : float) : float := if flt b a then b else a.

(** [np.mean] of a list that is not empty. *)
Definition np_mean (values : list float) : float :=
  fdiv (fold_left fadd values (Fin 0%Q))
       (Fin (inject_Z (Z.of_nat (length values)))).

(** The score of one measurement: line 446. *)
Definition score_of (patient_max normal : float) : float :=
  py_min (Fin 100%Q) (fmul (fdiv patient_max normal) (Fin 100%Q)).

(** [calculate_rom_score] *)
Definition calculate_rom_score (rom_data : gmap string float) : float :=
  let scores :=
    omap (fun m => (fun patient_max => score_of patient_max (normal_max m))
                     <$> rom_data !! (name m +:+ "_Max"))
         calibration_measurements in
  match scores with
  | [] => Fin 0%Q
  | _ => np_mean scores
  end.

Definition asymmetry_pairs : list (string * string) :=
  [ ("R_Shoulder_Hip_Elbow", "L_Shoulder_Hip_Elbow");
    ("R_Elbow", "L_Elbow");
    ("R_Wrist_Shoulder_Hip", "L_Wrist_Shoulder_Hip") ].

(** Lines 463-466: the difference of one pair, when both sides are there
    and positive. *)
Definition pair_asymmetry (rom_data : gmap string float) (pair : string * string)
  : option float :=
  let r_max := default (Fin 0%Q) (rom_data !! (pair.1 +:+ "_Max")) in
  let l_max := default (Fin 0%Q) (rom_data !! (pair.2 +:+ "_Max")) in
  if fgt r_max (Fin 0%Q) && fgt l_max (Fin 0%Q)
  then Some (fabs (fsub r_max l_max))
  else None.

(** [calculate_asymmetry] *)
Definition calculate_asymmetry (rom_data : gmap string float) : float :=
  match omap (pair_asymmetry rom_data) asymmetry_pairs with
  | [] => Fin 0%Q
  | asymmetries => np_mean asymmetries
  end.

(** A cell of the sheet [Calibration_Data]. *)
Inductive Cell : Type :=
| Number (v : float)
| Text (t : string).

(** A row below the header; [Patient_ID] is the text [astype(str)] gives. *)
Record CalRow : Type := mkCalRow {
  Patient_ID : string;
  Calibration_Date : string;
  Calibration_Time : string;
  measured_values : list float;
  Overall_ROM_Score : float;
  Asymmetry_Score : float;
  Notes : string
}.

(** The header [create_excel_file] writes. *)
Definition headers : list string :=
  ["Patient_ID"; "Calibration_Date"; "Calibration_Time"]
  ++ flat_map (fun m => [name m +:+ "_Max"; name m +:+ "_Min"])
       calibration_measurements
  ++ ["Overall_ROM_Score"; "Asymmetry_Score"; "Notes"].

Definition cells (r : CalRow) : list Cell :=
  [Text (Patient_ID r); Text (Calibration_Date r); Text (Calibration_Time r)]
  ++ (Number <$> measured_values r)
  ++ [Number (Overall_ROM_Score r); Number (Asymmetry_Score r); Text (Notes r)].

(** [patient_data.iloc[0].to_dict()] *)
Definition to_dict (r : CalRow) : gmap string Cell :=
  list_to_map (zip headers (cells r)).

(** Lines 392-406: the cells written into the row. *)
Definition row_of (patient_id date time : string) (rom_data : gmap string float)
    (overall_score asymmetry_score : float) : CalRow :=
  mkCalRow patient_id date time
    (flat_map (fun m =>
                 [ default (normal_max m) (rom_data !! (name m +:+ "_Max"));
                   default (normal_min m) (rom_data !! (name m +:+ "_Min")) ])
              calibration_measurements)
    overall_score asymmetry_score "Initial calibration".

(** [save_to_excel] on the rows of an existing sheet: the first row of the
    patient is written over, or a row is added below the last one. *)
Definition save_to_excel (patient_id date time : string)
    (rom_data : gmap string float) (overall_score asymmetry_score : float)
    (sheet : list CalRow) : list CalRow :=
  let row := row_of patient_id date time rom_data overall_score asymmetry_score in
  match list_find (fun r => Patient_ID r = patient_id) sheet with
  | Some (i, _) => <[i := row]> sheet
  | None => sheet ++ [row]
  end.

(** [load_from_excel] *)
Definition load_from_excel (patient_id : string) (sheet : list CalRow)
  : option (gmap string Cell) :=
  match list_find (fun r => Patient_ID r = patient_id) sheet with
  | Some (_, r) => Some (to_dict r)
  | None => None
  end.

End Patient_Calibration.

(** ** More statements' vocabulary and inputs *)

(** A frame step that leaves the phase and the counter alone, goes back to
    [DOWN], or counts one repetition from [DOWN]. *)
Definition counts_by_transitions {F : Type}
    (frame_step : F -> Local -> Settings -> CamM (Local * Settings)) : Prop :=
  forall (joints : F) (l l' : Local) (s s' : Settings) (cam cam' : Camera),
    frame_step joints l s cam = (Ok (l', s'), cam') ->
    (l' = l /\ s' = s)
    \/ (flag l = true /\ l' = {| flag := false; counter := counter l |} /\ s' = s)
    \/ (flag l = false /\ (l', s') = count_repetition l s).

(** No tick of the script carries a write of [s.req_exercise]. *)
Definition request_kept {F : Type} (ticks : list (Tick F)) : Prop :=
  Forall (fun t => Forall (fun r => match r with
                                    | SetReqExercise _ => False
                                    | _ => True
                                    end) (requests t)) ticks.

(** [n] calls of [calc_angle_3d] on the same joints and slot. *)
Fixpoint repeat_calc_angle_3d {np : NumPy} (n : nat) (cam : Camera)
    (j1 j2 j3 : Joint) (slot : string) : Camera :=
  match n with
  | O => cam
  | S n => repeat_calc_angle_3d n (calc_angle_3d cam j1 j2 j3 slot).2 j1 j2 j3 slot
  end.

(** A stand-in for [float] on the texts used below: whole numbers in
    decimal digits with an optional minus sign; everything else is
    refused, which Python does not. *)
Fixpoint decimal_digits (text : string) (acc : Z) : option Z :=
  match text with
  | EmptyString => Some acc
  | String c rest =>
      let n := Ascii.nat_of_ascii c in
      if (48 <=? n)%nat && (n <=? 57)%nat
      then decimal_digits rest (10 * acc + Z.of_nat (n - 48))
      else None
  end.

Definition whole_number (text : string) : option float :=
  match text with
  | EmptyString => None
  | String "-" EmptyString => None
  | String "-" rest => (fun n => Fin (inject_Z (- n))) <$> decimal_digits rest 0
  | _ => (fun n => Fin (inject_Z n)) <$> decimal_digits text 0
  end.


(** What a run that started with the counter at [c0] and the settings [s0]
    has counted when it ends. *)
Definition counted_from (exercise : string) (c0 : Z) (s0 : Settings)
    (o : Outcome) : Prop :=
  match o with
  | Returned c s' _ =>
      (c0 <= c <= rep s0)%Z /\ rep s' = rep s0
      /\ number_of_repetitions_in_training s'
         = (number_of_repetitions_in_training s0 + (c - c0))%Z
      /\ patient_repetitions_counting_in_exercise s'
         = (patient_repetitions_counting_in_exercise s0 + (c - c0))%Z
      /\ ex_list s' !! exercise = Some c
      /\ ((c < rep s0)%Z -> success_exercise s' = success_exercise s0)
  | Running _ l' s' _ =>
      (c0 <= counter l' <= rep s0)%Z /\ rep s' = rep s0
      /\ number_of_repetitions_in_training s'
         = (number_of_repetitions_in_training s0 + (counter l' - c0))%Z
      /\ patient_repetitions_counting_in_exercise s'
         = (patient_repetitions_counting_in_exercise s0 + (counter l' - c0))%Z
      /\ success_exercise s' = success_exercise s0
  | Crashed _ s' _ => rep s' = rep s0 /\ success_exercise s' = success_exercise s0
  end.

(** The angle [calc_angle_3d] computes for three keys of a frame, before
    smoothing. *)
Definition raw_of {np : NumPy} (joints : Skeleton) (k1 k2 k3 : string)
  : option float :=
  match joints !! k1, joints !! k2, joints !! k3 with
  | Some j1, Some j2, Some j3 => Some (raw_angle_3d j1 j2 j3)
  | _, _, _ => None
  end.

(** An entry of four fields with a field that is no number. *)
Definition bad_entry (py_float : string -> option float) (j : list string) : Prop :=
  exists k tx ty tz, j = [k; tx; ty; tz]
    /\ (py_float tx = None \/ py_float ty = None \/ py_float tz = None).

(** An entry of four fields named [k], and the joint made of it. *)
Definition entry_gives (py_float : string -> option float) (j : list string)
    (k : string) (joint : Joint) : Prop :=
  exists tx ty tz px py pz, j = [k; tx; ty; tz]
    /\ py_float tx = Some px /\ py_float ty = Some py /\ py_float tz = Some pz
    /\ joint = new_joint k px py (fmul pz (Fin 100%Q)).

(** The state at the start of a pass: the target is not reached, or the
    loop has just started in the phase [UP]. *)
Definition below_target (l : Local) (s : Settings) : Prop :=
  (counter l < rep s)%Z \/ (counter l = rep s /\ flag l = true).

(** An exercise method of [RealsenseNew] run over a script of ticks. *)
Definition Method : Type := list (Tick Skeleton) -> Settings -> Camera -> Outcome.

(** The four tracking methods, each with the name it compares
    [s.req_exercise] with. *)
Inductive exercise_method {np : NumPy} : string -> Method -> Prop :=
| method_two_angles (p : TwoAngles) :
    exercise_method (exercise_name p) (exercise_two_angles_3d p)
| method_axis_check (p : TwoAngles) (diff_size : Q) :
    exercise_method (exercise_name p)
      (exercise_two_angles_3d_with_axis_check p diff_size)
| method_three_angles (p : ThreeAngles) :
    exercise_method (exercise_name (first_two p)) (exercise_three_angles_3d p)
| method_by_sides (p : OneAngle) :
    exercise_method (one_name p) (exercise_one_angle_3d_by_sides p).

(** [s.rep = n], as the training sets it before an exercise. *)
Definition set_rep (n : Z) (s : Settings) : Settings :=
  mkSettings (req_exercise s) (stop_requested s) (did_training_paused s) n
    (success_exercise s) (number_of_repetitions_in_training s)
    (patient_repetitions_counting_in_exercise s) (ex_list s)
    (calibration_mode s) (calibration_ranges s) (patient_calibrated s)
    (patient_rom s).

(** The two keys [run_calibration] writes for a measurement. *)
Definition rom_keys (m : Measurement) : list string :=
  [name m +:+ "_Max"; name m +:+ "_Min"].

(** A value below a bound: a number up to it, or minus infinity. *)
Definition at_most (bound : Q) (v : float) : Prop :=
  match v with
  | Fin q => (q <= bound)%Q
  | NInf => True
  | _ => False
  end.

(** A number that is not negative. *)
Definition not_negative (v : float) : Prop :=
  match v with
  | Fin q => (0 <= q)%Q
  | _ => False
  end.

(** Every slot filled in [cam] is filled in [cam'], and the largest jump is
    the same. *)
Definition slots_kept (cam cam' : Camera) : Prop :=
  max_angle_jump cam' = max_angle_jump cam
  /\ forall k, is_Some (previous_angles cam !! k) ->
               is_Some (previous_angles cam' !! k).

(** Code on the camera object that empties no slot. *)
Definition keeps_slots {A : Type} (m : CamM A) : Prop :=
  forall cam r cam', m cam = (r, cam') -> slots_kept cam cam'.

(** The camera object a run ends with. *)
Definition outcome_camera (o : Outcome) : Camera :=
  match o with
  | Returned _ _ cam | Crashed _ _ cam | Running _ _ _ cam => cam
  end.

(** No tick of the script carries a request to pause the training. *)
Definition pause_free {F : Type} (ticks : list (Tick F)) : Prop :=
  Forall (fun t => Forall (fun r => r <> SetTrainingPaused true) (requests t)) ticks.

(** [arms_side] with the left shoulder 300 to the side of the right one. *)
Definition shoulders_apart : Skeleton :=
  <["L_shoulder" := joint_at "L_shoulder" 300 0 0]> arms_side.

(** A world in which the camera sees [arms_side] during the first
    measurement and nothing afterwards. *)
Definition first_measurement_seen : World :=
  mkWorld 0 (fun _ => false)
    (repeat (mkFrame 0 (Some arms_side)) 80 ++ repeat (mkFrame 0 None) 600)
    Camera_init.

(** * Properties *)

(** ** Numbers *)

Section Numbers.
Local Open Scope Q_scope.

Lemma Qlt_bool_iff (a b : Q) : Qlt_bool a b = true <-> a < b.
Proof.
  unfold Qlt_bool. rewrite negb_true_iff. split.
  - intros H. apply Qnot_le_lt. intros Hle. apply Qle_bool_iff in Hle. congruence.
  - intros H. destruct (Qle_bool b a) eqn:E; [|reflexivity].
    apply Qle_bool_iff in E. lra.
Qed.

Lemma Qlt_bool_false_iff (a b : Q) : Qlt_bool a b = false <-> b <= a.
Proof. unfold Qlt_bool. rewrite negb_false_iff. apply Qle_bool_iff. Qed.

(** The rounded value is within one half, and a tie goes to an even
    number. *)
Lemma round_half_even_spec (q : Q) :
  inject_Z (round_half_even q) - (1 # 2) <= q <= inject_Z (round_half_even q) + (1 # 2)
  /\ (q == inject_Z (round_half_even q) - (1 # 2)
      \/ q == inject_Z (round_half_even q) + (1 # 2) ->
      Z.even (round_half_even q) = true).
Proof.
  pose proof (Qfloor_le q) as Hlo. pose proof (Qlt_floor q) as Hhi.
  rewrite inject_Z_plus in Hhi. change (inject_Z 1) with 1 in Hhi.
  unfold round_half_even.
  destruct (Qlt_bool (q - inject_Z (Qfloor q)) (1 # 2)) eqn:E1.
  { apply Qlt_bool_iff in E1. split; [lra | intros [H | H]; lra]. }
  apply Qlt_bool_false_iff in E1.
  destruct (Qlt_bool (1 # 2) (q - inject_Z (Qfloor q))) eqn:E2.
  { apply Qlt_bool_iff in E2. rewrite inject_Z_plus. change (inject_Z 1) with 1.
    split; [lra | intros [H | H]; lra]. }
  apply Qlt_bool_false_iff in E2.
  destruct (Z.even (Qfloor q)) eqn:E3.
  { split; [lra | intros _; exact E3]. }
  rewrite inject_Z_plus. change (inject_Z 1) with 1.
  split; [lra | intros _].
  rewrite Z.even_add, E3. reflexivity.
Qed.

Lemma Qround2_inject (q : Q) :
  Qround2 q == inject_Z (round_half_even (q * 100)) * (1 # 100).
Proof. unfold Qround2. unfold Qeq, inject_Z, Qmult. simpl. lia. Qed.

(** Rounding to two decimals moves a number by at most 0.005. *)
Lemma Qround2_close (q : Q) : Qabs (Qround2 q - q) <= 1 # 200.
Proof.
  destruct (round_half_even_spec (q * 100)) as [[H1 H2] _].
  rewrite Qround2_inject. apply Qabs_Qle_condition. split; lra.
Qed.

(** Two numbers at most 10 apart are rounded to numbers at most 10 apart:
    were the rounded values 10.01 apart, both would be ties, rounded to even
    hundredths, an even number of hundredths apart. *)
Lemma Qround2_jump (a P : Q) :
  Qabs (a - P) <= 10 -> Qabs (Qround2 a - Qround2 P) <= 10.
Proof.
  intros H. apply Qabs_Qle_condition in H. destruct H as [Hl Hu].
  destruct (round_half_even_spec (a * 100)) as [[A1 A2] A3].
  destruct (round_half_even_spec (P * 100)) as [[P1 P2] P3].
  rewrite !Qround2_inject.
  set (m := round_half_even (a * 100)) in *.
  set (n := round_half_even (P * 100)) in *.
  assert (Hz : (-1000 <= m - n <= 1000)%Z).
  { assert (Hq : inject_Z (-1001) <= inject_Z (m - n) <= inject_Z 1001).
    { unfold Z.sub. rewrite inject_Z_plus, inject_Z_opp.
      change (inject_Z 1001) with 1001. change (inject_Z (-1001)) with (-1001).
      split; lra. }
    destruct Hq as [Hq1 Hq2]. rewrite <- Zle_Qle in Hq1, Hq2.
    destruct (Z.eq_dec (m - n)%Z 1001%Z) as [E | E].
    { exfalso. assert (Em : inject_Z m == inject_Z n + 1001).
      { replace m with (n + 1001)%Z by lia. rewrite inject_Z_plus. reflexivity. }
      assert (Hm : Z.even m = true) by (apply A3; left; lra).
      assert (Hn : Z.even n = true) by (apply P3; right; lra).
      replace m with (n + 1001)%Z in Hm by lia.
      rewrite Z.even_add, Hn in Hm. discriminate. }
    destruct (Z.eq_dec (m - n)%Z (-1001)%Z) as [E' | E'].
    { exfalso. assert (Em : inject_Z m == inject_Z n - 1001).
      { replace m with (n + -1001)%Z by lia. rewrite inject_Z_plus. reflexivity. }
      assert (Hm : Z.even m = true) by (apply A3; right; lra).
      assert (Hn : Z.even n = true) by (apply P3; left; lra).
      replace m with (n + -1001)%Z in Hm by lia.
      rewrite Z.even_add, Hn in Hm. discriminate. }
    lia. }
  destruct Hz as [Hz1 Hz2]. rewrite Zle_Qle in Hz1, Hz2.
  unfold Z.sub in Hz1, Hz2. rewrite inject_Z_plus, inject_Z_opp in Hz1, Hz2.
  change (inject_Z 1000) with 1000 in Hz2.
  change (inject_Z (-1000)) with (-1000) in Hz1.
  apply Qabs_Qle_condition. split; lra.
Qed.

Lemma fge_not_flt (a b : float) : fge a b = true -> flt a b = false.
Proof.
  unfold fge. destruct a as [u | | |], b as [v | | |]; simpl; try congruence.
  unfold Qlt_bool. intros ->. reflexivity.
Qed.

(** Values that are not finite stay so under the arithmetic. *)
Lemma fadd_nonfinite_l (a b : float) : nonfinite a -> nonfinite (fadd a b).
Proof. unfold nonfinite. destruct a, b; simpl; congruence. Qed.

Lemma fadd_nonfinite_r (a b : float) : nonfinite b -> nonfinite (fadd a b).
Proof. unfold nonfinite. destruct a, b; simpl; congruence. Qed.

Lemma fneg_nonfinite (a : float) : nonfinite a -> nonfinite (fneg a).
Proof. unfold nonfinite. destruct a; simpl; congruence. Qed.

Lemma fsub_nonfinite_l (a b : float) : nonfinite a -> nonfinite (fsub a b).
Proof. intros H. apply fadd_nonfinite_l, H. Qed.

Lemma fsub_nonfinite_r (a b : float) : nonfinite b -> nonfinite (fsub a b).
Proof. intros H. apply fadd_nonfinite_r, fneg_nonfinite, H. Qed.

Lemma signed_inf_nonfinite (b : bool) : nonfinite (signed_inf b).
Proof. destruct b; reflexivity. Qed.

Lemma fmul_nonfinite_l (a b : float) : nonfinite a -> nonfinite (fmul a b).
Proof.
  unfold nonfinite. destruct a, b; simpl; try congruence;
    intros _; destruct (Qeq_bool _ _); try reflexivity; apply signed_inf_nonfinite.
Qed.

Lemma fmul_nonfinite_r (a b : float) : nonfinite b -> nonfinite (fmul a b).
Proof.
  unfold nonfinite. destruct a, b; simpl; try congruence;
    intros _; destruct (Qeq_bool _ _); try reflexivity; apply signed_inf_nonfinite.
Qed.

Lemma fdiv_nonfinite (a b : float) : nonfinite a -> nonfinite b -> fdiv a b = NaN.
Proof. unfold nonfinite. destruct a, b; simpl; congruence. Qed.

Lemma fdiv_zero_zero (a b : Q) : a == 0 -> b == 0 -> fdiv (Fin a) (Fin b) = NaN.
Proof.
  intros Ha Hb. simpl.
  apply Qeq_bool_iff in Ha. apply Qeq_bool_iff in Hb. rewrite Hb, Ha. reflexivity.
Qed.

Lemma fmul_zero_l (r : Q) (b : float) :
  r == 0 -> fmul (Fin r) b = NaN \/ exists p, fmul (Fin r) b = Fin p /\ p == 0.
Proof.
  intros Hr. destruct b as [v | | |]; simpl.
  - right. exists (r * v). split; [reflexivity | rewrite Hr; ring].
  - apply Qeq_bool_iff in Hr. rewrite Hr. left; reflexivity.
  - apply Qeq_bool_iff in Hr. rewrite Hr. left; reflexivity.
  - left; reflexivity.
Qed.

Lemma fmul_zero_r (r : Q) (b : float) :
  r == 0 -> fmul b (Fin r) = NaN \/ exists p, fmul b (Fin r) = Fin p /\ p == 0.
Proof.
  intros Hr. destruct b as [v | | |]; simpl.
  - right. exists (v * r). split; [reflexivity | rewrite Hr; ring].
  - apply Qeq_bool_iff in Hr. rewrite Hr. left; reflexivity.
  - apply Qeq_bool_iff in Hr. rewrite Hr. left; reflexivity.
  - left; reflexivity.
Qed.

End Numbers.

(** ** The angle calculator *)

Section AngleFacts.
Context {np : NumPy}.
Local Open Scope Q_scope.

Lemma fsqrt_zero (q : Q) : q == 0 -> exists r, fsqrt (Fin q) = Fin r /\ r == 0.
Proof.
  intros Hq. exists (np_sqrt q). split; [|apply np_sqrt_0; exact Hq].
  simpl. unfold Qnegative.
  assert (E : Qlt_bool q 0 = false) by (apply Qlt_bool_false_iff; lra).
  rewrite E. reflexivity.
Qed.

Lemma fsqrt_nonfinite (a : float) : nonfinite a -> nonfinite (fsqrt a).
Proof. unfold nonfinite. destruct a; simpl; congruence. Qed.

(** The cosine of a triple with an arm of zero length is [0/0]. *)
Lemma zero_length_cosine (d : Q) (n1 n2 : float) :
  d == 0 ->
  (exists r, n1 = Fin r /\ r == 0) \/ (exists r, n2 = Fin r /\ r == 0) ->
  fdiv (Fin d) (fmul n1 n2) = NaN.
Proof.
  intros Hd [[r [-> Hr]] | [r [-> Hr]]].
  - destruct (fmul_zero_l r n2 Hr) as [-> | [p [-> Hp]]].
    + reflexivity.
    + apply fdiv_zero_zero; assumption.
  - destruct (fmul_zero_r r n1 Hr) as [-> | [p [-> Hp]]].
    + reflexivity.
    + apply fdiv_zero_zero; assumption.
Qed.

Lemma raw_angle_3d_joint1_at_vertex (j1 j2 j3 : Joint) (a1 a2 a3 c1 c2 c3 : Q) :
  position j1 = (Fin a1, Fin a2, Fin a3) ->
  position j2 = (Fin a1, Fin a2, Fin a3) ->
  position j3 = (Fin c1, Fin c2, Fin c3) ->
  raw_angle_3d j1 j2 j3 = NaN.
Proof.
  intros H1 H2 H3. unfold raw_angle_3d. rewrite H1, H2, H3.
  cbn [vsub dot norm fsub fneg fadd fmul].
  rewrite zero_length_cosine; [reflexivity | ring |].
  left. apply fsqrt_zero. ring.
Qed.

Lemma raw_angle_3d_joint3_at_vertex (j1 j2 j3 : Joint) (a1 a2 a3 c1 c2 c3 : Q) :
  position j1 = (Fin a1, Fin a2, Fin a3) ->
  position j2 = (Fin c1, Fin c2, Fin c3) ->
  position j3 = (Fin c1, Fin c2, Fin c3) ->
  raw_angle_3d j1 j2 j3 = NaN.
Proof.
  intros H1 H2 H3. unfold raw_angle_3d. rewrite H1, H2, H3.
  cbn [vsub dot norm fsub fneg fadd fmul].
  rewrite zero_length_cosine; [reflexivity | ring |].
  right. apply fsqrt_zero. ring.
Qed.

Lemma dot_nonfinite_l (a b : vec) : nonfinite_vec a -> nonfinite (dot a b).
Proof.
  destruct a as [[a1 a2] a3], b as [[b1 b2] b3]. unfold nonfinite_vec. simpl.
  intros [H | [H | H]].
  - apply fadd_nonfinite_l, fadd_nonfinite_l, fmul_nonfinite_l, H.
  - apply fadd_nonfinite_l, fadd_nonfinite_r, fmul_nonfinite_l, H.
  - apply fadd_nonfinite_r, fmul_nonfinite_l, H.
Qed.

Lemma dot_nonfinite_r (a b : vec) : nonfinite_vec b -> nonfinite (dot a b).
Proof.
  destruct a as [[a1 a2] a3], b as [[b1 b2] b3]. unfold nonfinite_vec. simpl.
  intros [H | [H | H]].
  - apply fadd_nonfinite_l, fadd_nonfinite_l, fmul_nonfinite_r, H.
  - apply fadd_nonfinite_l, fadd_nonfinite_r, fmul_nonfinite_r, H.
  - apply fadd_nonfinite_r, fmul_nonfinite_r, H.
Qed.

Lemma vsub_nonfinite_l (a b : vec) : nonfinite_vec a -> nonfinite_vec (vsub a b).
Proof.
  destruct a as [[a1 a2] a3], b as [[b1 b2] b3]. unfold nonfinite_vec. simpl.
  intros [H | [H | H]]; [left | right; left | right; right];
    apply fsub_nonfinite_l, H.
Qed.

Lemma vsub_nonfinite_r (a b : vec) : nonfinite_vec b -> nonfinite_vec (vsub a b).
Proof.
  destruct a as [[a1 a2] a3], b as [[b1 b2] b3]. unfold nonfinite_vec. simpl.
  intros [H | [H | H]]; [left | right; left | right; right];
    apply fsub_nonfinite_r, H.
Qed.

Lemma raw_angle_3d_nonfinite (j1 j2 j3 : Joint) :
  nonfinite_vec (position j1) \/ nonfinite_vec (position j2)
  \/ nonfinite_vec (position j3) ->
  raw_angle_3d j1 j2 j3 = NaN.
Proof.
  intros H. unfold raw_angle_3d.
  set (ba := vsub (position j1) (position j2)).
  set (bc := vsub (position j3) (position j2)).
  assert (Hv : nonfinite_vec ba \/ nonfinite_vec bc).
  { destruct H as [H | [H | H]].
    - left. apply vsub_nonfinite_l, H.
    - left. apply vsub_nonfinite_r, H.
    - right. apply vsub_nonfinite_l, H. }
  assert (Hcos : fdiv (dot ba bc) (fmul (norm ba) (norm bc)) = NaN).
  { apply fdiv_nonfinite.
    - destruct Hv as [Hv | Hv];
        [apply dot_nonfinite_l | apply dot_nonfinite_r]; exact Hv.
    - destruct Hv as [Hv | Hv].
      + apply fmul_nonfinite_l, fsqrt_nonfinite, dot_nonfinite_l, Hv.
      + apply fmul_nonfinite_r, fsqrt_nonfinite, dot_nonfinite_l, Hv. }
  rewrite Hcos. reflexivity.
Qed.

Lemma raw_angle_3d_degenerate (j1 j2 j3 : Joint) :
  degenerate j1 j2 j3 -> raw_angle_3d j1 j2 j3 = NaN.
Proof.
  intros [(Hf1 & Hf2 & Hf3 & Heq) | H]; [|apply raw_angle_3d_nonfinite, H].
  destruct Hf1 as (a1 & a2 & a3 & Ha), Hf2 as (b1 & b2 & b3 & Hb),
    Hf3 as (c1 & c2 & c3 & Hc).
  destruct Heq as [E | E].
  - rewrite E in Ha. rewrite Ha in Hb. inversion Hb; subst.
    eapply raw_angle_3d_joint1_at_vertex; eauto. congruence.
  - rewrite E in Hc. rewrite Hc in Hb. inversion Hb; subst.
    eapply raw_angle_3d_joint3_at_vertex; eauto. congruence.
Qed.

(** [nan] passes the jump limit, whatever the slot holds. *)
Lemma smooth_and_store_nan (cam : Camera) (slot : string) :
  smooth_and_store cam NaN slot
  = Ok (NaN, set_previous_angles (<[slot := NaN]> (previous_angles cam)) cam).
Proof.
  unfold smooth_and_store, limit_angle_jump, getitem.
  destruct (previous_angles cam !! slot) as [p |] eqn:E; [|reflexivity].
  assert (Hgt : fgt (fabs (fsub NaN p)) (max_angle_jump cam) = false).
  { unfold fgt. simpl. destruct (max_angle_jump cam); reflexivity. }
  rewrite Hgt. reflexivity.
Qed.

(** No path through the [try] block raises. *)
Lemma smooth_and_store_ok (cam : Camera) (angle : float) (slot : string) :
  exists a, smooth_and_store cam angle slot
            = Ok (a, set_previous_angles (<[slot := a]> (previous_angles cam)) cam).
Proof.
  unfold smooth_and_store, limit_angle_jump, getitem.
  destruct (previous_angles cam !! slot) as [p |]; [|eexists; reflexivity].
  destruct (fgt _ _); eexists; reflexivity.
Qed.

(** What [calc_angle_3d] does to the camera: one slot is overwritten. *)
Lemma calc_angle_3d_camera (cam : Camera) (j1 j2 j3 : Joint) (slot : string) :
  exists a, calc_angle_3d cam j1 j2 j3 slot
            = (Some (round2 a),
               set_previous_angles (<[slot := a]> (previous_angles cam)) cam).
Proof.
  unfold calc_angle_3d.
  destruct (smooth_and_store_ok cam (raw_angle_3d j1 j2 j3) slot) as [a ->].
  exists a. reflexivity.
Qed.

(** The [except] branch is dead: the function never returns [None]. *)
Lemma calc_angle_3d_never_None (cam : Camera) (j1 j2 j3 : Joint) (slot : string) :
  fst (calc_angle_3d cam j1 j2 j3 slot) <> None.
Proof.
  destruct (calc_angle_3d_camera cam j1 j2 j3 slot) as [a ->]. discriminate.
Qed.

(** C3 (the code departs from the claim).  On a triple with an arm of zero
    length ([joint1] or [joint3] at the vertex) or with a coordinate that is
    not finite, [calc_angle_3d] returns the value [nan], not [None], and
    leaves [nan] in the slot as the previous angle: numpy divides [0/0]
    without raising, so the [except] branch is not taken. *)
Theorem calc_angle_3d_degenerate_returns_nan (cam : Camera)
    (joint1 joint2 joint3 : Joint) (slot : string) :
  degenerate joint1 joint2 joint3 ->
  calc_angle_3d cam joint1 joint2 joint3 slot
  = (Some NaN, set_previous_angles (<[slot := NaN]> (previous_angles cam)) cam).
Proof.
  intros H. unfold calc_angle_3d.
  rewrite (raw_angle_3d_degenerate _ _ _ H), smooth_and_store_nan. reflexivity.
Qed.

Lemma limit_angle_jump_within (cam : Camera) (slot : string) (r P J : Q) :
  previous_angles cam !! slot = Some (Fin P) ->
  max_angle_jump cam = Fin J ->
  0 <= J ->
  exists a, limit_angle_jump cam (Fin r) slot = Ok (Fin a) /\ Qabs (a - P) <= J.
Proof.
  intros Hprev HJ Hpos. unfold limit_angle_jump, getitem. rewrite Hprev, HJ.
  unfold fgt. cbn [fsub fneg fadd fabs flt fmul].
  destruct (Qlt_bool J (Qabs (r + - P))) eqn:E.
  - destruct (Qlt_bool P r); cbn [fmul fadd]; eexists; (split; [reflexivity|]);
      apply Qabs_Qle_condition; split; lra.
  - apply Qlt_bool_false_iff in E. exists r. split; [reflexivity | exact E].
Qed.

(** On a slot that holds a number, a raw angle that is a number is stored
    within the largest jump of it, and returned rounded. *)
Lemma calc_angle_3d_smoothed (cam : Camera) (j1 j2 j3 : Joint) (slot : string)
    (P J r : Q) :
  previous_angles cam !! slot = Some (Fin P) ->
  max_angle_jump cam = Fin J ->
  0 <= J ->
  raw_angle_3d j1 j2 j3 = Fin r ->
  exists a,
    calc_angle_3d cam j1 j2 j3 slot
    = (Some (Fin (Qround2 a)),
       set_previous_angles (<[slot := Fin a]> (previous_angles cam)) cam)
    /\ Qabs (a - P) <= J.
Proof.
  intros Hprev HJ Hpos Hraw.
  destruct (limit_angle_jump_within cam slot r P J Hprev HJ Hpos) as (a & Ha & Hb).
  exists a. unfold calc_angle_3d, smooth_and_store. rewrite Hraw, Hprev, Ha.
  split; [reflexivity | exact Hb].
Qed.

(** C4, as amended.  On a slot that holds the number [P], with the largest
    jump [J >= 0], and for a raw angle that is a number, the value stored in
    the slot is within [J] of [P]; the value returned is the stored one
    rounded to two decimals, hence within [J + 0.005] of [P]. *)
Theorem calc_angle_3d_jump_limited (cam : Camera) (joint1 joint2 joint3 : Joint)
    (slot : string) (P J r : Q) :
  previous_angles cam !! slot = Some (Fin P) ->
  max_angle_jump cam = Fin J ->
  0 <= J ->
  raw_angle_3d joint1 joint2 joint3 = Fin r ->
  exists a,
    calc_angle_3d cam joint1 joint2 joint3 slot
    = (Some (Fin (Qround2 a)),
       set_previous_angles (<[slot := Fin a]> (previous_angles cam)) cam)
    /\ Qabs (a - P) <= J
    /\ Qabs (Qround2 a - P) <= J + (1 # 200).
Proof.
  intros Hprev HJ Hpos Hraw.
  destruct (calc_angle_3d_smoothed cam joint1 joint2 joint3 slot P J r
              Hprev HJ Hpos Hraw) as (a & Hcalc & Hb).
  exists a. split; [exact Hcalc | split; [exact Hb|]].
  pose proof (Qround2_close a) as Hc.
  apply Qabs_Qle_condition in Hb. apply Qabs_Qle_condition in Hc.
  apply Qabs_Qle_condition. split; lra.
Qed.

End AngleFacts.

Section AngleExamples.
Local Open Scope Q_scope.

Lemma calc_angle_3d_degenerate_returns_nan_witness :
  calc_angle_3d (np := coarse_numpy) Camera_init
    straight_elbow straight_elbow straight_wrist "R_1"
  = (Some NaN,
     set_previous_angles (<["R_1" := NaN]> (previous_angles Camera_init)) Camera_init).
Proof.
  apply (calc_angle_3d_degenerate_returns_nan (np := coarse_numpy)).
  left. repeat split; try (eexists _, _, _; reflexivity). left. reflexivity.
Defined.

Lemma calc_angle_3d_jump_limited_witness :
  exists a,
    calc_angle_3d (np := coarse_numpy) (camera_with "R_1" (100006 # 1000))
      straight_shoulder straight_elbow straight_wrist "R_1"
    = (Some (Fin (Qround2 a)),
       set_previous_angles
         (<["R_1" := Fin a]> (previous_angles (camera_with "R_1" (100006 # 1000))))
         (camera_with "R_1" (100006 # 1000)))
    /\ Qabs (a - (100006 # 1000)) <= 10
    /\ Qabs (Qround2 a - (100006 # 1000)) <= 10 + (1 # 200).
Proof.
  apply (calc_angle_3d_jump_limited (np := coarse_numpy)) with (r := 1799 # 10).
  - reflexivity.
  - reflexivity.
  - discriminate.
  - vm_compute. reflexivity.
Defined.

(** C4, as stated, fails: the slot holds 100.006 and the largest jump is
    10; on a straight arm (raw angle 179.9) the stored value is 110.006 and
    the value returned is 110.01, which is 10.004 away from 100.006. *)
Lemma calc_angle_3d_returns_beyond_max_jump :
  previous_angles (camera_with "R_1" (100006 # 1000)) !! "R_1"
  = Some (Fin (100006 # 1000))
  /\ max_angle_jump (camera_with "R_1" (100006 # 1000)) = Fin 10
  /\ fst (calc_angle_3d (np := coarse_numpy) (camera_with "R_1" (100006 # 1000))
            straight_shoulder straight_elbow straight_wrist "R_1")
     = Some (Fin (11001 # 100))
  /\ ~ Qabs ((11001 # 100) - (100006 # 1000)) <= 10.
Proof.
  split; [reflexivity|]. split; [reflexivity|].
  split; [vm_compute; reflexivity|].
  intros H. vm_compute in H. apply H. reflexivity.
Qed.

End AngleExamples.

(** ** The repetition counter *)

(** A frame in which [get_skeleton_data] timed out, or in which an angle is
    [None] or [nan], moves neither the phase nor the counter. *)
Lemma decide_two_angles_None (p : TwoAngles) (a : Angles) (l : Local) (s : Settings) :
  right_angle a = None \/ left_angle a = None
  \/ right_angle2 a = None \/ left_angle2 a = None ->
  decide_two_angles p a l s = (l, s).
Proof.
  unfold decide_two_angles.
  intros [H | [H | [H | H]]]; rewrite H;
    destruct (right_angle a), (left_angle a), (right_angle2 a); reflexivity.
Qed.

Lemma between_nan (lb ub : Q) : between lb NaN ub = false.
Proof. reflexivity. Qed.

Lemma decide_two_angles_nan (p : TwoAngles) (la ra2 la2 : option float)
    (l : Local) (s : Settings) :
  decide_two_angles p (mkAngles (Some NaN) la ra2 la2) l s = (l, s).
Proof.
  unfold decide_two_angles. cbn [right_angle left_angle right_angle2 left_angle2].
  destruct la, ra2, la2; try reflexivity.
  rewrite !between_nan. cbn [andb]. destruct (left_right_differ p); reflexivity.
Qed.

Section Script.
Variable p : TwoAngles.
Variable a2 : Q.
Hypothesis Hup_lb : up_lb p = 150%Q.
Hypothesis Hup_ub : up_ub p = 180%Q.
Hypothesis Hdown_lb : down_lb p = 10%Q.
Hypothesis Hdown_ub : down_ub p = 60%Q.
Hypothesis Hup2 : between (up_lb2 p) (Fin a2) (up_ub2 p) = true.
Hypothesis Hdown2 : between (down_lb2 p) (Fin a2) (down_ub2 p) = true.
Hypothesis Hsame : left_right_differ p = false.

Lemma tracking_credited (n : nat) (s : Settings) :
  tracking p s -> tracking p (credited n s).
Proof. intros H. induction n as [|n IH]; [exact H | exact IH]. Qed.

Lemma decide_down (l : Local) (s : Settings) :
  decide_two_angles p (measured 30 a2) l s
  = if flag l then ({| flag := false; counter := counter l |}, s) else (l, s).
Proof.
  unfold decide_two_angles, measured.
  cbn [right_angle left_angle right_angle2 left_angle2].
  rewrite Hsame, Hup_lb, Hup_ub, Hdown_lb, Hdown_ub, Hup2, Hdown2.
  destruct (flag l); reflexivity.
Qed.

Lemma decide_up (l : Local) (s : Settings) :
  decide_two_angles p (measured 170 a2) l s
  = if flag l then (l, s) else count_repetition l s.
Proof.
  unfold decide_two_angles, measured.
  cbn [right_angle left_angle right_angle2 left_angle2].
  rewrite Hsame, Hup_lb, Hup_ub, Hdown_lb, Hdown_ub, Hup2, Hdown2.
  destruct (flag l); reflexivity.
Qed.

Lemma pass_quiet (a : Angles) (l : Local) (s : Settings) (cam : Camera) :
  tracking p s ->
  two_angles_pass cam_ret p (quiet a) AtTest l s cam
  = let '(l, s) := decide_two_angles p a l s in check_target l s cam.
Proof.
  intros (Hreq & Hpause & _). unfold two_angles_pass, quiet.
  cbn [requests frame apply_requests fold_left].
  rewrite Hreq, String.eqb_refl, Hpause. reflexivity.
Qed.

(** One cycle from the phase [UP]: down, then up and counted. *)
Lemma cycle_down_up (n : nat) (c : Z) (ticks : list (Tick Angles))
    (s : Settings) (cam : Camera) :
  tracking p s -> (c + 1 < 5)%Z ->
  two_angles_loop cam_ret p
    (quiet (measured 30 a2) :: quiet (measured 170 a2) :: ticks)
    AtTest {| flag := true; counter := c |} (credited n s) cam
  = two_angles_loop cam_ret p ticks AtTest {| flag := true; counter := c + 1 |}
      (credited (S n) s) cam.
Proof.
  intros Hs Hc. pose proof (tracking_credited n s Hs) as Hn.
  pose proof (tracking_credited (S n) s Hs) as HSn.
  cbn [two_angles_loop]. rewrite pass_quiet by exact Hn. rewrite decide_down.
  cbn [flag counter]. unfold check_target at 1. cbn [counter].
  destruct Hn as (_ & _ & ->).
  destruct (Z.eqb_spec c 5); [lia|].
  rewrite pass_quiet by (apply (tracking_credited n s Hs)). rewrite decide_up.
  cbn [flag]. unfold count_repetition. unfold check_target. cbn [counter].
  change (set_patient_repetitions_counting_in_exercise _ _) with (credited (S n) s).
  destruct HSn as (_ & _ & ->).
  destruct (Z.eqb_spec (c + 1) 5); [lia|]. reflexivity.
Qed.

(** The cycle that reaches the target. *)
Lemma cycle_down_up_last (n : nat) (ticks : list (Tick Angles))
    (s : Settings) (cam : Camera) :
  tracking p s ->
  two_angles_loop cam_ret p
    (quiet (measured 30 a2) :: quiet (measured 170 a2) :: ticks)
    AtTest {| flag := true; counter := 4 |} (credited n s) cam
  = Returned 5
      (leave_exercise p {| flag := true; counter := 5 |}
         (set_success_exercise true (set_req_exercise "" (credited (S n) s))))
      cam.
Proof.
  intros Hs. pose proof (tracking_credited n s Hs) as Hn.
  pose proof (tracking_credited (S n) s Hs) as HSn.
  cbn [two_angles_loop]. rewrite pass_quiet by exact Hn. rewrite decide_down.
  cbn [flag counter]. unfold check_target at 1. cbn [counter].
  destruct Hn as (_ & _ & ->). cbn [Z.eqb Pos.eqb].
  rewrite pass_quiet by (apply (tracking_credited n s Hs)). rewrite decide_up.
  cbn [flag]. unfold count_repetition. unfold check_target. cbn [counter].
  change (set_patient_repetitions_counting_in_exercise _ _) with (credited (S n) s).
  destruct HSn as (_ & _ & ->). reflexivity.
Qed.

Lemma up_frame_in_phase_up (c : Z) (ticks : list (Tick Angles))
    (s : Settings) (cam : Camera) :
  tracking p s -> (c <> 5)%Z ->
  two_angles_loop cam_ret p (quiet (measured 170 a2) :: ticks)
    AtTest {| flag := true; counter := c |} s cam
  = two_angles_loop cam_ret p ticks AtTest {| flag := true; counter := c |} s cam.
Proof.
  intros Hs Hc. cbn [two_angles_loop]. rewrite pass_quiet by exact Hs.
  rewrite decide_up. cbn [flag]. unfold check_target. cbn [counter].
  destruct Hs as (_ & _ & ->).
  destruct (Z.eqb_spec c 5); [contradiction | reflexivity].
Qed.

Lemma down_frame_in_phase_up (c : Z) (ticks : list (Tick Angles))
    (s : Settings) (cam : Camera) :
  tracking p s -> (c <> 5)%Z ->
  two_angles_loop cam_ret p (quiet (measured 30 a2) :: ticks)
    AtTest {| flag := true; counter := c |} s cam
  = two_angles_loop cam_ret p ticks AtTest {| flag := false; counter := c |} s cam.
Proof.
  intros Hs Hc. cbn [two_angles_loop]. rewrite pass_quiet by exact Hs.
  rewrite decide_down. cbn [flag counter]. unfold check_target. cbn [counter].
  destruct Hs as (_ & _ & ->).
  destruct (Z.eqb_spec c 5); [contradiction | reflexivity].
Qed.


End Script.



Section MissingJoint.
Context {np : NumPy}.

Lemma angle_of_cases (sk : Skeleton) (k1 k2 k3 slot : string) (cam : Camera) :
  (is_Some (sk !! k1) /\ is_Some (sk !! k2) /\ is_Some (sk !! k3)
   /\ exists a cam', angle_of sk k1 k2 k3 slot cam = (Ok a, cam'))
  \/ (exists k, (k = k1 \/ k = k2 \/ k = k3) /\ sk !! k = None
                /\ angle_of sk k1 k2 k3 slot cam = (Raise (KeyError k), cam)).
Proof.
  unfold angle_of, cam_bind, lookup_joint, getitem.
  destruct (sk !! k1) as [j1|] eqn:E1; [|right; exists k1; auto].
  destruct (sk !! k2) as [j2|] eqn:E2; [|right; exists k2; auto].
  destruct (sk !! k3) as [j3|] eqn:E3; [|right; exists k3; auto].
  left. repeat split; eauto.
  destruct (calc_angle_3d cam j1 j2 j3 slot) as [a cam']. eauto.
Qed.

(** The next call of [angle_of] in the goal: either a key is absent, which
    ends the proof, or the three joints are there. *)
Ltac next_angle sk slot cam P1 P2 P3 cam' :=
  match goal with
  | |- context [angle_of sk ?k1 ?k2 ?k3 slot cam] =>
      let a := fresh "a" in
      let k' := fresh "k" in
      let Hk' := fresh "Hk" in
      destruct (angle_of_cases sk k1 k2 k3 slot cam)
        as [(P1 & P2 & P3 & a & cam' & ->) | (k' & _ & Hk' & ->)]; [|eauto]
  end.

Lemma measure_two_angles_missing (p : TwoAngles) (sk : Skeleton) (cam : Camera)
    (k : string) :
  k ∈ required_joints p -> sk !! k = None ->
  exists k' cam', sk !! k' = None
    /\ measure_two_angles p sk cam = (Raise (KeyError k'), cam').
Proof.
  intros Hin Hk. unfold measure_two_angles, cam_bind.
  next_angle sk "R_1" cam P1 P2 P3 c1.
  next_angle sk "L_1" c1 P4 P5 P6 c2.
  unfold required_joints in Hin.
  destruct (use_alternate_angles p);
    next_angle sk "R_2" c2 P7 P8 P9 c3;
    next_angle sk "L_2" c3 P10 P11 P12 c4;
    exfalso; rewrite !elem_of_cons in Hin; rewrite elem_of_nil in Hin;
    assert (is_Some (sk !! k)) as [j Hj] by (intuition (subst; assumption));
    congruence.
Qed.

(** C2 (the code departs from the claim).  When the frame of a tick lacks
    one of the joints the exercise looks up, the dictionary access raises
    [KeyError]; [exercise_two_angles_3d] has no handler, so the run ends
    there with the exception, whatever ticks follow. *)
Theorem exercise_two_angles_3d_missing_joint_crashes (p : TwoAngles)
    (sk : Skeleton) (ticks : list (Tick Skeleton)) (s : Settings) (cam : Camera)
    (k : string) :
  req_exercise s = exercise_name p ->
  did_training_paused s = false ->
  k ∈ required_joints p -> sk !! k = None ->
  exists k' cam', sk !! k' = None
    /\ exercise_two_angles_3d p (quiet sk :: ticks) s cam
       = Crashed (KeyError k') s cam'.
Proof.
  intros Hreq Hpause Hin Hk.
  destruct (measure_two_angles_missing p sk cam k Hin Hk) as (k' & cam' & Hk' & Hm).
  exists k', cam'. split; [exact Hk'|].
  unfold exercise_two_angles_3d. cbn [two_angles_loop].
  unfold two_angles_pass, quiet. cbn [requests frame apply_requests fold_left].
  rewrite Hreq, String.eqb_refl, Hpause. cbn [negb andb two_angles_body].
  rewrite Hm. reflexivity.
Qed.

End MissingJoint.

Lemma exercise_two_angles_3d_missing_joint_crashes_witness :
  exists k' cam', arms_side_no_R_wrist !! k' = None
    /\ exercise_two_angles_3d (np := coarse_numpy) weights_abduction
         (quiet arms_side_no_R_wrist :: repeat (quiet arms_side) 3)
         (requested "weights_abduction") Camera_init
       = Crashed (KeyError k') (requested "weights_abduction") cam'.
Proof.
  apply (exercise_two_angles_3d_missing_joint_crashes (np := coarse_numpy))
    with (k := "R_wrist").
  - reflexivity.
  - reflexivity.
  - vm_compute. set_solver.
  - reflexivity.
Defined.

(** The key reported on that frame is the missing one. *)
Lemma exercise_two_angles_3d_without_R_wrist :
  exists cam',
    exercise_two_angles_3d (np := coarse_numpy) weights_abduction
      (quiet arms_side_no_R_wrist :: repeat (quiet arms_side) 3)
      (requested "weights_abduction") Camera_init
    = Crashed (KeyError "R_wrist") (requested "weights_abduction") cam'.
Proof. eexists. vm_compute. reflexivity. Qed.

(** ** The adaptive range *)

Lemma map_is_empty_lookup {A : Type} (m : gmap string A) (k : string) (v : A) :
  m !! k = Some v -> map_is_empty m = false.
Proof.
  intros H. unfold map_is_empty.
  destruct (map_to_list m) as [|e l] eqn:E; [|reflexivity].
  apply map_to_list_empty_iff in E. subst m. rewrite lookup_empty in H. discriminate.
Qed.

Lemma map_is_empty_empty {A : Type} : map_is_empty (∅ : gmap string A) = true.
Proof. unfold map_is_empty. rewrite map_to_list_empty. reflexivity. Qed.

(** C5.  Without a calibration, or when the record lacks the [_Max] or the
    [_Min] entry of the key, the defaults come back unchanged.  Otherwise,
    a patient maximum below the default maximum gives the patient minimum
    and the patient minimum plus 0.9 times the patient's span, and a
    patient maximum at or above the default maximum gives the defaults. *)
Theorem get_adaptive_range_for_joint_cases (s : Settings) (key : string)
    (default_min default_max : float) :
  (patient_calibrated s = false \/ patient_rom s = ∅
   \/ patient_rom s !! (key +:+ "_Max") = None
   \/ patient_rom s !! (key +:+ "_Min") = None ->
   get_adaptive_range_for_joint s key default_min default_max
   = (default_min, default_max))
  /\ (forall patient_max patient_min : float,
        patient_calibrated s = true ->
        patient_rom s !! (key +:+ "_Max") = Some patient_max ->
        patient_rom s !! (key +:+ "_Min") = Some patient_min ->
        (flt patient_max default_max = true ->
         get_adaptive_range_for_joint s key default_min default_max
         = (patient_min,
            fadd patient_min (fmul (fsub patient_max patient_min) (Fin (9 # 10)))))
        /\ (fge patient_max default_max = true ->
            get_adaptive_range_for_joint s key default_min default_max
            = (default_min, default_max))).
Proof.
  unfold get_adaptive_range_for_joint. split.
  - intros [H | [H | [H | H]]].
    + rewrite H. reflexivity.
    + rewrite H, map_is_empty_empty. destruct (patient_calibrated s); reflexivity.
    + rewrite H. destruct (patient_calibrated s), (map_is_empty (patient_rom s));
        reflexivity.
    + rewrite H. destruct (patient_calibrated s), (map_is_empty (patient_rom s));
        try reflexivity.
      destruct (patient_rom s !! (key +:+ "_Max")); reflexivity.
  - intros patient_max patient_min Hcal Hmax Hmin.
    rewrite Hcal, (map_is_empty_lookup _ _ _ Hmax), Hmax, Hmin. cbn [negb]. split.
    + intros ->. reflexivity.
    + intros H. rewrite (fge_not_flt _ _ H). reflexivity.
Qed.

Lemma get_adaptive_range_for_joint_cases_witness :
  get_adaptive_range_for_joint Settings_init "R_Elbow" (Fin 10%Q) (Fin 150%Q)
  = (Fin 10%Q, Fin 150%Q)
  /\ get_adaptive_range_for_joint (calibrated_elbow 120) "R_Elbow"
       (Fin 10%Q) (Fin 150%Q)
     = (Fin 20%Q, fadd (Fin 20%Q) (fmul (fsub (Fin 120%Q) (Fin 20%Q)) (Fin (9 # 10))))
  /\ get_adaptive_range_for_joint (calibrated_elbow 160) "R_Elbow"
       (Fin 10%Q) (Fin 150%Q)
     = (Fin 10%Q, Fin 150%Q).
Proof.
  destruct (get_adaptive_range_for_joint_cases Settings_init "R_Elbow"
              (Fin 10%Q) (Fin 150%Q)) as [H0 _].
  destruct (get_adaptive_range_for_joint_cases (calibrated_elbow 120) "R_Elbow"
              (Fin 10%Q) (Fin 150%Q)) as [_ H1].
  destruct (get_adaptive_range_for_joint_cases (calibrated_elbow 160) "R_Elbow"
              (Fin 10%Q) (Fin 150%Q)) as [_ H2].
  split; [|split].
  - apply H0. left. reflexivity.
  - apply (H1 (Fin 120%Q) (Fin 20%Q)); reflexivity.
  - apply (H2 (Fin 160%Q) (Fin 20%Q)); reflexivity.
Defined.

(** The adapted maximum of that patient is 110 degrees. *)
Lemma adaptive_range_of_limited_elbow :
  exists q : Q,
    snd (get_adaptive_range_for_joint (calibrated_elbow 120) "R_Elbow"
           (Fin 10%Q) (Fin 150%Q)) = Fin q
    /\ (q == 110)%Q.
Proof. eexists. split; [vm_compute; reflexivity | reflexivity]. Qed.

(** ** The warm-up protocol *)

Lemma ltb_asym (a b : string) : String.ltb a b = true -> String.ltb b a = false.
Proof.
  unfold String.ltb. rewrite (String.compare_antisym b a).
  destruct (String.compare a b); simpl; congruence.
Qed.

Lemma filter_other_patients (pid : string) (sheet : list Row) :
  Forall (fun r => PatientID r <> pid) sheet ->
  filter (fun r => PatientID r = pid) sheet = [].
Proof.
  induction 1 as [|r sheet Hr _ IH]; [reflexivity|].
  rewrite filter_cons_False by exact Hr. exact IH.
Qed.

(** C8 (the code departs from the claim).  After two warm-up sessions of a
    patient for the same exercise, saved at the dates [d1 < d2] (the sheet
    held no row of the patient before), [load_from_excel] returns for the
    exercise the values of the older session [d1]: the rows are sorted with
    the most recent first and each row overwrites the entry of its
    exercise, so the last row read, the oldest, stays. *)
Theorem load_from_excel_oldest_session_wins (pid exercise d1 d2 : string)
    (r1 r2 : gmap string float) (sheet : list Row) :
  Forall (fun r => PatientID r <> pid) sheet ->
  String.ltb d1 d2 = true ->
  load_from_excel pid
    (save_to_excel pid d2 [(exercise, r2)]
       (save_to_excel pid d1 [(exercise, r1)] sheet))
  = Some {[ exercise := row_ranges (session_row pid d1 (exercise, r1)) ]}.
Proof.
  intros Hsheet Hlt. unfold load_from_excel, save_to_excel. cbn [map].
  rewrite !filter_app, (filter_other_patients pid sheet Hsheet).
  rewrite !filter_cons_True by reflexivity. rewrite !filter_nil. cbn [app].
  cbn [sort_by_date_desc insert_by_date_desc].
  cbn [session_row Date]. rewrite (ltb_asym _ _ Hlt).
  cbn [fold_left Exercise]. rewrite insert_insert_eq. reflexivity.
Qed.

Lemma load_from_excel_oldest_session_wins_witness :
  load_from_excel "1234" two_sessions
  = Some {[ "ball_bend_elbows" :=
              row_ranges (session_row "1234" "2025-11-01 09:30"
                            ("ball_bend_elbows", ranges_of 120 50 110 55)) ]}.
Proof.
  apply (load_from_excel_oldest_session_wins "1234" "ball_bend_elbows"
           "2025-11-01 09:30" "2025-11-02 09:30").
  - constructor.
  - reflexivity.
Defined.

(** The record loaded after the two sessions holds the right maximum of
    the first one, 120, and not the 170 of the second. *)
Lemma load_from_excel_two_sessions :
  (load_from_excel "1234" two_sessions ≫= lookup "ball_bend_elbows")
  = Some (ranges_of 120 50 110 55).
Proof. vm_compute. reflexivity. Qed.

(** Nothing the tracking thread does writes [s.calibration_ranges]. *)
Lemma apply_requests_calibration_ranges (rs : list Request) (s : Settings) :
  calibration_ranges (apply_requests rs s) = calibration_ranges s.
Proof.
  unfold apply_requests. revert s.
  induction rs as [|r rs IH]; intros s; [reflexivity|].
  cbn [fold_left]. rewrite IH. destruct r; reflexivity.
Qed.

Lemma decide_two_angles_calibration_ranges (p : TwoAngles) (a : Angles)
    (l : Local) (s : Settings) :
  calibration_ranges (snd (decide_two_angles p a l s)) = calibration_ranges s.
Proof.
  unfold decide_two_angles.
  destruct (right_angle a), (left_angle a), (right_angle2 a), (left_angle2 a);
    try reflexivity.
  destruct (left_right_differ p);
    repeat match goal with |- context [if ?b then _ else _] => destruct b end;
    reflexivity.
Qed.

Lemma check_target_calibration_ranges (l : Local) (s : Settings) (cam : Camera) :
  calibration_ranges (step_settings (check_target l s cam)) = calibration_ranges s.
Proof. unfold check_target. destruct (_ =? _)%Z; reflexivity. Qed.

Lemma two_angles_pass_calibration_ranges {F : Type} (measure : F -> CamM Angles)
    (p : TwoAngles) (t : Tick F) (w : Where) (l : Local) (s : Settings)
    (cam : Camera) :
  calibration_ranges (step_settings (two_angles_pass measure p t w l s cam))
  = calibration_ranges s.
Proof.
  unfold two_angles_pass.
  pose proof (apply_requests_calibration_ranges (requests t) s) as Hreq.
  set (s1 := apply_requests (requests t) s) in *.
  destruct (match w with AtTest => _ | InPause => false end); [exact Hreq|].
  destruct (did_training_paused s1 && negb (stop_requested s1)); [exact Hreq|].
  unfold two_angles_body. destruct (frame t) as [joints|].
  - destruct (measure joints cam) as [[a | e] cam']; [|exact Hreq].
    pose proof (decide_two_angles_calibration_ranges p a l s1) as Hd.
    destruct (decide_two_angles p a l s1) as [l' s2]. cbn [snd] in Hd.
    rewrite check_target_calibration_ranges. congruence.
  - rewrite check_target_calibration_ranges. exact Hreq.
Qed.

Section WarmupFacts.
Context {np : NumPy}.

Lemma camera_thread_calibration_ranges (p : TwoAngles)
    (ticks : list (Tick Skeleton)) (th : CameraThread) (s : Settings)
    (cam : Camera) :
  calibration_ranges (camera_thread p ticks th s cam).1.2 = calibration_ranges s.
Proof.
  revert th s cam. induction ticks as [|t ticks IH]; intros th s cam; [reflexivity|].
  cbn [camera_thread]. destruct th as [w l | | e].
  - pose proof (two_angles_pass_calibration_ranges (measure_two_angles p) p t w l s cam)
      as Hp.
    destruct (two_angles_pass (measure_two_angles p) p t w l s cam);
      cbn [step_settings] in Hp; rewrite IH; exact Hp.
  - destruct (String.eqb _ _); rewrite IH; apply apply_requests_calibration_ranges.
  - rewrite IH. apply apply_requests_calibration_ranges.
Qed.

Lemma wait_for_repetition_calibration_ranges (p : TwoAngles) (polls : list Poll)
    (th th' : CameraThread) (s s' : Settings) (cam cam' : Camera) :
  wait_for_repetition p polls th s cam = Some (th', s', cam') ->
  calibration_ranges s' = calibration_ranges s.
Proof.
  revert th s cam.
  induction polls as [|q polls IH]; intros th s cam; cbn [wait_for_repetition].
  - destruct (_ <? _)%Z; [discriminate|]. intros [= _ <- _]. reflexivity.
  - destruct (_ <? _)%Z; [|intros [= _ <- _]; reflexivity].
    destruct (_ <? _)%Z; [intros [= _ <- _]; reflexivity|].
    destruct (stop_requested s); [intros [= _ <- _]; reflexivity|].
    pose proof (camera_thread_calibration_ranges p (camera_ticks q) th s cam) as Hc.
    destruct (camera_thread p (camera_ticks q) th s cam) as [[th1 s1] cam1].
    cbn [fst snd] in Hc. intros H. apply IH in H. congruence.
Qed.

Lemma read_ranges_fresh (s : Settings) :
  calibration_ranges s = fresh_ranges -> read_ranges s = Ok fresh_ranges.
Proof. intros H. unfold read_ranges. rewrite H. reflexivity. Qed.

(** C9 (the code departs from the claim).  Whatever the camera thread sees
    while [calibrate_one_exercise] waits, the dictionary returned, if any,
    is the one stored before the patient moved: maxima 0 and minima 180 on
    both sides.  No running maximum or minimum of the angles is kept. *)
Theorem calibrate_one_exercise_returns_fresh_ranges (p : TwoAngles)
    (warmup : list (Tick Skeleton)) (polls : list Poll)
    (th th' : CameraThread) (s s' : Settings) (cam cam' : Camera)
    (ranges : result (option (gmap string float))) :
  calibrate_one_exercise p warmup polls th s cam = Some (ranges, th', s', cam') ->
  ranges = Ok None \/ ranges = Ok (Some fresh_ranges).
Proof.
  unfold calibrate_one_exercise.
  set (s0 := set_calibration_ranges fresh_ranges _).
  pose proof (camera_thread_calibration_ranges p warmup th s0 cam) as Hc.
  destruct (camera_thread p warmup th s0 cam) as [[th1 s1] cam1]. cbn [fst snd] in Hc.
  destruct (wait_for_repetition p polls th1 s1 cam1) as [[[th2 s2] cam2]|] eqn:Hw;
    [|discriminate].
  apply wait_for_repetition_calibration_ranges in Hw.
  intros [= <- _ _ _].
  destruct (_ <=? _)%Z; [right | left; reflexivity].
  rewrite read_ranges_fresh; [reflexivity|].
  cbn. rewrite Hw, Hc. reflexivity.
Qed.

End WarmupFacts.

Lemma calibrate_one_exercise_returns_fresh_ranges_witness :
  exists th' s' cam',
    calibrate_one_exercise (np := coarse_numpy) weights_abduction one_repetition []
      Idle Settings_init Camera_init
    = Some (Ok (Some fresh_ranges), th', s', cam')
    /\ (Ok (Some fresh_ranges) = Ok None
        \/ Ok (Some fresh_ranges) = Ok (Some fresh_ranges)).
Proof.
  eexists _, _, _. split; [vm_compute; reflexivity|].
  refine (calibrate_one_exercise_returns_fresh_ranges (np := coarse_numpy)
            weights_abduction one_repetition [] Idle _ Settings_init _
            Camera_init _ _ _).
  vm_compute. reflexivity.
Defined.

(** The patient does one repetition of [weights_abduction], the right
    shoulder angle going from 90 degrees down to 30 and back to 90: the
    repetition is counted, and the dictionary returned has the right
    maximum 0 and the right minimum 180. *)
Lemma calibrate_one_exercise_ignores_the_motion :
  exists th' s' cam' ranges,
    calibrate_one_exercise (np := coarse_numpy) weights_abduction one_repetition []
      Idle Settings_init Camera_init
    = Some (Ok (Some ranges), th', s', cam')
    /\ patient_repetitions_counting_in_exercise s' = 1%Z
    /\ previous_angles cam' !! "R_1" = Some (Fin 90%Q)
    /\ ranges !! "right_max" = Some (Fin 0%Q)
    /\ ranges !! "right_min" = Some (Fin 180%Q).
Proof.
  eexists _, _, _, _. split; [vm_compute; reflexivity|].
  repeat split; reflexivity.
Qed.

(** ** The full protocol *)

Create HintDb slots.

Lemma only_calibration_slot_refl (cam : Camera) : only_calibration_slot cam cam.
Proof. repeat split; auto. Qed.

Lemma only_calibration_slot_trans (c1 c2 c3 : Camera) :
  only_calibration_slot c1 c2 -> only_calibration_slot c2 c3 ->
  only_calibration_slot c1 c3.
Proof.
  intros (A1 & A2 & A3) (B1 & B2 & B3). repeat split.
  - congruence.
  - intros k Hk. rewrite B2, A2; auto.
  - auto.
Qed.

#[local] Hint Resolve only_calibration_slot_refl : slots.
#[local] Hint Extern 2 (only_calibration_slot _ _) =>
  eapply only_calibration_slot_trans; [eassumption|] : slots.

Section WindowFacts.
Context {np : NumPy}.
Local Open Scope Q_scope.

(** One frame adds at most one sample, and only a positive one. *)
Lemma capture_sample_cases (joints : string * string * string) (sk : Skeleton)
    (samples : list float) (cam : Camera) :
  (capture_sample joints sk samples cam).1 = samples
  \/ exists a, (capture_sample joints sk samples cam).1 = samples ++ [a]
               /\ fgt a (Fin 0) = true.
Proof.
  unfold capture_sample. destruct joints as [[k1 k2] k3].
  destruct (getitem sk k1) as [j1|]; [|left; reflexivity].
  destruct (getitem sk k2) as [j2|]; [|left; reflexivity].
  destruct (getitem sk k3) as [j3|]; [|left; reflexivity].
  destruct (calc_angle_3d cam j1 j2 j3 "calibration") as [[a|] cam'];
    [|left; reflexivity].
  destruct (fgt a (Fin 0)) eqn:E; [right; exists a; auto | left; reflexivity].
Qed.

Lemma capture_sample_camera (joints : string * string * string) (sk : Skeleton)
    (samples : list float) (cam : Camera) :
  (capture_sample joints sk samples cam).2 = cam
  \/ exists a, (capture_sample joints sk samples cam).2
               = set_previous_angles (<["calibration" := a]> (previous_angles cam)) cam.
Proof.
  unfold capture_sample. destruct joints as [[k1 k2] k3].
  destruct (getitem sk k1) as [j1|]; [|left; reflexivity].
  destruct (getitem sk k2) as [j2|]; [|left; reflexivity].
  destruct (getitem sk k3) as [j3|]; [|left; reflexivity].
  destruct (calc_angle_3d_camera cam j1 j2 j3 "calibration") as [a ->].
  right. exists a. destruct (fgt (round2 a) (Fin 0)); reflexivity.
Qed.

Lemma capture_sample_slot (joints : string * string * string) (sk : Skeleton)
    (samples : list float) (cam : Camera) :
  only_calibration_slot cam (capture_sample joints sk samples cam).2.
Proof.
  destruct (capture_sample_camera joints sk samples cam) as [-> | [a ->]].
  - apply only_calibration_slot_refl.
  - repeat split.
    + intros k Hk. cbn. rewrite lookup_insert_ne; [reflexivity | congruence].
    + intros _. cbn. rewrite lookup_insert_eq. eauto.
Qed.

(** How the sampling loop ends: on a stop request seen inside the window,
    or at the end of the window. *)
Lemma capture_loop_exit (joints : string * string * string) (duration start : Z)
    (stop : Z -> bool) (frames : list Frame) :
  forall (samples : list float) (now : Z) (cam : Camera) (win : Window) (w' : World),
  capture_loop joints duration start samples stop frames now cam = Some (win, w') ->
  stop_at w' = stop
  /\ ((win = Stopped /\ stop (clock w') = true /\ (clock w' - start < duration)%Z)
      \/ (exists samples', win = Collected samples'
                           /\ (duration <= clock w' - start)%Z)).
Proof.
  induction frames as [|f frames IH]; intros samples now cam win w';
    cbn [capture_loop]; destruct (Z.ltb_spec (now - start) duration) as [Hlt | Hge].
  - destruct (stop now) eqn:Hs; [|discriminate]. intros [= <- <-]. cbn. auto.
  - intros [= <- <-]. cbn. split; [reflexivity|]. right. eauto.
  - destruct (stop now) eqn:Hs.
    + intros [= <- <-]. cbn. auto.
    + destruct (match skeleton f with
                | Some sk => capture_sample joints sk samples cam
                | None => (samples, cam)
                end) as [samples1 cam1].
      apply IH.
  - intros [= <- <-]. cbn. split; [reflexivity|]. right. eauto.
Qed.

(** Every turn of the loop takes a tenth of a second at least: with no
    stop request, answers for the whole window are enough for it to end. *)
Lemma capture_loop_returns (joints : string * string * string) (duration start : Z)
    (stop : Z -> bool) (frames : list Frame) :
  (forall t, stop t = false) ->
  forall (samples : list float) (now : Z) (cam : Camera),
  (duration - (now - start) <= 100 * Z.of_nat (length frames))%Z ->
  exists samples' w',
    capture_loop joints duration start samples stop frames now cam
    = Some (Collected samples', w').
Proof.
  intros Hstop. induction frames as [|f frames IH]; intros samples now cam Hlen;
    cbn [capture_loop]; destruct (Z.ltb_spec (now - start) duration) as [Hlt | Hge];
    eauto.
  - cbn [length] in Hlen. lia.
  - rewrite Hstop.
    destruct (match skeleton f with
              | Some sk => capture_sample joints sk samples cam
              | None => (samples, cam)
              end) as [samples1 cam1].
    apply IH. cbn [length] in Hlen. lia.
Qed.

(** A window only adds to the samples it starts with. *)
Lemma capture_loop_prefix (joints : string * string * string) (duration start : Z)
    (stop : Z -> bool) (frames : list Frame) :
  forall (samples samples' : list float) (now : Z) (cam : Camera) (w' : World),
  capture_loop joints duration start samples stop frames now cam
  = Some (Collected samples', w') ->
  exists rest, samples' = samples ++ rest.
Proof.
  induction frames as [|f frames IH]; intros samples samples' now cam w';
    cbn [capture_loop]; destruct (now - start <? duration)%Z;
    try (intros [= <- _]; exists []; symmetry; apply app_nil_r).
  - destruct (stop now); discriminate.
  - destruct (stop now); [discriminate|].
    destruct (skeleton f) as [sk|]; [|apply IH].
    destruct (capture_sample_cases joints sk samples cam) as [E | (a & E & _)];
      destruct (capture_sample joints sk samples cam) as [samples1 cam1];
      cbn [fst] in E; subst samples1; intros H; apply IH in H.
    + exact H.
    + destruct H as [rest ->]. exists (a :: rest). rewrite <- app_assoc. reflexivity.
Qed.

Lemma capture_loop_slot (joints : string * string * string) (duration start : Z)
    (stop : Z -> bool) (frames : list Frame) :
  forall (samples : list float) (now : Z) (cam : Camera) (win : Window) (w' : World),
  capture_loop joints duration start samples stop frames now cam = Some (win, w') ->
  only_calibration_slot cam (camera w').
Proof.
  induction frames as [|f frames IH]; intros samples now cam win w';
    cbn [capture_loop]; destruct (now - start <? duration)%Z;
    try (intros [= <- <-]; auto with slots).
  - destruct (stop now); [|discriminate]. intros [= <- <-]. auto with slots.
  - destruct (stop now); [intros [= <- <-]; auto with slots|].
    destruct (skeleton f) as [sk|].
    + pose proof (capture_sample_slot joints sk samples cam) as Hs.
      destruct (capture_sample joints sk samples cam) as [samples1 cam1].
      intros H. apply IH in H. eauto with slots.
    + apply IH.
Qed.

Lemma capture_angle_slot (joints : string * string * string) (duration : Z)
    (target : Target) (w w' : World) (r : option float) :
  capture_angle joints duration target w = Some (r, w') ->
  only_calibration_slot (camera w) (camera w').
Proof.
  unfold capture_angle, capture_window.
  destruct (capture_loop joints duration (clock w) [] (stop_at w) (feed w)
              (clock w) (camera w)) as [[win w1]|] eqn:E; [|discriminate].
  apply capture_loop_slot in E.
  destruct win; intros [= _ <-]; exact E.
Qed.

Lemma measure_rom_slot (m : Measurement) (w w' : World)
    (r : option (float * float)) :
  measure_rom m w = Some (r, w') ->
  only_calibration_slot (camera w) (camera w').
Proof.
  unfold measure_rom.
  destruct (capture_angle (joints m) 4000 target_max (sleep 2000 w))
    as [[[a|] w1]|] eqn:E1; [| |discriminate].
  - apply capture_angle_slot in E1.
    destruct (capture_angle (joints m) 4000 target_min (sleep 2000 (sleep 1000 w1)))
      as [[[b|] w2]|] eqn:E2; [| |discriminate].
    + apply capture_angle_slot in E2.
      destruct (flt a b); intros [= _ <-]; eauto with slots.
    + apply capture_angle_slot in E2. intros [= _ <-]. eauto with slots.
  - apply capture_angle_slot in E1. intros [= _ <-]. exact E1.
Qed.

Lemma run_measurements_slot (ms : list Measurement) :
  forall (rom_data rom_data' : gmap string float) (w w' : World) (ok : bool),
  run_measurements ms rom_data w = Some (ok, rom_data', w') ->
  only_calibration_slot (camera w) (camera w').
Proof.
  induction ms as [|m ms IH]; intros rom_data rom_data' w w' ok; cbn [run_measurements].
  - intros [= _ _ <-]. auto with slots.
  - destruct (stop_at w (clock w)).
    + intros [= _ _ <-]. auto with slots.
    + unfold record_measurement.
      destruct (measure_rom m w) as [[r w1]|] eqn:E; [|discriminate].
      apply measure_rom_slot in E. intros H. apply IH in H. eauto with slots.
Qed.

Lemma capture_angle_empty (joints : string * string * string) (duration : Z)
    (target : Target) (w w' : World) :
  capture_window joints duration w = Some (Collected [], w') ->
  capture_angle joints duration target w = Some (None, w').
Proof.
  intros H. unfold capture_angle. rewrite H. destruct target; reflexivity.
Qed.

Lemma capture_angle_nonempty (joints : string * string * string) (duration : Z)
    (target : Target) (w w' : World) (a : float) (rest : list float) :
  capture_window joints duration w = Some (Collected (a :: rest), w') ->
  exists b, capture_angle joints duration target w = Some (Some b, w').
Proof.
  intros H. unfold capture_angle. rewrite H. destruct target; eexists; reflexivity.
Qed.


(** C7.  A frame adds a sample only when its angle is positive.  When the
    window for the maximum, or the one for the minimum, ends with no sample
    (and no stop request is seen before the measurement), the entry of the
    measurement gets its normal maximum and minimum and the loop goes on
    with the measurements that remain. *)
Theorem empty_window_falls_back_to_defaults (m : Measurement)
    (ms : list Measurement) (rom_data : gmap string float) (w : World) :
  (forall (sk : Skeleton) (samples : list float) (cam : Camera) (a : float),
     a ∈ (capture_sample (joints m) sk samples cam).1 ->
     a ∈ samples \/ fgt a (Fin 0) = true)
  /\ (forall w1,
        stop_at w (clock w) = false ->
        capture_window (joints m) 4000 (sleep 2000 w) = Some (Collected [], w1) ->
        run_measurements (m :: ms) rom_data w
        = run_measurements ms (with_defaults m rom_data) (sleep 1000 w1))
  /\ (forall a rest w1 w2,
        stop_at w (clock w) = false ->
        capture_window (joints m) 4000 (sleep 2000 w)
        = Some (Collected (a :: rest), w1) ->
        capture_window (joints m) 4000 (sleep 2000 (sleep 1000 w1))
        = Some (Collected [], w2) ->
        run_measurements (m :: ms) rom_data w
        = run_measurements ms (with_defaults m rom_data) (sleep 1000 w2)).
Proof.
  split; [|split].
  - intros sk samples cam a Ha.
    destruct (capture_sample_cases (joints m) sk samples cam) as [E | (b & E & Hb)];
      rewrite E in Ha; [left; exact Ha|].
    apply elem_of_app in Ha. destruct Ha as [Ha | Ha]; [left; exact Ha|].
    apply list_elem_of_singleton in Ha. subst. right. exact Hb.
  - intros w1 Hs Hw. cbn [run_measurements]. rewrite Hs.
    unfold record_measurement, measure_rom.
    rewrite (capture_angle_empty _ _ target_max _ _ Hw). reflexivity.
  - intros a rest w1 w2 Hs Hw1 Hw2. cbn [run_measurements]. rewrite Hs.
    unfold record_measurement, measure_rom.
    destruct (capture_angle_nonempty _ _ target_max _ _ _ _ Hw1) as [b ->].
    rewrite (capture_angle_empty _ _ target_min _ _ Hw2). reflexivity.
Qed.


End WindowFacts.

Section WindowExamples.
Local Open Scope Q_scope.



Lemma empty_window_falls_back_to_defaults_witness :
  run_measurements (np := coarse_numpy) calibration_measurements ∅
    (steady_world None None 640)
  = run_measurements (np := coarse_numpy) (tail calibration_measurements)
      (with_defaults (mkMeasurement "R_Shoulder_Hip_Elbow"
                        ("R_hip", "R_shoulder", "R_elbow") (Fin 180) (Fin 10)) ∅)
      (sleep 1000 (mkWorld 6000 (fun _ => false)
                     (repeat (mkFrame 0 None) 600) Camera_init)).
Proof.
  destruct (empty_window_falls_back_to_defaults (np := coarse_numpy)
              (mkMeasurement "R_Shoulder_Hip_Elbow"
                 ("R_hip", "R_shoulder", "R_elbow") (Fin 180) (Fin 10))
              (tail calibration_measurements) ∅ (steady_world None None 640))
    as (_ & H & _).
  apply H; [reflexivity | vm_compute; reflexivity].
Defined.

(** The camera answers nothing during the whole protocol: every measurement
    gets its normal values and the calibration succeeds. *)
Lemma run_calibration_without_data :
  exists w',
    run_calibration (np := coarse_numpy) Settings_init (steady_world None None 640)
    = Some (true,
            set_patient_calibrated true (set_patient_rom all_defaults Settings_init),
            w')
    /\ feed w' = [].
Proof. eexists. split; [vm_compute; reflexivity | reflexivity]. Qed.


(** In that window the slot held 30 degrees from a measurement before, and
    the straight elbow (179.9 degrees) enters the samples as 40 degrees. *)
Lemma first_sample_of_next_window :
  exists rest w',
    capture_window (np := coarse_numpy) ("R_shoulder", "R_elbow", "R_wrist") 4000
      (mkWorld 0 (fun _ => false) (repeat (mkFrame 0 (Some arms_side)) 40)
         (camera_with "calibration" 30))
    = Some (Collected (Fin (4000 # 100) :: rest), w').
Proof. eexists _, _. vm_compute. reflexivity. Qed.

End WindowExamples.

(** * Further properties *)

(** ** Smoothing *)

Section SmoothingFacts.
Context {np : NumPy}.
Local Open Scope Q_scope.

(** The stored angle after one call, when slot and raw angle are numbers. *)
Lemma limit_angle_jump_towards (cam : Camera) (slot : string) (r P J : Q) :
  previous_angles cam !! slot = Some (Fin P) ->
  max_angle_jump cam = Fin J ->
  0 <= J ->
  exists a, limit_angle_jump cam (Fin r) slot = Ok (Fin a)
    /\ Qmin P r <= a <= Qmax P r
    /\ Qabs (a - r) == Qmax 0 (Qabs (P - r) - J).
Proof.
  intros Hprev HJ Hpos. unfold limit_angle_jump, getitem. rewrite Hprev, HJ.
  unfold fgt. cbn [fsub fneg fadd fabs flt fmul].
  destruct (Qlt_bool J (Qabs (r + - P))) eqn:E.
  - apply Qlt_bool_iff in E.
    destruct (Qlt_bool P r) eqn:Hdir; cbn [fmul fadd]; eexists;
      (split; [reflexivity|]).
    + apply Qlt_bool_iff in Hdir.
      rewrite Qabs_pos in E by lra.
      split.
      * rewrite Q.min_l, Q.max_r by lra. lra.
      * rewrite Qabs_neg by lra. rewrite (Qabs_neg (P - r)) by lra.
        rewrite Q.max_r by lra. ring.
    + apply Qlt_bool_false_iff in Hdir.
      rewrite Qabs_neg in E by lra.
      split.
      * rewrite Q.min_r, Q.max_l by lra. lra.
      * rewrite Qabs_pos by lra. rewrite (Qabs_pos (P - r)) by lra.
        rewrite Q.max_r by lra. ring.
  - apply Qlt_bool_false_iff in E. exists r. split; [reflexivity|]. split.
    + split; [apply Q.le_min_r | apply Q.le_max_r].
    + assert (Hz : r - r == 0) by ring. rewrite Hz. change (Qabs 0) with 0.
      assert (Hsym : Qabs (P - r) == Qabs (r + - P)).
      { rewrite <- Qabs_opp. apply Qabs_wd. ring. }
      rewrite Q.max_l; [reflexivity | lra].
Qed.

(** X1.  On a slot that holds the number [P], with a largest jump [J >= 0]
    and a raw angle that is the number [r], [calc_angle_3d] stores an angle
    between [P] and [r] whose distance to [r] is [|P - r| - J], or [r]
    itself when that is not positive: the angle moves towards the raw one
    by [J] at most and never past it.  The value returned is the stored
    one, rounded. *)
Theorem calc_angle_3d_moves_towards_raw (cam : Camera)
    (joint1 joint2 joint3 : Joint) (slot : string) (P J r : Q) :
  previous_angles cam !! slot = Some (Fin P) ->
  max_angle_jump cam = Fin J ->
  0 <= J ->
  raw_angle_3d joint1 joint2 joint3 = Fin r ->
  exists a,
    calc_angle_3d cam joint1 joint2 joint3 slot
    = (Some (Fin (Qround2 a)),
       set_previous_angles (<[slot := Fin a]> (previous_angles cam)) cam)
    /\ Qmin P r <= a <= Qmax P r
    /\ Qabs (a - r) == Qmax 0 (Qabs (P - r) - J).
Proof.
  intros Hprev HJ Hpos Hraw.
  destruct (limit_angle_jump_towards cam slot r P J Hprev HJ Hpos)
    as (a & Ha & Hbetween & Hdist).
  exists a. unfold calc_angle_3d, smooth_and_store. rewrite Hraw, Hprev, Ha.
  split; [reflexivity | split; assumption].
Qed.

(** X2.  The same joints seen [n] times in a row: the stored angle is then
    [|P - r| - n * J] away from the raw angle [r], or equal to it once that
    is not positive; a change of [d] degrees is followed after [d / J]
    frames. *)
Theorem repeat_calc_angle_3d_lag (n : nat) (cam : Camera)
    (joint1 joint2 joint3 : Joint) (slot : string) (P J r : Q) :
  previous_angles cam !! slot = Some (Fin P) ->
  max_angle_jump cam = Fin J ->
  0 <= J ->
  raw_angle_3d joint1 joint2 joint3 = Fin r ->
  exists a,
    previous_angles (repeat_calc_angle_3d n cam joint1 joint2 joint3 slot) !! slot
    = Some (Fin a)
    /\ Qabs (a - r) == Qmax 0 (Qabs (P - r) - inject_Z (Z.of_nat n) * J).
Proof.
  intros Hprev HJ Hpos Hraw. revert cam P Hprev HJ.
  induction n as [|n IH]; intros cam P Hprev HJ.
  - exists P. split; [exact Hprev|]. cbn [Z.of_nat].
    assert (E : Qabs (P - r) - inject_Z 0 * J == Qabs (P - r)) by ring.
    rewrite E. rewrite Q.max_r by apply Qabs_nonneg. reflexivity.
  - cbn [repeat_calc_angle_3d].
    destruct (limit_angle_jump_towards cam slot r P J Hprev HJ Hpos)
      as (a1 & Hlimit & _ & Hdist).
    unfold calc_angle_3d at 1, smooth_and_store. rewrite Hraw, Hprev, Hlimit.
    cbn [snd].
    destruct (IH (set_previous_angles (<[slot := Fin a1]> (previous_angles cam)) cam)
                a1) as (a & Ha & Hd).
    { cbn. apply lookup_insert_eq. }
    { exact HJ. }
    exists a. split; [exact Ha|]. rewrite Hd, Hdist.
    assert (Hk : 0 <= inject_Z (Z.of_nat n)).
    { change 0 with (inject_Z 0). rewrite <- Zle_Qle. lia. }
    assert (HS : inject_Z (Z.of_nat (S n)) == inject_Z (Z.of_nat n) + 1).
    { rewrite Nat2Z.inj_succ. unfold Z.succ. rewrite inject_Z_plus. reflexivity. }
    rewrite HS.
    set (k := inject_Z (Z.of_nat n)) in *. set (d := Qabs (P - r)).
    assert (Hk' : 0 <= k * J) by (apply Qmult_le_0_compat; assumption).
    destruct (Q.max_spec 0 (d - J)) as [[H1 ->] | [H1 ->]];
      destruct (Q.max_spec 0 (d - J - k * J)) as [[H2 E2] | [H2 E2]];
      destruct (Q.max_spec 0 (0 - k * J)) as [[H3 E3] | [H3 E3]];
      destruct (Q.max_spec 0 (d - (k + 1) * J)) as [[H4 E4] | [H4 E4]];
      rewrite ?E2, ?E3, ?E4; try lra.
Qed.

(** X3.  After a call on a degenerate triple the slot holds [nan], and the
    next call on that slot is not limited: it stores the raw angle and
    returns it rounded, however far it is from the angles seen before. *)
Theorem calc_angle_3d_unlimited_after_degenerate (cam : Camera)
    (d1 d2 d3 joint1 joint2 joint3 : Joint) (slot : string) :
  degenerate d1 d2 d3 ->
  let cam1 := (calc_angle_3d cam d1 d2 d3 slot).2 in
  calc_angle_3d cam1 joint1 joint2 joint3 slot
  = (Some (round2 (raw_angle_3d joint1 joint2 joint3)),
     set_previous_angles
       (<[slot := raw_angle_3d joint1 joint2 joint3]> (previous_angles cam1)) cam1).
Proof.
  intros Hd cam1.
  assert (E : cam1 = set_previous_angles (<[slot := NaN]> (previous_angles cam)) cam).
  { unfold cam1, calc_angle_3d.
    rewrite (raw_angle_3d_degenerate d1 d2 d3 Hd), smooth_and_store_nan.
    reflexivity. }
  clearbody cam1. subst cam1.
  unfold calc_angle_3d, smooth_and_store, limit_angle_jump, getitem.
  cbn [previous_angles set_previous_angles max_angle_jump].
  rewrite lookup_insert_eq.
  assert (Hgt : forall a m, fgt (fabs (fsub a NaN)) m = false).
  { intros a m. unfold fgt, fsub. destruct a, m; reflexivity. }
  rewrite Hgt. reflexivity.
Qed.

End SmoothingFacts.

(** ** The datagram of a frame *)

Section ParsingFacts.
Variable py_float : string -> option float.

Lemma add_joint_cases (joints : Skeleton) (j : list string) :
  (add_joint py_float joints j = None /\ bad_entry py_float j)
  \/ (add_joint py_float joints j = Some joints
      /\ forall k tx ty tz, j <> [k; tx; ty; tz])
  \/ (exists k joint, entry_gives py_float j k joint
        /\ add_joint py_float joints j = Some (<[k := joint]> joints)).
Proof.
  destruct j as [|k [|tx [|ty [|tz [|extra rest]]]]];
    try (right; left; split; [reflexivity | intros; discriminate]).
  cbn [add_joint].
  destruct (py_float tx) as [px|] eqn:Ex;
    [|left; split; [reflexivity | exists k, tx, ty, tz; auto]].
  destruct (py_float ty) as [py|] eqn:Ey;
    [|left; split; [reflexivity | exists k, tx, ty, tz; auto]].
  destruct (py_float tz) as [pz|] eqn:Ez;
    [|left; split; [reflexivity | exists k, tx, ty, tz; auto]].
  right. right. exists k, (new_joint k px py (fmul pz (Fin 100%Q))).
  split; [|reflexivity]. exists tx, ty, tz, px, py, pz. auto.
Qed.

Lemma entry_gives_not_bad (j : list string) (k : string) (joint : Joint) :
  entry_gives py_float j k joint -> ~ bad_entry py_float j.
Proof.
  intros (tx & ty & tz & px & py & pz & -> & Hx & Hy & Hz & _)
         (k' & tx' & ty' & tz' & [= <- <- <- <-] & H).
  destruct H as [H | [H | H]]; congruence.
Qed.

Lemma parse_joints_None (entries : list (list string)) :
  forall joints, parse_joints py_float joints entries = None
                 <-> Exists (bad_entry py_float) entries.
Proof.
  induction entries as [|j entries IH]; intros joints; cbn [parse_joints].
  - split; [discriminate | intros H; inversion H].
  - destruct (add_joint_cases joints j)
      as [[-> Hbad] | [[-> Hnot] | (k & joint & Hg & ->)]].
    + split; [intros _; left; exact Hbad | reflexivity].
    + rewrite IH, Exists_cons. split; [auto|].
      intros [(k & tx & ty & tz & -> & _) | H]; [|exact H].
      exfalso. eapply Hnot. reflexivity.
    + rewrite IH, Exists_cons. split; [auto|].
      intros [H | H]; [|exact H].
      exfalso. eapply entry_gives_not_bad; eauto.
Qed.

Lemma parse_joints_lookup (entries : list (list string)) :
  forall joints parsed k,
  parse_joints py_float joints entries = Some parsed ->
  match parsed !! k with
  | None => joints !! k = None
            /\ forall tx ty tz, [k; tx; ty; tz] ∉ entries
  | Some joint => joints !! k = Some joint
                  \/ exists j, j ∈ entries /\ entry_gives py_float j k joint
  end.
Proof.
  induction entries as [|j entries IH]; intros joints parsed k; cbn [parse_joints].
  - intros [= <-]. destruct (joints !! k) eqn:E; [auto|].
    split; [reflexivity | intros tx ty tz H; inversion H].
  - destruct (add_joint_cases joints j)
      as [[-> _] | [[-> Hnot] | (k' & joint' & Hg & ->)]]; [discriminate | |].
    + intros H. specialize (IH _ _ k H).
      destruct (parsed !! k) as [joint|].
      * destruct IH as [IH | (j' & Hin & Hj')]; [auto|].
        right. exists j'. split; [right; exact Hin | exact Hj'].
      * destruct IH as [IH1 IH2]. split; [exact IH1|].
        intros tx ty tz Hin. apply elem_of_cons in Hin.
        destruct Hin as [Hin | Hin]; [eapply Hnot; eauto | eapply IH2; eauto].
    + intros H. specialize (IH _ _ k H).
      destruct (parsed !! k) as [joint|].
      * destruct IH as [IH | (j' & Hin & Hj')].
        -- destruct (decide (k' = k)) as [-> | Hne].
           ++ rewrite lookup_insert_eq in IH. injection IH as <-.
              right. exists j. split; [left | exact Hg].
           ++ rewrite lookup_insert_ne in IH by exact Hne. auto.
        -- right. exists j'. split; [right; exact Hin | exact Hj'].
      * destruct IH as [IH1 IH2].
        destruct (decide (k' = k)) as [-> | Hne].
        -- rewrite lookup_insert_eq in IH1. discriminate.
        -- rewrite lookup_insert_ne in IH1 by exact Hne. split; [exact IH1|].
           intros tx ty tz Hin. apply elem_of_cons in Hin.
           destruct Hin as [Hin | Hin]; [|eapply IH2; eauto].
           destruct Hg as (tx' & ty' & tz' & px & py & pz & -> & _).
           congruence.
Qed.

(** X4.  [get_skeleton_data] answers [None] on a datagram that arrived
    exactly when one of its entries of four fields has a coordinate that
    [float] refuses; the whole frame is dropped then, the good entries
    too. *)
Theorem get_skeleton_data_None (data : string) :
  get_skeleton_data py_float (Some data) = None
  <-> exists k tx ty tz,
        [k; tx; ty; tz] ∈ entries_of data
        /\ (py_float tx = None \/ py_float ty = None \/ py_float tz = None).
Proof.
  cbn [get_skeleton_data]. rewrite parse_joints_None, Exists_exists. split.
  - intros (j & Hin & k & tx & ty & tz & -> & H). exists k, tx, ty, tz. auto.
  - intros (k & tx & ty & tz & Hin & H). exists [k; tx; ty; tz].
    split; [exact Hin | exists k, tx, ty, tz; auto].
Qed.

(** X5.  The frame made of a datagram has the key [k] exactly when an entry
    of four fields is named [k]; entries of any other length are skipped
    without an error.  A joint of the frame comes from such an entry, with
    its third coordinate multiplied by 100. *)
Theorem get_skeleton_data_joints (data : string) (joints : Skeleton) (k : string) :
  get_skeleton_data py_float (Some data) = Some joints ->
  (joints !! k = None <-> forall tx ty tz, [k; tx; ty; tz] ∉ entries_of data)
  /\ (forall joint, joints !! k = Some joint ->
        exists tx ty tz px py pz,
          [k; tx; ty; tz] ∈ entries_of data
          /\ py_float tx = Some px /\ py_float ty = Some py
          /\ py_float tz = Some pz
          /\ joint = new_joint k px py (fmul pz (Fin 100%Q))).
Proof.
  cbn [get_skeleton_data]. intros H.
  pose proof (parse_joints_lookup _ _ _ k H) as Hk.
  pose proof (proj1 (not_iff_compat (parse_joints_None (entries_of data) ∅))) as Hgood.
  split; [split|].
  - intros E. rewrite E in Hk. apply Hk.
  - intros Hno. destruct (joints !! k) as [joint|]; [|reflexivity].
    destruct Hk as [Hk | (j & Hin & tx & ty & tz & px & py & pz & -> & _)].
    + rewrite lookup_empty in Hk. discriminate.
    + exfalso. eapply Hno. exact Hin.
  - intros joint E. rewrite E in Hk.
    destruct Hk as [Hk | (j & Hin & tx & ty & tz & px & py & pz & -> & Hrest)].
    + rewrite lookup_empty in Hk. discriminate.
    + exists tx, ty, tz, px, py, pz. split; [exact Hin | exact Hrest].
Qed.

End ParsingFacts.

Lemma get_skeleton_data_None_witness :
  get_skeleton_data whole_number (Some "R_wrist,1,2,3/nose,0,0,x") = None.
Proof.
  apply (get_skeleton_data_None whole_number "R_wrist,1,2,3/nose,0,0,x").
  exists "nose", "0", "0", "x". split; [|right; right; reflexivity].
  vm_compute. set_solver.
Defined.

Lemma get_skeleton_data_joints_witness :
  exists joints,
    get_skeleton_data whole_number (Some "R_wrist,1,2,3/R_elbow,4,5/") = Some joints
    /\ (joints !! "R_elbow" = None
        <-> forall tx ty tz,
              ["R_elbow"; tx; ty; tz] ∉ entries_of "R_wrist,1,2,3/R_elbow,4,5/")
    /\ joints !! "R_wrist"
       = Some (new_joint "R_wrist" (Fin 1%Q) (Fin 2%Q) (fmul (Fin 3%Q) (Fin 100%Q))).
Proof.
  eexists. split; [vm_compute; reflexivity|]. split.
  - eapply (get_skeleton_data_joints whole_number "R_wrist,1,2,3/R_elbow,4,5/").
    vm_compute. reflexivity.
  - vm_compute. reflexivity.
Defined.

(** ** The four tracking loops *)

(** What the requests of the other threads leave alone. *)
Lemma apply_requests_kept (rs : list Request) (s : Settings) :
  rep (apply_requests rs s) = rep s
  /\ success_exercise (apply_requests rs s) = success_exercise s
  /\ number_of_repetitions_in_training (apply_requests rs s)
     = number_of_repetitions_in_training s
  /\ patient_repetitions_counting_in_exercise (apply_requests rs s)
     = patient_repetitions_counting_in_exercise s.
Proof.
  unfold apply_requests. revert s.
  induction rs as [|r rs IH]; intros s; [auto|].
  cbn [fold_left]. destruct (IH (apply_request s r)) as (-> & -> & -> & ->).
  destruct r; auto.
Qed.

Lemma apply_requests_req_kept (rs : list Request) (s : Settings) :
  Forall (fun r => match r with SetReqExercise _ => False | _ => True end) rs ->
  req_exercise (apply_requests rs s) = req_exercise s.
Proof.
  unfold apply_requests. revert s.
  induction rs as [|r rs IH]; intros s H; [reflexivity|].
  inversion H as [|? ? Hr Hrs]; subst. cbn [fold_left]. rewrite IH by exact Hrs.
  destruct r; [contradiction | reflexivity | reflexivity].
Qed.

Lemma transition_counts (up down : bool) (l l' : Local) (s s' : Settings) :
  transition up down l s = (l', s') ->
  (l' = l /\ s' = s)
  \/ (flag l = true /\ l' = {| flag := false; counter := counter l |} /\ s' = s)
  \/ (flag l = false /\ (l', s') = count_repetition l s).
Proof.
  unfold transition. destruct up, down, (flag l) eqn:E; cbn [andb negb];
    intros [= <- <-]; auto.
Qed.

Lemma decide_two_angles_transition (p : TwoAngles) (a : Angles) (l : Local)
    (s : Settings) :
  decide_two_angles p a l s = transition (up_condition p a) (down_condition p a) l s.
Proof.
  unfold decide_two_angles, up_condition, down_condition, transition.
  destruct (right_angle a), (left_angle a), (right_angle2 a), (left_angle2 a);
    try (cbn [andb]; reflexivity).
  destruct (left_right_differ p); reflexivity.
Qed.

Section EvaluatorFacts.
Context {np : NumPy}.

Lemma two_angles_frame_counts {F : Type} (measure : F -> CamM Angles)
    (p : TwoAngles) : counts_by_transitions (two_angles_frame measure p).
Proof.
  intros joints l l' s s' cam cam'. unfold two_angles_frame, cam_bind, cam_ret.
  destruct (measure joints cam) as [[a | e] cam1]; [|discriminate].
  intros [= H _]. rewrite decide_two_angles_transition in H.
  eapply transition_counts, H.
Qed.

Lemma decide_with_axis_check_counts (p : TwoAngles) (diff_size : Q)
    (joints : Skeleton) (a : Angles) (l l' : Local) (s s' : Settings) :
  decide_with_axis_check p diff_size joints a l s = Ok (l', s') ->
  (l' = l /\ s' = s)
  \/ (flag l = true /\ l' = {| flag := false; counter := counter l |} /\ s' = s)
  \/ (flag l = false /\ (l', s') = count_repetition l s).
Proof.
  unfold decide_with_axis_check.
  destruct (right_angle a), (left_angle a), (right_angle2 a), (left_angle2 a);
    try (intros [= <- <-]; auto).
  destruct (left_right_differ p).
  - unfold result_bind. destruct (shoulders_close joints) as [close | e];
      [|discriminate].
    destruct (up_condition p a), (down_condition p a), close, (flag l) eqn:E;
      cbn [andb negb]; intros [= <- <-]; auto.
  - intros [= H]. eapply transition_counts, H.
Qed.

Lemma axis_check_frame_counts (p : TwoAngles) (diff_size : Q) :
  counts_by_transitions (axis_check_frame p diff_size).
Proof.
  intros joints l l' s s' cam cam'. unfold axis_check_frame, cam_bind.
  destruct (measure_two_angles p joints cam) as [[a | e] cam1]; [|discriminate].
  intros [= H _]. eapply decide_with_axis_check_counts, H.
Qed.

Lemma three_angles_frame_counts (p : ThreeAngles) :
  counts_by_transitions (three_angles_frame p).
Proof.
  intros joints l l' s s' cam cam'. unfold three_angles_frame, cam_bind, cam_ret.
  destruct (measure_three_angles p joints cam) as [[a | e] cam1]; [|discriminate].
  intros [= H _]. unfold decide_three_angles in H.
  destruct (right_angle (angles12 a)), (left_angle (angles12 a)),
    (right_angle2 (angles12 a)), (left_angle2 (angles12 a)),
    (right_angle3 a), (left_angle3 a);
    try (injection H as <- <-; auto).
  eapply transition_counts, H.
Qed.

Lemma decide_by_sides_counts (p : OneAngle) (joints : Skeleton)
    (ra la : option float) (l l' : Local) (s s' : Settings) :
  decide_by_sides p joints ra la l s = Ok (l', s') ->
  (l' = l /\ s' = s)
  \/ (flag l = true /\ l' = {| flag := false; counter := counter l |} /\ s' = s)
  \/ (flag l = false /\ (l', s') = count_repetition l s).
Proof.
  unfold decide_by_sides, result_bind.
  destruct ra as [ra|], la as [la|]; try (intros [= <- <-]; auto).
  destruct (String.eqb (side p) "right").
  - destruct (getitem joints "R_wrist") as [w1|]; [|discriminate].
    destruct (getitem joints "L_shoulder") as [sh|]; [|discriminate].
    destruct (getitem joints "nose") as [nose|]; [|discriminate].
    destruct (flag l) eqn:E; cbn [negb]; rewrite ?andb_false_r, ?andb_true_r;
      repeat match goal with
             | |- context [if ?b then _ else _] => destruct b
             end; intros [= <- <-]; auto.
  - destruct (getitem joints "R_shoulder") as [sh|]; [|discriminate].
    destruct (getitem joints "L_wrist") as [w1|]; [|discriminate].
    destruct (getitem joints "nose") as [nose|]; [|discriminate].
    destruct (flag l) eqn:E; cbn [negb]; rewrite ?andb_false_r, ?andb_true_r;
      repeat match goal with
             | |- context [if ?b then _ else _] => destruct b
             end; intros [= <- <-]; auto.
Qed.

Lemma by_sides_frame_counts (p : OneAngle) :
  counts_by_transitions (by_sides_frame p).
Proof.
  intros joints l l' s s' cam cam'. unfold by_sides_frame, cam_bind.
  destruct (angle_of joints _ _ _ "R_1" cam) as [[ra | e] cam1]; [|discriminate].
  destruct (angle_of joints _ _ _ "L_1" cam1) as [[la | e] cam2]; [|discriminate].
  intros [= H _]. eapply decide_by_sides_counts, H.
Qed.

(** X6.  What one frame does to counter and phase, in each of the four
    evaluators: nothing, or the step from [UP] back to [DOWN] with the
    counter as it is, or, from [DOWN] only, one repetition counted in the
    counter and in both totals of [Settings].  No frame counts twice, counts
    in the phase [UP], or lowers the counter. *)
Theorem evaluators_count_on_down_to_up :
  (forall (p : TwoAngles), counts_by_transitions (two_angles_frame (measure_two_angles p) p))
  /\ (forall (p : TwoAngles) (diff_size : Q),
        counts_by_transitions (axis_check_frame p diff_size))
  /\ (forall (p : ThreeAngles), counts_by_transitions (three_angles_frame p))
  /\ (forall (p : OneAngle), counts_by_transitions (by_sides_frame p)).
Proof.
  split; [|split; [|split]].
  - intros p. apply two_angles_frame_counts.
  - apply axis_check_frame_counts.
  - apply three_angles_frame_counts.
  - apply by_sides_frame_counts.
Qed.

End EvaluatorFacts.

(** [exercise_two_angles_3d] is the shared loop around its frame. *)
Lemma two_angles_loop_exercise_loop {F : Type} (measure : F -> CamM Angles)
    (p : TwoAngles) (ticks : list (Tick F)) :
  forall (w : Where) (l : Local) (s : Settings) (cam : Camera),
  two_angles_loop measure p ticks w l s cam
  = exercise_loop (two_angles_frame measure p) (exercise_name p) ticks w l s cam.
Proof.
  induction ticks as [|t ticks IH]; intros w l s cam; [reflexivity|].
  cbn [two_angles_loop exercise_loop].
  assert (E : two_angles_pass measure p t w l s cam
              = exercise_pass (two_angles_frame measure p) (exercise_name p)
                  t w l s cam).
  { unfold two_angles_pass, exercise_pass, two_angles_body, exercise_body.
    destruct (match w with AtTest => _ | InPause => false end); [reflexivity|].
    destruct (_ && _); [reflexivity|].
    destruct (frame t) as [joints|]; [|reflexivity].
    unfold two_angles_frame, cam_bind, cam_ret.
    destruct (measure joints cam) as [[a | e] cam1]; [|reflexivity].
    destruct (decide_two_angles p a l _); reflexivity. }
  rewrite E.
  destruct (exercise_pass _ _ t w l s cam); rewrite ?IH; reflexivity.
Qed.

Section LoopFacts.
Context {F : Type} (frame_step : F -> Local -> Settings -> CamM (Local * Settings)).
Hypothesis Hstep : counts_by_transitions frame_step.
Variable exercise : string.

Lemma counted_from_step (c0 c1 : Z) (s0 s1 : Settings) (o : Outcome) :
  (c0 <= c1)%Z -> rep s1 = rep s0 ->
  number_of_repetitions_in_training s1
  = (number_of_repetitions_in_training s0 + (c1 - c0))%Z ->
  patient_repetitions_counting_in_exercise s1
  = (patient_repetitions_counting_in_exercise s0 + (c1 - c0))%Z ->
  success_exercise s1 = success_exercise s0 ->
  counted_from exercise c1 s1 o -> counted_from exercise c0 s0 o.
Proof.
  intros Hc Hrep Hnum Hpat Hsuc. destruct o as [c s' cam' | e s' cam' | w l' s' cam'];
    cbn [counted_from]; rewrite ?Hrep, ?Hnum, ?Hpat, ?Hsuc.
  - intros (H1 & H2 & H3 & H4 & H5 & H6). repeat split; try lia; auto.
  - intros (H1 & H2). auto.
  - intros (H1 & H2 & H3 & H4 & H5). repeat split; try lia; auto.
Qed.

Lemma check_target_cases (l : Local) (s : Settings) (cam : Camera) :
  (counter l = rep s
   /\ check_target l s cam
      = Leave l (set_success_exercise true (set_req_exercise "" s)) cam)
  \/ (counter l <> rep s /\ check_target l s cam = Continue l s cam).
Proof.
  unfold check_target. destruct (Z.eqb_spec (counter l) (rep s)); auto.
Qed.

Lemma exercise_loop_counted (ticks : list (Tick F)) :
  forall (w : Where) (l : Local) (s : Settings) (cam : Camera),
  below_target l s ->
  counted_from exercise (counter l) s (exercise_loop frame_step exercise ticks w l s cam).
Proof.
  induction ticks as [|t ticks IH]; intros w l s cam Hbelow.
  { cbn. destruct Hbelow as [H | [H _]]; repeat split; lia. }
  cbn [exercise_loop]. unfold exercise_pass.
  destruct (apply_requests_kept (requests t) s) as (Hrep & Hsuc & Hnum & Hpat).
  set (s1 := apply_requests (requests t) s) in *.
  assert (Hbelow1 : below_target l s1) by (unfold below_target; rewrite Hrep; exact Hbelow).
  assert (Hcarry : forall o, counted_from exercise (counter l) s1 o ->
                             counted_from exercise (counter l) s o).
  { intros o. apply counted_from_step; try lia; try assumption. }
  destruct (match w with AtTest => _ | InPause => false end).
  { apply Hcarry. cbn. rewrite lookup_insert_eq.
    destruct Hbelow1 as [H | [H _]]; repeat split; try lia; auto. }
  destruct (did_training_paused s1 && negb (stop_requested s1)).
  { apply Hcarry, IH, Hbelow1. }
  unfold exercise_body. destruct (frame t) as [joints|].
  - destruct (frame_step joints l s1 cam) as [[[l2 s2] | e] cam2] eqn:Estep.
    + apply Hstep in Estep.
      assert (Hl2 : (counter l <= counter l2 <= rep s1)%Z
                    /\ rep s2 = rep s1
                    /\ number_of_repetitions_in_training s2
                       = (number_of_repetitions_in_training s1
                          + (counter l2 - counter l))%Z
                    /\ patient_repetitions_counting_in_exercise s2
                       = (patient_repetitions_counting_in_exercise s1
                          + (counter l2 - counter l))%Z
                    /\ success_exercise s2 = success_exercise s1).
      { destruct Estep as [[-> ->] | [(Hf & -> & ->) | (Hf & Hc)]].
        - destruct Hbelow1 as [H | [H _]]; repeat split; lia.
        - cbn. destruct Hbelow1 as [H | [H _]]; repeat split; lia.
        - unfold count_repetition in Hc. injection Hc as -> ->. cbn.
          destruct Hbelow1 as [H | [_ H]]; [|congruence]. repeat split; lia. }
      destruct Hl2 as (Hc2 & Hrep2 & Hnum2 & Hpat2 & Hsuc2).
      apply Hcarry.
      destruct (check_target_cases l2 s2 cam2) as [[Heq ->] | [Hne ->]].
      * cbn. rewrite lookup_insert_eq. repeat split; try lia; auto.
      * eapply (counted_from_step (counter l) (counter l2) s1 s2);
          try lia; try assumption.
        apply IH. left. lia.
    + apply Hcarry. cbn. auto.
  - apply Hcarry.
    destruct (check_target_cases l s1 cam) as [[Heq ->] | [Hne ->]].
    + cbn. rewrite lookup_insert_eq. repeat split; try lia; auto.
    + apply IH. destruct Hbelow1 as [H | [H _]]; [left; exact H | contradiction].
Qed.

Lemma exercise_loop_counts (ticks : list (Tick F)) (s : Settings) (cam : Camera) :
  (0 <= rep s)%Z ->
  counted_from exercise 0 s
    (exercise_loop frame_step exercise ticks AtTest Local_init s cam).
Proof.
  intros Hrep. apply (exercise_loop_counted ticks AtTest Local_init s cam).
  unfold below_target, Local_init. cbn. lia.
Qed.

(** With [s.req_exercise] left alone by the other threads, the loop is left
    at the target only. *)
Lemma exercise_loop_returns_at_target (ticks : list (Tick F)) :
  forall (w : Where) (l : Local) (s : Settings) (cam : Camera)
         (c : Z) (s' : Settings) (cam' : Camera),
  request_kept ticks -> req_exercise s = exercise ->
  exercise_loop frame_step exercise ticks w l s cam = Returned c s' cam' ->
  c = rep s /\ success_exercise s' = true /\ req_exercise s' = "".
Proof.
  induction ticks as [|t ticks IH]; intros w l s cam c s' cam' Hkept Hreq;
    [discriminate|].
  apply Forall_cons in Hkept as [Ht Hticks].
  cbn [exercise_loop]. unfold exercise_pass.
  destruct (apply_requests_kept (requests t) s) as (Hrep & _).
  pose proof (apply_requests_req_kept (requests t) s Ht) as Hreq1.
  set (s1 := apply_requests (requests t) s) in *.
  rewrite Hreq in Hreq1.
  assert (Hstay : match w with
                  | AtTest => negb (String.eqb (req_exercise s1) exercise)
                  | InPause => false
                  end = false).
  { destruct w; [|reflexivity]. rewrite Hreq1, String.eqb_refl. reflexivity. }
  rewrite Hstay.
  destruct (did_training_paused s1 && negb (stop_requested s1)).
  { intros H. rewrite <- Hrep. eapply IH; eauto. }
  unfold exercise_body. destruct (frame t) as [joints|].
  - destruct (frame_step joints l s1 cam) as [[[l2 s2] | e] cam2] eqn:Estep;
      [|discriminate].
    apply Hstep in Estep.
    assert (Hs2 : rep s2 = rep s1 /\ req_exercise s2 = exercise).
    { destruct Estep as [[-> ->] | [(Hf & -> & ->) | (Hf & Hc)]]; auto.
      unfold count_repetition in Hc. injection Hc as -> ->. auto. }
    destruct Hs2 as [Hrep2 Hreq2].
    destruct (check_target_cases l2 s2 cam2) as [[Heq ->] | [Hne ->]].
    + intros [= <- <- <-]. cbn. split; [congruence | auto].
    + intros H. rewrite <- Hrep, <- Hrep2. eapply IH; eauto.
  - destruct (check_target_cases l s1 cam) as [[Heq ->] | [Hne ->]].
    + intros [= <- <- <-]. cbn. split; [congruence | auto].
    + intros H. rewrite <- Hrep. eapply IH; eauto.
Qed.

End LoopFacts.

Section MethodFacts.
Context {np : NumPy}.

(** Each method is the shared loop around a frame that counts by
    transitions. *)
Lemma exercise_method_loop (exercise : string) (run : Method) :
  exercise_method exercise run ->
  exists frame_step,
    counts_by_transitions frame_step
    /\ forall ticks s cam,
         run ticks s cam
         = exercise_loop frame_step exercise ticks AtTest Local_init s cam.
Proof.
  intros [p | p diff_size | p | p].
  - exists (two_angles_frame (measure_two_angles p) p).
    split; [apply two_angles_frame_counts|]. intros ticks s cam.
    apply two_angles_loop_exercise_loop.
  - exists (axis_check_frame p diff_size).
    split; [apply axis_check_frame_counts | reflexivity].
  - exists (three_angles_frame p).
    split; [apply three_angles_frame_counts | reflexivity].
  - exists (by_sides_frame p).
    split; [apply by_sides_frame_counts | reflexivity].
Qed.

(** X7.  For each of the four exercise methods and every script of ticks,
    with a target [s.rep >= 0]: the counter stays between 0 and the target;
    [s.number_of_repetitions_in_training] and
    [s.patient_repetitions_counting_in_exercise] have grown by the counter;
    a method that returns has written the counter into [s.ex_list] under
    the name of the exercise, and has left [s.success_exercise] alone
    unless the target was reached; an exception leaves it alone too. *)
Theorem exercise_method_counts (exercise : string) (run : Method)
    (ticks : list (Tick Skeleton)) (s : Settings) (cam : Camera) :
  exercise_method exercise run ->
  (0 <= rep s)%Z ->
  counted_from exercise 0 s (run ticks s cam).
Proof.
  intros Hm Hrep. destruct (exercise_method_loop exercise run Hm)
    as (frame_step & Hstep & ->).
  apply exercise_loop_counts; assumption.
Qed.

(** X8.  As long as no other thread writes [s.req_exercise], an exercise
    method returns only with the target reached: the counter is [s.rep],
    [s.success_exercise] is set and [s.req_exercise] is emptied.  A stop
    request alone ([s.stop_requested]) does not end the method. *)
Theorem exercise_method_returns_at_target (exercise : string) (run : Method)
    (ticks : list (Tick Skeleton)) (s s' : Settings) (cam cam' : Camera) (c : Z) :
  exercise_method exercise run ->
  request_kept ticks ->
  req_exercise s = exercise ->
  run ticks s cam = Returned c s' cam' ->
  c = rep s /\ success_exercise s' = true /\ req_exercise s' = "".
Proof.
  intros Hm Hkept Hreq. destruct (exercise_method_loop exercise run Hm)
    as (frame_step & Hstep & ->).
  apply exercise_loop_returns_at_target; assumption.
Qed.

End MethodFacts.

(** ** Pauses and frames without motion *)

Section PauseFacts.
Context {np : NumPy}.

(** A reading on an empty slot is the raw angle, rounded. *)
Lemma angle_of_fresh (joints : Skeleton) (k1 k2 k3 slot : string)
    (cam cam' : Camera) (a : option float) :
  previous_angles cam !! slot = None ->
  angle_of joints k1 k2 k3 slot cam = (Ok a, cam') ->
  a = round2 <$> raw_of joints k1 k2 k3
  /\ exists r, previous_angles cam' = <[slot := r]> (previous_angles cam).
Proof.
  intros Hslot. unfold angle_of, cam_bind, lookup_joint, getitem, raw_of.
  destruct (joints !! k1) as [j1|]; [|discriminate].
  destruct (joints !! k2) as [j2|]; [|discriminate].
  destruct (joints !! k3) as [j3|]; [|discriminate].
  unfold calc_angle_3d, smooth_and_store. rewrite Hslot.
  intros [= <- <-]. split; [reflexivity|]. eexists. reflexivity.
Qed.

(** X9.  A turn of the pause loop reads no frame, leaves phase and counter
    as they are and empties every smoothing slot.  Hence the four angles
    [exercise_two_angles_3d] measures on the first frame after a pause are
    the raw angles of that frame, rounded, with no limit on the jump. *)
Theorem pause_resets_smoothing {F : Type}
    (frame_step : F -> Local -> Settings -> CamM (Local * Settings))
    (exercise : string) (t : Tick F) (w : Where) (l l' : Local)
    (s s' : Settings) (cam cam' : Camera) :
  exercise_pass frame_step exercise t w l s cam = Pause l' s' cam' ->
  l' = l
  /\ previous_angles cam' = ∅
  /\ forall (p : TwoAngles) (joints : Skeleton) (a : Angles) (cam'' : Camera),
       measure_two_angles p joints cam' = (Ok a, cam'') ->
       let side6 (other this : string) :=
         (if use_alternate_angles p then other else this) +:+ joint6 p in
       right_angle a
       = round2 <$> raw_of joints ("R_" +:+ joint1 p) ("R_" +:+ joint2 p)
                      ("R_" +:+ joint3 p)
       /\ left_angle a
          = round2 <$> raw_of joints ("L_" +:+ joint1 p) ("L_" +:+ joint2 p)
                         ("L_" +:+ joint3 p)
       /\ right_angle2 a
          = round2 <$> raw_of joints ("R_" +:+ joint4 p) ("R_" +:+ joint5 p)
                         (side6 "L_" "R_")
       /\ left_angle2 a
          = round2 <$> raw_of joints ("L_" +:+ joint4 p) ("L_" +:+ joint5 p)
                         (side6 "R_" "L_").
Proof.
  unfold exercise_pass.
  destruct (match w with AtTest => _ | InPause => false end); [discriminate|].
  destruct (did_training_paused _ && negb (stop_requested _)).
  2: { unfold exercise_body. destruct (frame t) as [joints|].
       - destruct (frame_step joints l _ cam) as [[[l2 s2] | e] cam2];
           [|discriminate].
         unfold check_target. destruct (_ =? _)%Z; discriminate.
       - unfold check_target. destruct (_ =? _)%Z; discriminate. }
  intros [= <- <- <-]. split; [reflexivity|]. split; [reflexivity|].
  intros p joints a cam''. unfold measure_two_angles, cam_bind.
  set (cam0 := set_previous_angles ∅ cam).
  assert (H0 : previous_angles cam0 = ∅) by reflexivity. clearbody cam0.
  destruct (angle_of joints _ _ _ "R_1" cam0) as [[ra | e] cam1] eqn:E1;
    [|destruct (use_alternate_angles p); discriminate].
  apply angle_of_fresh in E1 as [-> [r1 H1]]; [|rewrite H0; reflexivity].
  destruct (angle_of joints _ _ _ "L_1" cam1) as [[la | e] cam2] eqn:E2;
    [|destruct (use_alternate_angles p); discriminate].
  apply angle_of_fresh in E2 as [-> [r2 H2]];
    [|rewrite H1, H0; reflexivity].
  destruct (use_alternate_angles p).
  - destruct (angle_of joints _ _ _ "R_2" cam2) as [[ra2 | e] cam3] eqn:E3;
      [|discriminate].
    apply angle_of_fresh in E3 as [-> [r3 H3]];
      [|rewrite H2, H1, H0; reflexivity].
    destruct (angle_of joints _ _ _ "L_2" cam3) as [[la2 | e] cam4] eqn:E4;
      [|discriminate].
    apply angle_of_fresh in E4 as [-> [r4 H4]];
      [|rewrite H3, H2, H1, H0; reflexivity].
    intros [= <- _]. cbn. auto.
  - destruct (angle_of joints _ _ _ "R_2" cam2) as [[ra2 | e] cam3] eqn:E3;
      [|discriminate].
    apply angle_of_fresh in E3 as [-> [r3 H3]];
      [|rewrite H2, H1, H0; reflexivity].
    destruct (angle_of joints _ _ _ "L_2" cam3) as [[la2 | e] cam4] eqn:E4;
      [|discriminate].
    apply angle_of_fresh in E4 as [-> [r4 H4]];
      [|rewrite H3, H2, H1, H0; reflexivity].
    intros [= <- _]. cbn. auto.
Qed.

End PauseFacts.

Section StillFrames.
Variable p : TwoAngles.
Variable a : Angles.

Lemma pass_quiet_tracking (l : Local) (s : Settings) (cam : Camera) :
  req_exercise s = exercise_name p -> did_training_paused s = false ->
  two_angles_pass cam_ret p (quiet a) AtTest l s cam
  = check_target (transition (up_condition p a) (down_condition p a) l s).1
      (transition (up_condition p a) (down_condition p a) l s).2 cam.
Proof.
  intros Hreq Hpause. unfold two_angles_pass, quiet.
  cbn [requests frame apply_requests fold_left].
  rewrite Hreq, String.eqb_refl, Hpause. cbn [negb andb two_angles_body cam_ret].
  rewrite decide_two_angles_transition.
  destruct (transition _ _ l s). reflexivity.
Qed.

Lemma two_still_frames (n : nat) :
  up_condition p a = true -> down_condition p a = true ->
  forall (c : Z) (s : Settings) (cam : Camera),
  req_exercise s = exercise_name p -> did_training_paused s = false ->
  rep s = (c + Z.of_nat (S n))%Z ->
  exists s' cam',
    two_angles_loop cam_ret p (repeat (quiet a) (2 * S n)) AtTest
      {| flag := true; counter := c |} s cam
    = Returned (rep s) s' cam'
    /\ success_exercise s' = true.
Proof.
  intros Hup Hdown. induction n as [|n IH]; intros c s cam Hreq Hpause Hrep.
  - cbn [Nat.mul Nat.add repeat two_angles_loop].
    rewrite pass_quiet_tracking by assumption.
    rewrite Hup, Hdown. unfold transition, check_target. cbn.
    destruct (Z.eqb_spec c (rep s)) as [E | _]; [lia|].
    rewrite pass_quiet_tracking by assumption.
    rewrite Hup. unfold transition, check_target. cbn.
    destruct (Z.eqb_spec (c + 1) (rep s)) as [E | E]; [|lia].
    rewrite E. eauto.
  - replace (2 * S (S n))%nat with (S (S (2 * S n))) by lia.
    cbn [repeat two_angles_loop].
    rewrite pass_quiet_tracking by assumption.
    rewrite Hup, Hdown. unfold transition, check_target. cbn [andb negb flag fst snd counter].
    destruct (Z.eqb_spec c (rep s)) as [E | _]; [lia|].
    rewrite pass_quiet_tracking by assumption.
    rewrite Hup. unfold transition, check_target.
    cbn [andb negb flag fst snd counter count_repetition].
    match goal with |- context [(?x =? ?y)%Z] => destruct (Z.eqb_spec x y) as [E | _] end.
    { cbn in E. lia. }
    match goal with
    | |- context [two_angles_loop _ _ _ _ _ ?s1 cam] =>
        destruct (IH (c + 1)%Z s1 cam) as (s' & cam' & Hrun & Hs'); [auto..| |]
    end.
    { cbn. lia. }
    exists s', cam'. split; [exact Hrun | exact Hs'].
Qed.


Lemma still_frame_loop (n : nat) :
  up_condition p a && down_condition p a = false ->
  forall (w : Where) (l : Local) (s : Settings) (cam : Camera),
  req_exercise s = exercise_name p -> rep s <> 0%Z ->
  counter l = 0%Z -> flag l = true \/ up_condition p a = false ->
  exists w' l' cam',
    two_angles_loop cam_ret p (repeat (quiet a) n) w l s cam
    = Running w' l' s cam'
    /\ counter l' = 0%Z.
Proof.
  intros Hnot. induction n as [|n IH]; intros w l s cam Hreq Hrep Hc Hl.
  { cbn. eauto. }
  cbn [repeat two_angles_loop]. unfold two_angles_pass, quiet.
  cbn [requests frame apply_requests fold_left].
  rewrite Hreq, String.eqb_refl.
  replace (match w with AtTest => negb true | InPause => false end) with false
    by (destruct w; reflexivity).
  destruct (did_training_paused s && negb (stop_requested s)).
  { apply IH; assumption. }
  cbn [two_angles_body cam_ret]. rewrite decide_two_angles_transition.
  assert (Ht : exists l2, transition (up_condition p a) (down_condition p a) l s
                          = (l2, s)
                          /\ counter l2 = 0%Z
                          /\ (flag l2 = true \/ up_condition p a = false)).
  { unfold transition.
    destruct (up_condition p a), (down_condition p a), (flag l) eqn:Ef;
      cbn [andb negb] in *; try discriminate; eauto;
      destruct Hl; try discriminate; eauto. }
  destruct Ht as (l2 & -> & Hc2 & Hl2).
  unfold check_target. rewrite Hc2.
  destruct (Z.eqb_spec 0 (rep s)) as [E | _]; [congruence|].
  apply IH; assumption.
Qed.


End StillFrames.

(** ** The axis check and the check by sides *)

(** X12.  The axis check of [exercise_two_angles_3d_with_axis_check]: with
    [left_right_differ] off the method decides as [exercise_two_angles_3d]
    does and looks no shoulder up; with it on, a frame without
    ["L_shoulder"], or else without ["R_shoulder"], raises [KeyError]
    whatever the angles are, and a frame whose shoulders are not less
    than 200 apart in [x] changes nothing.  The parameter [diff_size] plays no
    part. *)
Theorem decide_with_axis_check_cases (p : TwoAngles) (diff_size : Q)
    (joints : Skeleton) (a : Angles) (l : Local) (s : Settings) :
  (left_right_differ p = false ->
   decide_with_axis_check p diff_size joints a l s
   = Ok (decide_two_angles p a l s))
  /\ (left_right_differ p = true ->
      is_Some (right_angle a) -> is_Some (left_angle a) ->
      is_Some (right_angle2 a) -> is_Some (left_angle2 a) ->
      (joints !! "L_shoulder" = None ->
       decide_with_axis_check p diff_size joints a l s
       = Raise (KeyError "L_shoulder"))
      /\ (is_Some (joints !! "L_shoulder") -> joints !! "R_shoulder" = None ->
          decide_with_axis_check p diff_size joints a l s
          = Raise (KeyError "R_shoulder"))
      /\ (shoulders_close joints = Ok false ->
          decide_with_axis_check p diff_size joints a l s = Ok (l, s))).
Proof.
  split.
  - intros Hd. rewrite decide_two_angles_transition.
    unfold decide_with_axis_check, up_condition, down_condition, transition.
    rewrite Hd.
    destruct (right_angle a), (left_angle a), (right_angle2 a), (left_angle2 a);
      reflexivity.
  - intros Hd [ra Hra] [la Hla] [ra2 Hra2] [la2 Hla2].
    unfold decide_with_axis_check. rewrite Hd, Hra, Hla, Hra2, Hla2.
    unfold shoulders_close, result_bind, getitem. repeat split.
    + intros ->. reflexivity.
    + intros [j ->] ->. reflexivity.
    + destruct (joints !! "L_shoulder") as [ls|]; [|discriminate].
      destruct (joints !! "R_shoulder") as [rs|]; [|discriminate].
      intros [= ->]. rewrite !andb_false_r. reflexivity.
Qed.

Section BySides.
Context {np : NumPy}.

Lemma angle_of_present (joints : Skeleton) (k1 k2 k3 slot : string) (cam : Camera) :
  is_Some (joints !! k1) -> is_Some (joints !! k2) -> is_Some (joints !! k3) ->
  exists a cam', angle_of joints k1 k2 k3 slot cam = (Ok (Some a), cam').
Proof.
  intros [j1 H1] [j2 H2] [j3 H3].
  unfold angle_of, cam_bind, lookup_joint, getitem. rewrite H1, H2, H3.
  destruct (calc_angle_3d_camera cam j1 j2 j3 slot) as [a ->]. eauto.
Qed.

(** X13.  [exercise_one_angle_3d_by_sides] looks the joint ["nose"] up on
    every frame whose angles it could measure: a frame with the joints of
    the angle, the wrist and the shoulder but without ["nose"] raises
    [KeyError], in the phase [UP] as well, where the nose decides
    nothing. *)
Theorem by_sides_frame_needs_the_nose (p : OneAngle) (joints : Skeleton)
    (l : Local) (s : Settings) (cam : Camera) :
  (forall k, k ∈ [one_joint1 p; one_joint2 p; one_joint3 p] ->
             is_Some (joints !! ("R_" +:+ k)) /\ is_Some (joints !! ("L_" +:+ k))) ->
  is_Some (joints !! (if String.eqb (side p) "right" then "R_wrist" else "L_wrist")) ->
  is_Some (joints !! (if String.eqb (side p) "right" then "L_shoulder"
                      else "R_shoulder")) ->
  joints !! "nose" = None ->
  exists cam', by_sides_frame p joints l s cam = (Raise (KeyError "nose"), cam').
Proof.
  intros Hj Hwrist Hshoulder Hnose.
  destruct (Hj (one_joint1 p)) as [R1 L1]; [repeat constructor|].
  destruct (Hj (one_joint2 p)) as [R2 L2]; [repeat constructor|].
  destruct (Hj (one_joint3 p)) as [R3 L3]; [repeat constructor|].
  unfold by_sides_frame, cam_bind.
  destruct (angle_of_present joints _ _ _ "R_1" cam R1 R2 R3) as (ra & cam1 & ->).
  destruct (angle_of_present joints _ _ _ "L_1" cam1 L1 L2 L3) as (la & cam2 & ->).
  exists cam2. f_equal. unfold decide_by_sides, result_bind, getitem.
  destruct (String.eqb (side p) "right");
    destruct Hwrist as [wr ->], Hshoulder as [sh ->]; rewrite Hnose; reflexivity.
Qed.

End BySides.

(** ** What a calibration records *)

Lemma flt_asym (a b : float) : flt a b = true -> flt b a = false.
Proof.
  destruct a as [a| | |], b as [b| | |]; cbn; try reflexivity; try discriminate.
  intros H. apply Qlt_bool_iff in H. apply Qlt_bool_false_iff.
  apply Qlt_le_weak, H.
Qed.

Lemma positive_ordered (a b : float) :
  fgt a (Fin 0%Q) = true -> fgt b (Fin 0%Q) = true -> flt a b = false ->
  fle b a = true.
Proof.
  destruct a as [a| | |], b as [b| | |]; cbn; try reflexivity; try discriminate.
  intros _ _ H. apply Qlt_bool_false_iff in H. apply Qle_bool_iff, H.
Qed.

Lemma fold_left_fmax_in (rest : list float) :
  forall a, fold_left fmax rest a ∈ a :: rest.
Proof.
  induction rest as [|b rest IH]; intros a; cbn [fold_left].
  - left.
  - specialize (IH (fmax a b)). apply elem_of_cons in IH as [-> | IH].
    + unfold fmax. destruct (flt a b); [right; left | left].
    + right. right. exact IH.
Qed.

Lemma fold_left_fmin_in (rest : list float) :
  forall a, fold_left fmin rest a ∈ a :: rest.
Proof.
  induction rest as [|b rest IH]; intros a; cbn [fold_left].
  - left.
  - specialize (IH (fmin a b)). apply elem_of_cons in IH as [-> | IH].
    + unfold fmin. destruct (flt b a); [right; left | left].
    + right. right. exact IH.
Qed.

Section RecordFacts.
Context {np : NumPy}.

(** Every sample of a window is above zero. *)
Lemma capture_loop_positive (joints : string * string * string)
    (duration start : Z) (stop : Z -> bool) (frames : list Frame) :
  forall (samples samples' : list float) (now : Z) (cam : Camera) (w' : World),
  Forall (fun a => fgt a (Fin 0%Q) = true) samples ->
  capture_loop joints duration start samples stop frames now cam
  = Some (Collected samples', w') ->
  Forall (fun a => fgt a (Fin 0%Q) = true) samples'.
Proof.
  induction frames as [|f frames IH]; intros samples samples' now cam w' Hpos;
    cbn [capture_loop]; destruct (now - start <? duration)%Z;
    try (intros [= <- _]; exact Hpos).
  - destruct (stop now); discriminate.
  - destruct (stop now); [discriminate|].
    destruct (skeleton f) as [sk|]; [|apply IH, Hpos].
    destruct (capture_sample_cases joints sk samples cam) as [E | (a & E & Ha)];
      destruct (capture_sample joints sk samples cam) as [samples1 cam1];
      cbn [fst] in E; subst samples1; apply IH.
    + exact Hpos.
    + apply Forall_app. split; [exact Hpos | repeat constructor; exact Ha].
Qed.

Lemma capture_angle_positive (joints : string * string * string) (duration : Z)
    (target : Target) (w w' : World) (a : float) :
  capture_angle joints duration target w = Some (Some a, w') ->
  fgt a (Fin 0%Q) = true.
Proof.
  unfold capture_angle, capture_window.
  destruct (capture_loop joints duration (clock w) [] (stop_at w) (feed w)
              (clock w) (camera w)) as [[[|samples] w1]|] eqn:E; try discriminate.
  apply capture_loop_positive in E; [|constructor].
  intros [= H _]. rewrite Forall_forall in E. apply E.
  destruct samples as [|b rest]; [destruct target; discriminate|].
  destruct target; cbn in H; injection H as <-;
    [apply fold_left_fmax_in | apply fold_left_fmin_in].
Qed.

Lemma capture_angle_world (joints : string * string * string) (duration : Z)
    (target : Target) (w w' : World) (r : option float) :
  capture_angle joints duration target w = Some (r, w') ->
  stop_at w' = stop_at w /\ (clock w <= clock w')%Z.
Proof.
  unfold capture_angle, capture_window.
  destruct (capture_loop joints duration (clock w) [] (stop_at w) (feed w)
              (clock w) (camera w)) as [[win w1]|] eqn:E; [|discriminate].
  intros H. assert (w1 = w') as -> by (destruct win; congruence). clear H.
  split; [eapply capture_loop_exit, E|].
  revert E. generalize (@nil float) as samples. generalize (camera w) as cam.
  generalize (Z.le_refl (clock w)). generalize (clock w) at 2 4 as now.
  induction (feed w) as [|f frames IH]; intros now Hnow cam samples;
    cbn [capture_loop]; destruct (now - clock w <? duration)%Z;
    try (intros [= _ <-]; exact Hnow).
  - destruct (stop_at w now); [|discriminate]. intros [= _ <-]. exact Hnow.
  - destruct (stop_at w now); [intros [= _ <-]; exact Hnow|].
    destruct (match skeleton f with
              | Some sk => capture_sample joints sk samples cam
              | None => (samples, cam)
              end) as [samples1 cam1].
    apply IH. lia.
Qed.

(** A measurement that succeeds gives two angles above zero, the larger
    one first. *)
Lemma measure_rom_ordered (m : Measurement) (w w' : World) (mx mn : float) :
  measure_rom m w = Some (Some (mx, mn), w') ->
  fgt mn (Fin 0%Q) = true /\ fle mn mx = true.
Proof.
  unfold measure_rom.
  destruct (capture_angle (joints m) 4000 target_max (sleep 2000 w))
    as [[[a|] w1]|] eqn:E1; try discriminate.
  destruct (capture_angle (joints m) 4000 target_min (sleep 2000 (sleep 1000 w1)))
    as [[[b|] w2]|] eqn:E2; try discriminate.
  apply capture_angle_positive in E1, E2.
  destruct (flt a b) eqn:E; intros [= <- <- _].
  - split; [exact E1|]. apply positive_ordered; auto using flt_asym.
  - split; [exact E2|]. apply positive_ordered; auto.
Qed.

Lemma measure_rom_world (m : Measurement) (w w' : World)
    (r : option (float * float)) :
  measure_rom m w = Some (r, w') ->
  stop_at w' = stop_at w /\ (clock w <= clock w')%Z.
Proof.
  unfold measure_rom.
  destruct (capture_angle (joints m) 4000 target_max (sleep 2000 w))
    as [[[a|] w1]|] eqn:E1; try discriminate;
    apply capture_angle_world in E1 as [S1 C1]; cbn in S1, C1.
  - destruct (capture_angle (joints m) 4000 target_min (sleep 2000 (sleep 1000 w1)))
      as [[[b|] w2]|] eqn:E2; try discriminate;
      apply capture_angle_world in E2 as [S2 C2]; cbn in S2, C2.
    + destruct (flt a b); intros [= _ <-]; split; [congruence | lia | congruence | lia].
    + intros [= _ <-]. split; [congruence | lia].
  - intros [= _ <-]. split; [congruence | lia].
Qed.

(** The keys a measurement writes. *)
Lemma run_measurements_world (ms : list Measurement) :
  forall (rom rom' : gmap string float) (w w' : World) (ok : bool),
  run_measurements ms rom w = Some (ok, rom', w') ->
  stop_at w' = stop_at w /\ (clock w <= clock w')%Z
  /\ (ok = false -> stop_at w (clock w') = true).
Proof.
  induction ms as [|m ms IH]; intros rom rom' w w' ok; cbn [run_measurements].
  - intros [= <- _ <-]. split; [reflexivity|]. split; [lia | discriminate].
  - destruct (stop_at w (clock w)) eqn:Hs.
    + intros [= <- _ <-]. split; [reflexivity|]. split; [lia | auto].
    + unfold record_measurement.
      destruct (measure_rom m w) as [[r w1]|] eqn:E; [|discriminate].
      apply measure_rom_world in E as [S1 C1].
      intros H. apply IH in H as (S2 & C2 & Hstop). cbn in S2, C2.
      split; [congruence|]. split; [lia|].
      intros Hok. specialize (Hstop Hok). cbn in Hstop. rewrite S1 in Hstop.
      exact Hstop.
Qed.

End RecordFacts.

Lemma positive_not_below_zero (a : float) :
  fgt a (Fin 0%Q) = true -> fle (Fin 0%Q) a = true.
Proof.
  destruct a as [a| | |]; cbn; try reflexivity; try discriminate.
  intros H. apply Qlt_bool_iff in H. apply Qle_bool_iff, Qlt_le_weak, H.
Qed.

Section RecordTheorems.
Context {np : NumPy}.

Lemma run_measurements_record (ms : list Measurement) :
  NoDup (flat_map rom_keys ms) ->
  Forall (fun m => fle (Fin 0%Q) (normal_min m) = true
                   /\ fle (normal_min m) (normal_max m) = true) ms ->
  forall (rom rom' : gmap string float) (w w' : World),
  run_measurements ms rom w = Some (true, rom', w') ->
  (forall m, m ∈ ms ->
     exists mx mn,
       rom' !! (name m +:+ "_Max") = Some mx
       /\ rom' !! (name m +:+ "_Min") = Some mn
       /\ fle (Fin 0%Q) mn = true /\ fle mn mx = true)
  /\ (forall k, k ∉ flat_map rom_keys ms -> rom' !! k = rom !! k).
Proof.
  induction ms as [|m ms IH]; intros Hdup Hnormal rom rom' w w';
    cbn [run_measurements].
  { intros [= <- _]. split; [intros m Hm; inversion Hm | reflexivity]. }
  cbn [flat_map] in Hdup. apply NoDup_app in Hdup as (Hm & Hfresh & Hrest).
  apply Forall_cons in Hnormal as [[Hn0 Hn1] Hnormal].
  destruct (stop_at w (clock w)); [discriminate|].
  unfold record_measurement.
  destruct (measure_rom m w) as [[r w1]|] eqn:E; [|discriminate].
  set (rom1 := match r with
               | Some (max_val, min_val) =>
                   <[name m +:+ "_Min" := min_val]>
                     (<[name m +:+ "_Max" := max_val]> rom)
               | None =>
                   <[name m +:+ "_Min" := normal_min m]>
                     (<[name m +:+ "_Max" := normal_max m]> rom)
               end).
  assert (Hkeys : name m +:+ "_Max" <> name m +:+ "_Min").
  { unfold rom_keys in Hm. apply NoDup_cons in Hm as [Hm _].
    intros Heq. apply Hm. rewrite Heq. left. }
  assert (H1 : exists mx mn,
             rom1 = <[name m +:+ "_Min" := mn]> (<[name m +:+ "_Max" := mx]> rom)
             /\ fle (Fin 0%Q) mn = true /\ fle mn mx = true).
  { destruct r as [[mx mn]|].
    - apply measure_rom_ordered in E as [Hpos Hord].
      exists mx, mn. auto using positive_not_below_zero.
    - exists (normal_max m), (normal_min m). auto. }
  destruct H1 as (mx & mn & Hrom1 & Hpos & Hord). clearbody rom1.
  intros H. destruct (IH Hrest Hnormal _ _ _ _ H) as [Hin Hout]. split.
  - intros m' Hm'. apply elem_of_cons in Hm' as [-> | Hm']; [|apply Hin, Hm'].
    exists mx, mn. rewrite !Hout, Hrom1.
    + rewrite lookup_insert_ne, !lookup_insert_eq by (symmetry; exact Hkeys). auto.
    + apply Hfresh. right. left.
    + apply Hfresh. left.
  - intros k Hk. cbn [flat_map] in Hk. rewrite not_elem_of_app in Hk. destruct Hk as [Hk1 Hk2].
    rewrite Hout, Hrom1 by exact Hk2.
    unfold rom_keys in Hk1. rewrite !not_elem_of_cons in Hk1.
    destruct Hk1 as (K1 & K2 & _).
    rewrite !lookup_insert_ne by congruence. reflexivity.
Qed.

(** X15.  A calibration that completes marks the patient as calibrated and
    stores, for each of the sixteen measurements, a maximum and a minimum
    with [0 <= minimum <= maximum], measured or normal; the record has no
    other key. *)
Theorem run_calibration_record (s s' : Settings) (w w' : World) :
  run_calibration s w = Some (true, s', w') ->
  patient_calibrated s' = true
  /\ (forall m, m ∈ calibration_measurements ->
        exists mx mn,
          patient_rom s' !! (name m +:+ "_Max") = Some mx
          /\ patient_rom s' !! (name m +:+ "_Min") = Some mn
          /\ fle (Fin 0%Q) mn = true /\ fle mn mx = true)
  /\ (forall k, is_Some (patient_rom s' !! k) ->
        exists m, m ∈ calibration_measurements /\ k ∈ rom_keys m).
Proof.
  unfold run_calibration.
  destruct (run_measurements calibration_measurements ∅ w)
    as [[[[|] rom] w1]|] eqn:E; try discriminate.
  intros [= <- _]. cbn [patient_calibrated patient_rom set_patient_calibrated
                        set_patient_rom].
  apply run_measurements_record in E as [Hin Hout].
  - split; [reflexivity|]. split; [exact Hin|].
    intros k [v Hk].
    destruct (decide (k ∈ flat_map rom_keys calibration_measurements)) as [Hd | Hd].
    + apply list_elem_of_In, in_flat_map in Hd as (m & Hm & Hk').
      exists m. split; apply list_elem_of_In; assumption.
    + rewrite Hout, lookup_empty in Hk by exact Hd. discriminate.
  - assert (Hd : bool_decide (NoDup (flat_map rom_keys calibration_measurements))
                = true) by (vm_compute; reflexivity).
    apply bool_decide_eq_true_1 in Hd. exact Hd.
  - repeat constructor.
Qed.

(** X16.  [run_calibration] returns [False] only on a stop request seen
    at the test before a measurement; the patient is then marked as not
    calibrated and [s.patient_rom] is left as it was. *)
Theorem run_calibration_cancelled (s s' : Settings) (w w' : World) :
  run_calibration s w = Some (false, s', w') ->
  stop_at w (clock w') = true
  /\ (clock w <= clock w')%Z
  /\ patient_calibrated s' = false
  /\ patient_rom s' = patient_rom s.
Proof.
  unfold run_calibration.
  destruct (run_measurements calibration_measurements ∅ w)
    as [[[[|] rom] w1]|] eqn:E; try discriminate.
  intros [= <- <-]. apply run_measurements_world in E as (_ & Hclock & Hstop).
  auto.
Qed.

End RecordTheorems.

(** ** Scores *)

Section ScoreFacts.
Import Patient_Calibration.
Local Open Scope Q_scope.

Lemma py_min_at_most (bound : Q) (v : float) : at_most bound (py_min (Fin bound) v).
Proof.
  unfold py_min. destruct (flt v (Fin bound)) eqn:E; [|cbn; lra].
  destruct v as [q| | |]; cbn in *; try discriminate; [|exact I].
  apply Qlt_bool_iff in E. lra.
Qed.

Lemma fold_left_fadd_at_most (values : list float) :
  forall (acc : float) (bound : Q),
  Forall (at_most 100) values -> at_most bound acc ->
  at_most (bound + 100 * inject_Z (Z.of_nat (length values)))
    (fold_left fadd values acc).
Proof.
  induction values as [|v values IH]; intros acc bound Hall Hacc; cbn [fold_left length].
  - change (inject_Z (Z.of_nat 0)) with 0.
    destruct acc; cbn [at_most] in *; try contradiction; [lra | exact I].
  - apply Forall_cons in Hall as [Hv Hall].
    assert (Hstep : at_most (bound + 100) (fadd acc v)).
    { destruct acc, v; cbn [at_most fadd] in *; try contradiction; try exact I. lra. }
    specialize (IH _ _ Hall Hstep).
    rewrite Nat2Z.inj_succ. unfold Z.succ. rewrite inject_Z_plus.
    destruct (fold_left fadd values (fadd acc v)); cbn [at_most] in *;
      try contradiction; [|exact I].
    change (inject_Z 1) with 1. lra.
Qed.

Lemma fold_left_fadd_not_negative (values : list float) :
  forall acc : float,
  Forall not_negative values -> not_negative acc ->
  not_negative (fold_left fadd values acc).
Proof.
  induction values as [|v values IH]; intros acc Hall Hacc; cbn [fold_left];
    [exact Hacc|].
  apply Forall_cons in Hall as [Hv Hall]. apply IH; [exact Hall|].
  destruct acc, v; cbn in *; try contradiction. lra.
Qed.

Lemma length_positive {A : Type} (values : list A) :
  values <> [] -> 0 < inject_Z (Z.of_nat (length values)).
Proof.
  intros H. destruct values as [|v values]; [congruence|].
  change 0 with (inject_Z 0). rewrite <- Zlt_Qlt. cbn [length]. lia.
Qed.

Lemma fdiv_by_positive (a n : Q) : 0 < n -> fdiv (Fin a) (Fin n) = Fin (a / n).
Proof.
  intros Hn. cbn [fdiv]. destruct (Qeq_bool n 0) eqn:E; [|reflexivity].
  apply Qeq_bool_iff in E. lra.
Qed.

Lemma np_mean_at_most (values : list float) :
  values <> [] -> Forall (at_most 100) values -> at_most 100 (np_mean values).
Proof.
  intros Hne Hall. unfold np_mean.
  pose proof (length_positive values Hne) as Hlen.
  pose proof (fold_left_fadd_at_most values (Fin 0) 0 Hall) as Hsum.
  set (n := inject_Z (Z.of_nat (length values))) in *.
  destruct (fold_left fadd values (Fin 0)) as [q| | |]; cbn [at_most] in Hsum;
    try (exfalso; apply Hsum; cbn; lra).
  - rewrite fdiv_by_positive by exact Hlen. cbn.
    assert (Hq : q <= 0 + 100 * n) by (apply Hsum; cbn; lra).
    apply Qle_shift_div_r; [exact Hlen | lra].
  - cbn [fdiv]. unfold Qnegative.
    assert (E : Qlt_bool n 0 = false) by (apply Qlt_bool_false_iff; lra).
    rewrite E. exact I.
Qed.

Lemma np_mean_not_negative (values : list float) :
  values <> [] -> Forall not_negative values -> not_negative (np_mean values).
Proof.
  intros Hne Hall. unfold np_mean.
  pose proof (length_positive values Hne) as Hlen.
  assert (H0 : not_negative (Fin 0)) by (cbn; lra).
  pose proof (fold_left_fadd_not_negative values (Fin 0) Hall H0) as Hsum.
  destruct (fold_left fadd values (Fin 0)) as [q| | |]; cbn [not_negative] in Hsum;
    try contradiction.
  rewrite fdiv_by_positive by exact Hlen. cbn.
  apply Qle_shift_div_l; [exact Hlen | lra].
Qed.

Lemma at_most_fle (v : float) : at_most 100 v -> fle v (Fin 100) = true.
Proof.
  destruct v as [q| | |]; cbn; try contradiction; [|reflexivity].
  intros H. apply Qle_bool_iff, H.
Qed.

Lemma not_negative_fle (v : float) : not_negative v -> fle (Fin 0) v = true.
Proof.
  destruct v as [q| | |]; cbn; try contradiction.
  intros H. apply Qle_bool_iff, H.
Qed.

Lemma score_of_not_negative (q n : Q) :
  0 <= q -> 0 < n -> not_negative (score_of (Fin q) (Fin n)).
Proof.
  intros Hq Hn. unfold score_of. rewrite fdiv_by_positive by exact Hn.
  cbn [fmul]. unfold py_min. destruct (flt _ _); cbn; [|lra].
  apply Qmult_le_0_compat; [|lra].
  apply Qle_shift_div_l; [exact Hn | lra].
Qed.

Lemma scores_at_most (rom_data : gmap string float) (ms : list Measurement) :
  Forall (at_most 100)
    (omap (fun m => (fun patient_max => score_of patient_max (normal_max m))
                      <$> rom_data !! (name m +:+ "_Max")) ms).
Proof.
  apply Forall_forall. intros v Hv.
  apply list_elem_of_omap in Hv as (m & _ & Hv).
  destruct (rom_data !! (name m +:+ "_Max")) as [w|]; [|discriminate].
  injection Hv as <-. apply py_min_at_most.
Qed.

Lemma scores_not_negative (rom_data : gmap string float) (ms : list Measurement) :
  (forall k v, rom_data !! k = Some v -> not_negative v) ->
  Forall (fun m => exists n, normal_max m = Fin n /\ 0 < n) ms ->
  Forall not_negative
    (omap (fun m => (fun patient_max => score_of patient_max (normal_max m))
                      <$> rom_data !! (name m +:+ "_Max")) ms).
Proof.
  intros Hrom Hms. apply Forall_forall. intros v Hv.
  apply list_elem_of_omap in Hv as (m & Hm & Hv).
  rewrite Forall_forall in Hms. destruct (Hms m Hm) as (n & Hn & Hpos).
  destruct (rom_data !! (name m +:+ "_Max")) as [w|] eqn:E; [|discriminate].
  injection Hv as <-. apply Hrom in E. destruct w as [q| | |]; try contradiction.
  rewrite Hn. apply score_of_not_negative; assumption.
Qed.

(** X17.  The overall ROM score is at most 100 for every record, and at
    least 0 when no value of the record is negative or not a number. *)
Theorem calculate_rom_score_bounds (rom_data : gmap string float) :
  fle (calculate_rom_score rom_data) (Fin 100) = true
  /\ ((forall k v, rom_data !! k = Some v -> not_negative v) ->
      fle (Fin 0) (calculate_rom_score rom_data) = true).
Proof.
  unfold calculate_rom_score.
  pose proof (scores_at_most rom_data calibration_measurements) as Hmost.
  split.
  - destruct (omap _ calibration_measurements) as [|v scores] eqn:E; [reflexivity|].
    apply at_most_fle, np_mean_at_most; [discriminate | exact Hmost].
  - intros Hrom.
    assert (Hleast := scores_not_negative rom_data calibration_measurements Hrom).
    destruct (omap _ calibration_measurements) as [|v scores] eqn:E; [reflexivity|].
    apply not_negative_fle, np_mean_not_negative; [discriminate|].
    apply Hleast. repeat constructor; eexists; (split; [reflexivity | reflexivity]).
Qed.

Lemma omap_agree {A B : Type} (f g : A -> option B) (l : list A) :
  Forall (fun x => f x = g x) l -> omap f l = omap g l.
Proof.
  induction 1 as [|x l Hx _ IH]; [reflexivity|].
  change (match f x with Some y => y :: omap f l | None => omap f l end
          = match g x with Some y => y :: omap g l | None => omap g l end).
  rewrite Hx, IH. reflexivity.
Qed.

Lemma pair_asymmetry_not_negative (rom_data : gmap string float)
    (pair : string * string) (v : float) :
  (forall k w, rom_data !! k = Some w -> is_finite w = true) ->
  pair_asymmetry rom_data pair = Some v -> not_negative v.
Proof.
  intros Hrom. unfold pair_asymmetry.
  assert (Hfin : forall k, is_finite (default (Fin 0) (rom_data !! k)) = true).
  { intros k. destruct (rom_data !! k) as [w|] eqn:E; [|reflexivity].
    apply (Hrom k w E). }
  pose proof (Hfin (pair.1 +:+ "_Max")) as H1.
  pose proof (Hfin (pair.2 +:+ "_Max")) as H2.
  destruct (default (Fin 0) (rom_data !! (pair.1 +:+ "_Max"))) as [r| | |];
    try discriminate.
  destruct (default (Fin 0) (rom_data !! (pair.2 +:+ "_Max"))) as [l| | |];
    try discriminate.
  destruct (_ && _); [|discriminate]. intros [= <-].
  exact (Qabs_nonneg (r + - l)).
Qed.

(** X18.  The asymmetry score reads the maxima of three pairs of
    measurements only (shoulder, elbow, wrist to hip): records that agree on
    these six keys have the same score.  On a record of finite values it is
    a number that is not negative. *)
Theorem calculate_asymmetry_facts (rom_data : gmap string float) :
  (forall rom_data' : gmap string float,
     (forall pair side, pair ∈ asymmetry_pairs -> side = pair.1 \/ side = pair.2 ->
        rom_data' !! (side +:+ "_Max") = rom_data !! (side +:+ "_Max")) ->
     calculate_asymmetry rom_data' = calculate_asymmetry rom_data)
  /\ ((forall k v, rom_data !! k = Some v -> is_finite v = true) ->
      not_negative (calculate_asymmetry rom_data)).
Proof.
  split.
  - intros rom_data' Hsame. unfold calculate_asymmetry.
    assert (E : omap (pair_asymmetry rom_data') asymmetry_pairs
                = omap (pair_asymmetry rom_data) asymmetry_pairs).
    { assert (Hall : Forall (fun pair => pair_asymmetry rom_data' pair
                                         = pair_asymmetry rom_data pair)
                       asymmetry_pairs).
      { rewrite Forall_forall. intros pair Hin. unfold pair_asymmetry.
        rewrite (Hsame pair pair.1 Hin (or_introl eq_refl)).
        rewrite (Hsame pair pair.2 Hin (or_intror eq_refl)). reflexivity. }
      apply omap_agree, Hall. }
    rewrite E. reflexivity.
  - intros Hrom. unfold calculate_asymmetry.
    assert (Hall : Forall not_negative
                     (omap (pair_asymmetry rom_data) asymmetry_pairs)).
    { apply Forall_forall. intros v Hv.
      apply list_elem_of_omap in Hv as (pair & _ & Hv).
      eapply pair_asymmetry_not_negative; eauto. }
    destruct (omap _ asymmetry_pairs) as [|v values]; [cbn; lra|].
    apply np_mean_not_negative; [discriminate | exact Hall].
Qed.

End ScoreFacts.

(** ** The sheet of the full protocol *)

Lemma list_find_insert_other {A : Type} (P : A -> Prop) `{!forall x, Decision (P x)}
    (l : list A) (x : A) :
  forall i, ~ P x -> (forall z, l !! i = Some z -> ~ P z) ->
  list_find P (<[i := x]> l) = list_find P l.
Proof.
  induction l as [|y l IH]; intros i Hx Hi; [reflexivity|].
  destruct i as [|i]; cbn.
  - specialize (Hi y eq_refl). rewrite !decide_False by assumption. reflexivity.
  - rewrite IH by (try assumption; intros z Hz; apply Hi; exact Hz). reflexivity.
Qed.

Lemma list_find_snoc_other {A : Type} (P : A -> Prop) `{!forall x, Decision (P x)}
    (l : list A) (x : A) :
  ~ P x -> list_find P (l ++ [x]) = list_find P l.
Proof.
  intros Hx. destruct (list_find P l) as [[i y]|] eqn:E.
  - apply list_find_app_l, E.
  - rewrite list_find_app_r by exact E. cbn. rewrite decide_False by exact Hx.
    reflexivity.
Qed.

Section SheetFacts.
Import Patient_Calibration.

Lemma save_to_excel_first_row (patient_id date time : string)
    (rom_data : gmap string float) (overall_score asymmetry_score : float)
    (sheet : list CalRow) :
  exists i,
    list_find (fun r => Patient_ID r = patient_id)
      (save_to_excel patient_id date time rom_data overall_score asymmetry_score
         sheet)
    = Some (i, row_of patient_id date time rom_data overall_score asymmetry_score).
Proof.
  unfold save_to_excel.
  destruct (list_find (fun r => Patient_ID r = patient_id) sheet) as [[i r]|] eqn:E.
  - exists i. apply list_find_Some in E as (Hi & _ & Hmin).
    apply list_find_insert_Some. right. left.
    repeat split; [eapply lookup_lt_Some, Hi | exact Hmin].
  - exists (length sheet). rewrite list_find_app_r by exact E. cbn.
    rewrite decide_True by reflexivity. reflexivity.
Qed.

(** X19.  After [save_to_excel] for a patient, [load_from_excel] for that
    patient returns the row just written, whatever the sheet held before:
    the patient, both scores, and for each measurement the maximum and
    minimum of the record, or the normal value for a key the record
    lacks. *)
Theorem load_from_excel_after_save (patient_id date time : string)
    (rom_data : gmap string float) (overall_score asymmetry_score : float)
    (sheet : list CalRow) :
  exists rom_dict,
    load_from_excel patient_id
      (save_to_excel patient_id date time rom_data overall_score asymmetry_score
         sheet)
    = Some rom_dict
    /\ rom_dict !! "Patient_ID" = Some (Text patient_id)
    /\ rom_dict !! "Overall_ROM_Score" = Some (Number overall_score)
    /\ rom_dict !! "Asymmetry_Score" = Some (Number asymmetry_score)
    /\ Forall (fun m =>
                 rom_dict !! (name m +:+ "_Max")
                 = Some (Number (default (normal_max m)
                                   (rom_data !! (name m +:+ "_Max"))))
                 /\ rom_dict !! (name m +:+ "_Min")
                    = Some (Number (default (normal_min m)
                                      (rom_data !! (name m +:+ "_Min")))))
              calibration_measurements.
Proof.
  destruct (save_to_excel_first_row patient_id date time rom_data overall_score
              asymmetry_score sheet) as [i Hfind].
  unfold load_from_excel. rewrite Hfind. eexists. split; [reflexivity|].
  unfold row_of, calibration_measurements.
  repeat split; repeat (apply Forall_cons; split; [split|]); try apply Forall_nil;
    cbn [flat_map app name normal_max normal_min String.app];
    repeat match goal with
           | |- context [rom_data !! ?k] => generalize (rom_data !! k); intro
           end;
    vm_compute; reflexivity.
Qed.

(** X20.  [save_to_excel] for one patient changes nothing of what
    [load_from_excel] returns for another. *)
Theorem save_to_excel_other_patients (patient_id other date time : string)
    (rom_data : gmap string float) (overall_score asymmetry_score : float)
    (sheet : list CalRow) :
  other <> patient_id ->
  load_from_excel other
    (save_to_excel patient_id date time rom_data overall_score asymmetry_score
       sheet)
  = load_from_excel other sheet.
Proof.
  intros Hother. unfold load_from_excel, save_to_excel.
  destruct (list_find (fun r => Patient_ID r = patient_id) sheet) as [[i r]|] eqn:E.
  - apply list_find_Some in E as (Hi & Hr & _).
    rewrite list_find_insert_other; [reflexivity | cbn; congruence |].
    intros z Hz. rewrite Hi in Hz. injection Hz as <-. congruence.
  - rewrite list_find_snoc_other; [reflexivity | cbn; congruence].
Qed.

End SheetFacts.

(** ** The sheet of the warm-up protocol *)

Lemma insert_by_date_desc_Permutation (r : Row) (rows : list Row) :
  insert_by_date_desc r rows ≡ₚ r :: rows.
Proof.
  induction rows as [|r' rows IH]; cbn [insert_by_date_desc]; [reflexivity|].
  destruct (String.ltb (Date r') (Date r)); [reflexivity|].
  rewrite IH. apply Permutation_swap.
Qed.

Lemma sort_by_date_desc_Permutation (rows : list Row) :
  sort_by_date_desc rows ≡ₚ rows.
Proof.
  induction rows as [|r rows IH]; cbn [sort_by_date_desc]; [reflexivity|].
  rewrite insert_by_date_desc_Permutation, IH. reflexivity.
Qed.

Lemma filter_this_patient (pid : string) (rows : list Row) :
  Forall (fun r => PatientID r = pid) rows ->
  filter (fun r => PatientID r = pid) rows = rows.
Proof.
  induction 1 as [|r rows Hr _ IH]; [reflexivity|].
  rewrite filter_cons_True by exact Hr. rewrite IH. reflexivity.
Qed.

(** The dictionary [load_from_excel] builds from rows. *)
Lemma fold_rows_other (rows : list Row) :
  forall (calibration : gmap string (gmap string float)) (exercise : string),
  exercise ∉ Exercise <$> rows ->
  fold_left (fun calibration row => <[Exercise row := row_ranges row]> calibration)
    rows calibration !! exercise
  = calibration !! exercise.
Proof.
  induction rows as [|r rows IH]; intros calibration exercise Hnot; [reflexivity|].
  cbn [fold_left]. rewrite fmap_cons, not_elem_of_cons in Hnot.
  destruct Hnot as [Hne Hnot]. rewrite IH by exact Hnot.
  apply lookup_insert_ne. congruence.
Qed.

Lemma fold_rows_lookup (rows : list Row) :
  forall (calibration : gmap string (gmap string float)) (r : Row),
  NoDup (Exercise <$> rows) -> r ∈ rows ->
  fold_left (fun calibration row => <[Exercise row := row_ranges row]> calibration)
    rows calibration !! Exercise r
  = Some (row_ranges r).
Proof.
  induction rows as [|r0 rows IH]; intros calibration r Hdup Hin;
    [inversion Hin|].
  rewrite fmap_cons in Hdup. apply NoDup_cons in Hdup as [Hfresh Hdup].
  cbn [fold_left]. apply elem_of_cons in Hin as [-> | Hin].
  - rewrite fold_rows_other by exact Hfresh. apply lookup_insert_eq.
  - apply IH; assumption.
Qed.

Lemma session_rows_exercises (patient_id date_str : string)
    (calibration_data : list (string * gmap string float)) :
  Exercise <$> map (session_row patient_id date_str) calibration_data
  = calibration_data.*1.
Proof.
  induction calibration_data as [|[exercise ranges] data IH]; [reflexivity|].
  cbn. f_equal. exact IH.
Qed.

(** X21.  The first warm-up session of a patient, saved on a sheet without
    rows of that patient: [load_from_excel] returns [None] when the session
    recorded no exercise, and else the four ranges of each exercise of the
    session (0 for a range that was missing) and nothing for any other
    exercise. *)
Theorem load_from_excel_first_session (patient_id date_str : string)
    (calibration_data : list (string * gmap string float)) (sheet : list Row) :
  Forall (fun r => PatientID r <> patient_id) sheet ->
  NoDup calibration_data.*1 ->
  match load_from_excel patient_id
          (save_to_excel patient_id date_str calibration_data sheet) with
  | None => calibration_data = []
  | Some calibration =>
      calibration_data <> []
      /\ (forall exercise ranges,
            (exercise, ranges) ∈ calibration_data ->
            calibration !! exercise
            = Some (row_ranges (session_row patient_id date_str (exercise, ranges))))
      /\ (forall exercise,
            exercise ∉ calibration_data.*1 -> calibration !! exercise = None)
  end.
Proof.
  intros Hsheet Hdup. unfold load_from_excel, save_to_excel.
  rewrite filter_app, (filter_other_patients patient_id sheet Hsheet).
  cbn [app]. rewrite filter_this_patient.
  2: { apply Forall_forall. intros r Hr. apply list_elem_of_fmap in Hr
         as ([exercise ranges] & -> & _). reflexivity. }
  pose proof (session_rows_exercises patient_id date_str calibration_data) as Hex.
  set (rows := map (session_row patient_id date_str) calibration_data) in *.
  assert (Hin : forall exercise ranges, (exercise, ranges) ∈ calibration_data ->
                  session_row patient_id date_str (exercise, ranges) ∈ rows).
  { intros exercise ranges H. apply list_elem_of_fmap. eauto. }
  pose proof (sort_by_date_desc_Permutation rows) as Hperm.
  destruct rows as [|r rows'] eqn:Erows.
  { destruct calibration_data; [reflexivity | discriminate]. }
  split; [|split].
  - intros ->. discriminate Hex.
  - intros exercise ranges H.
    change exercise
      with (Exercise (session_row patient_id date_str (exercise, ranges))) at 1.
    apply fold_rows_lookup.
    + rewrite Hperm, Hex. exact Hdup.
    + rewrite Hperm. apply Hin, H.
  - intros exercise H. rewrite fold_rows_other; [apply lookup_empty|].
    rewrite Hperm, Hex. exact H.
Qed.

(** ** The adapted range and the measured one *)

(** X22.  For a calibrated patient whose measured maximum is a number below
    the default maximum and not below the measured minimum, the adapted
    range starts at the measured minimum and ends between the measured
    minimum and the measured maximum, below the default maximum. *)
Theorem get_adaptive_range_for_joint_within_measured (s : Settings) (key : string)
    (default_min : float) (patient_min patient_max default_max : Q) :
  patient_calibrated s = true ->
  patient_rom s !! (key +:+ "_Max") = Some (Fin patient_max) ->
  patient_rom s !! (key +:+ "_Min") = Some (Fin patient_min) ->
  (patient_min <= patient_max)%Q ->
  (patient_max < default_max)%Q ->
  exists adapted_max : Q,
    get_adaptive_range_for_joint s key default_min (Fin default_max)
    = (Fin patient_min, Fin adapted_max)
    /\ (patient_min <= adapted_max)%Q
    /\ (adapted_max <= patient_max)%Q
    /\ (adapted_max < default_max)%Q.
Proof.
  intros Hcal Hmax Hmin Hle Hlt. unfold get_adaptive_range_for_joint.
  rewrite Hcal, (map_is_empty_lookup _ _ _ Hmax), Hmax, Hmin.
  cbn [negb flt fsub fneg fadd fmul].
  assert (E : Qlt_bool patient_max default_max = true) by (apply Qlt_bool_iff, Hlt).
  rewrite E. eexists. split; [reflexivity|]. lra.
Qed.

(** ** Slots from one exercise to the next *)

Lemma slots_kept_refl (cam : Camera) : slots_kept cam cam.
Proof. split; auto. Qed.

Lemma slots_kept_trans (c1 c2 c3 : Camera) :
  slots_kept c1 c2 -> slots_kept c2 c3 -> slots_kept c1 c3.
Proof. intros [J1 S1] [J2 S2]. split; [congruence | auto]. Qed.

Lemma keeps_slots_ret {A : Type} (a : A) : keeps_slots (cam_ret a).
Proof. intros cam r cam' [= _ <-]. apply slots_kept_refl. Qed.

Lemma keeps_slots_pure {A : Type} (r : result A) :
  keeps_slots (fun cam => (r, cam)).
Proof. intros cam r' cam' [= _ <-]. apply slots_kept_refl. Qed.

Lemma keeps_slots_bind {A B : Type} (m : CamM A) (f : A -> CamM B) :
  keeps_slots m -> (forall a, keeps_slots (f a)) -> keeps_slots (cam_bind m f).
Proof.
  intros Hm Hf cam r cam'. unfold cam_bind.
  destruct (m cam) as [[a | e] cam1] eqn:E; apply Hm in E.
  - intros H. apply Hf in H. eapply slots_kept_trans; eassumption.
  - intros [= _ <-]. exact E.
Qed.

Lemma apply_requests_not_paused (rs : list Request) (s : Settings) :
  Forall (fun r => r <> SetTrainingPaused true) rs ->
  did_training_paused s = false ->
  did_training_paused (apply_requests rs s) = false.
Proof.
  unfold apply_requests. revert s.
  induction rs as [|r rs IH]; intros s Hrs Hs; [exact Hs|].
  apply Forall_cons in Hrs as [Hr Hrs]. cbn [fold_left]. apply IH; [exact Hrs|].
  destruct r as [name | b | [|]]; cbn; try assumption; congruence.
Qed.

Section SlotFacts.
Context {np : NumPy}.

Lemma angle_of_keeps_slots (joints : Skeleton) (k1 k2 k3 slot : string) :
  keeps_slots (angle_of joints k1 k2 k3 slot).
Proof.
  intros cam r cam'. unfold angle_of, cam_bind, lookup_joint.
  destruct (getitem joints k1) as [j1|]; [|intros [= _ <-]; apply slots_kept_refl].
  destruct (getitem joints k2) as [j2|]; [|intros [= _ <-]; apply slots_kept_refl].
  destruct (getitem joints k3) as [j3|]; [|intros [= _ <-]; apply slots_kept_refl].
  destruct (calc_angle_3d_camera cam j1 j2 j3 slot) as [a ->].
  intros [= _ <-]. split; [reflexivity|].
  intros k Hk. cbn. destruct (decide (slot = k)) as [-> | Hne].
  - rewrite lookup_insert_eq. eauto.
  - rewrite lookup_insert_ne by exact Hne. exact Hk.
Qed.

Lemma measure_two_angles_keeps_slots (p : TwoAngles) (joints : Skeleton) :
  keeps_slots (measure_two_angles p joints).
Proof.
  unfold measure_two_angles.
  repeat (apply keeps_slots_bind; [apply angle_of_keeps_slots | intros ?]).
  destruct (use_alternate_angles p);
    repeat (apply keeps_slots_bind; [apply angle_of_keeps_slots | intros ?]);
    apply keeps_slots_ret.
Qed.

Lemma measure_three_angles_keeps_slots (p : ThreeAngles) (joints : Skeleton) :
  keeps_slots (measure_three_angles p joints).
Proof.
  unfold measure_three_angles. cbv zeta.
  repeat (apply keeps_slots_bind; [apply angle_of_keeps_slots | intros ?]).
  destruct (use_alternate_angles (first_two p));
    repeat (apply keeps_slots_bind; [apply angle_of_keeps_slots | intros ?]);
    apply keeps_slots_ret.
Qed.

(** Each method is the shared loop around a frame that counts by
    transitions and empties no slot. *)
Lemma exercise_method_frame (exercise : string) (run : Method) :
  exercise_method exercise run ->
  exists frame_step,
    counts_by_transitions frame_step
    /\ (forall joints l s, keeps_slots (frame_step joints l s))
    /\ forall ticks s cam,
         run ticks s cam
         = exercise_loop frame_step exercise ticks AtTest Local_init s cam.
Proof.
  intros [p | p diff_size | p | p].
  - exists (two_angles_frame (measure_two_angles p) p).
    split; [apply two_angles_frame_counts|]. split.
    + intros joints l s. unfold two_angles_frame.
      apply keeps_slots_bind; [apply measure_two_angles_keeps_slots|].
      intros a. apply keeps_slots_ret.
    + intros ticks s cam. apply two_angles_loop_exercise_loop.
  - exists (axis_check_frame p diff_size).
    split; [apply axis_check_frame_counts|]. split; [|reflexivity].
    intros joints l s. unfold axis_check_frame.
    apply keeps_slots_bind; [apply measure_two_angles_keeps_slots|].
    intros a. apply keeps_slots_pure.
  - exists (three_angles_frame p).
    split; [apply three_angles_frame_counts|]. split; [|reflexivity].
    intros joints l s. unfold three_angles_frame.
    apply keeps_slots_bind; [apply measure_three_angles_keeps_slots|].
    intros a. apply keeps_slots_ret.
  - exists (by_sides_frame p).
    split; [apply by_sides_frame_counts|]. split; [|reflexivity].
    intros joints l s. unfold by_sides_frame.
    repeat (apply keeps_slots_bind; [apply angle_of_keeps_slots | intros ?]).
    apply keeps_slots_pure.
Qed.

End SlotFacts.

Section LoopSlots.
Context {F : Type} (frame_step : F -> Local -> Settings -> CamM (Local * Settings)).
Hypothesis Hstep : counts_by_transitions frame_step.
Hypothesis Hslots : forall joints l s, keeps_slots (frame_step joints l s).
Variable exercise : string.

Lemma exercise_loop_slots_kept (ticks : list (Tick F)) :
  forall (w : Where) (l : Local) (s : Settings) (cam : Camera),
  pause_free ticks -> did_training_paused s = false ->
  slots_kept cam (outcome_camera (exercise_loop frame_step exercise ticks w l s cam)).
Proof.
  induction ticks as [|t ticks IH]; intros w l s cam Hfree Hs;
    [apply slots_kept_refl|].
  apply Forall_cons in Hfree as [Ht Hfree].
  cbn [exercise_loop]. unfold exercise_pass.
  pose proof (apply_requests_not_paused (requests t) s Ht Hs) as Hs1.
  set (s1 := apply_requests (requests t) s) in *.
  destruct (match w with AtTest => _ | InPause => false end);
    [apply slots_kept_refl|].
  rewrite Hs1. cbn [andb]. unfold exercise_body.
  destruct (frame t) as [joints|].
  - destruct (frame_step joints l s1 cam) as [[[l2 s2] | e] cam2] eqn:Estep.
    + pose proof (Hslots _ _ _ _ _ _ Estep) as Hcam.
      apply Hstep in Estep.
      assert (Hs2 : did_training_paused s2 = false).
      { destruct Estep as [[-> ->] | [(Hf & -> & ->) | (Hf & Hc)]]; auto.
        unfold count_repetition in Hc. injection Hc as -> ->. exact Hs1. }
      unfold check_target. destruct (counter l2 =? rep s2)%Z; [exact Hcam|].
      eapply slots_kept_trans; [exact Hcam | apply IH; assumption].
    + apply (Hslots _ _ _ _ _ _ Estep).
  - unfold check_target. destruct (counter l =? rep s1)%Z;
      [apply slots_kept_refl | apply IH; assumption].
Qed.

End LoopSlots.

(** X14.  An exercise method that meets no pause empties no smoothing slot
    and leaves the largest jump alone: a slot filled when the method starts
    is filled when it returns, raises or is still running: the slots are
    handed from one exercise to the next. *)
Theorem exercise_method_keeps_slots {np : NumPy} (exercise : string) (run : Method)
    (ticks : list (Tick Skeleton)) (s : Settings) (cam : Camera) :
  exercise_method exercise run ->
  pause_free ticks ->
  did_training_paused s = false ->
  slots_kept cam (outcome_camera (run ticks s cam)).
Proof.
  intros Hm Hfree Hs.
  destruct (exercise_method_frame exercise run Hm)
    as (frame_step & Hstep & Hslots & ->).
  apply exercise_loop_slots_kept; assumption.
Qed.

(** ** The statements above on the inputs of the catalogue *)

Section Witnesses.
Local Open Scope Q_scope.

Lemma calc_angle_3d_moves_towards_raw_witness :
  exists a,
    calc_angle_3d (np := coarse_numpy) (camera_with "R_1" 30)
      straight_shoulder straight_elbow straight_wrist "R_1"
    = (Some (Fin (Qround2 a)),
       set_previous_angles
         (<["R_1" := Fin a]> (previous_angles (camera_with "R_1" 30)))
         (camera_with "R_1" 30))
    /\ Qmin 30 (1799 # 10) <= a <= Qmax 30 (1799 # 10)
    /\ Qabs (a - (1799 # 10)) == Qmax 0 (Qabs (30 - (1799 # 10)) - 10).
Proof.
  apply (calc_angle_3d_moves_towards_raw (np := coarse_numpy)).
  - reflexivity.
  - reflexivity.
  - discriminate.
  - vm_compute. reflexivity.
Defined.

Lemma repeat_calc_angle_3d_lag_witness :
  exists a,
    previous_angles
      (repeat_calc_angle_3d (np := coarse_numpy) 5 (camera_with "R_1" 30)
         straight_shoulder straight_elbow straight_wrist "R_1") !! "R_1"
    = Some (Fin a)
    /\ Qabs (a - (1799 # 10))
       == Qmax 0 (Qabs (30 - (1799 # 10)) - inject_Z (Z.of_nat 5) * 10).
Proof.
  apply (repeat_calc_angle_3d_lag (np := coarse_numpy)).
  - reflexivity.
  - reflexivity.
  - discriminate.
  - vm_compute. reflexivity.
Defined.

Lemma calc_angle_3d_unlimited_after_degenerate_witness :
  let cam1 :=
    (calc_angle_3d (np := coarse_numpy) (camera_with "R_1" 30)
       straight_elbow straight_elbow straight_wrist "R_1").2 in
  calc_angle_3d (np := coarse_numpy) cam1
    straight_shoulder straight_elbow straight_wrist "R_1"
  = (Some (round2 (raw_angle_3d (np := coarse_numpy)
                     straight_shoulder straight_elbow straight_wrist)),
     set_previous_angles
       (<["R_1" := raw_angle_3d (np := coarse_numpy)
                     straight_shoulder straight_elbow straight_wrist]>
          (previous_angles cam1)) cam1).
Proof.
  apply (calc_angle_3d_unlimited_after_degenerate (np := coarse_numpy)).
  left. repeat split; try (eexists _, _, _; reflexivity). left. reflexivity.
Defined.


Lemma evaluators_count_on_down_to_up_witness :
  exists l' s' cam',
    two_angles_frame (measure_two_angles (np := coarse_numpy) weights_abduction)
      weights_abduction arms_down Local_init (requested "weights_abduction")
      Camera_init
    = (Ok (l', s'), cam')
    /\ ((l' = Local_init /\ s' = requested "weights_abduction")
        \/ (flag Local_init = true
            /\ l' = {| flag := false; counter := counter Local_init |}
            /\ s' = requested "weights_abduction")
        \/ (flag Local_init = false
            /\ (l', s') = count_repetition Local_init (requested "weights_abduction"))).
Proof.
  eexists _, _, _. split; [vm_compute; reflexivity|].
  eapply (proj1 (evaluators_count_on_down_to_up (np := coarse_numpy))
            weights_abduction arms_down Local_init _
            (requested "weights_abduction") _ Camera_init).
  vm_compute. reflexivity.
Defined.

Lemma exercise_method_counts_witness :
  counted_from "weights_abduction" 0 (set_rep 1 (requested "weights_abduction"))
    (exercise_two_angles_3d (np := coarse_numpy) weights_abduction one_repetition
       (set_rep 1 (requested "weights_abduction")) Camera_init).
Proof.
  apply (exercise_method_counts (np := coarse_numpy) "weights_abduction").
  - exact (method_two_angles weights_abduction).
  - discriminate.
Defined.

Lemma exercise_method_returns_at_target_witness :
  exists s' cam',
    exercise_two_angles_3d (np := coarse_numpy) weights_abduction one_repetition
      (set_stop_requested true (set_rep 1 (requested "weights_abduction")))
      Camera_init
    = Returned 1 s' cam'
    /\ (1%Z = rep (set_stop_requested true (set_rep 1 (requested "weights_abduction")))
        /\ success_exercise s' = true /\ req_exercise s' = "").
Proof.
  eexists _, _. split; [vm_compute; reflexivity|].
  eapply (exercise_method_returns_at_target (np := coarse_numpy)
            "weights_abduction" (exercise_two_angles_3d weights_abduction)
            one_repetition
            (set_stop_requested true (set_rep 1 (requested "weights_abduction")))
            _ Camera_init).
  - exact (method_two_angles weights_abduction).
  - repeat constructor.
  - reflexivity.
  - vm_compute. reflexivity.
Defined.

Lemma pause_resets_smoothing_witness :
  exists cam',
    exercise_pass (two_angles_frame (measure_two_angles (np := coarse_numpy)
                                       weights_abduction) weights_abduction)
      "weights_abduction" (mkTick [SetTrainingPaused true] (Some arms_down)) AtTest
      Local_init (requested "weights_abduction") (camera_with "R_1" 90)
    = Pause Local_init
        (set_did_training_paused true (requested "weights_abduction")) cam'
    /\ previous_angles cam' = ∅
    /\ exists a cam'',
         measure_two_angles (np := coarse_numpy) weights_abduction arms_down cam'
         = (Ok a, cam'')
         /\ right_angle a
            = round2 <$> raw_of (np := coarse_numpy) arms_down
                           "R_hip" "R_shoulder" "R_elbow".
Proof.
  eexists. split; [vm_compute; reflexivity|].
  destruct (pause_resets_smoothing (np := coarse_numpy)
              (two_angles_frame (measure_two_angles (np := coarse_numpy)
                                   weights_abduction) weights_abduction)
              "weights_abduction" (mkTick [SetTrainingPaused true] (Some arms_down))
              AtTest Local_init Local_init (requested "weights_abduction")
              (set_did_training_paused true (requested "weights_abduction"))
              (camera_with "R_1" 90) (set_previous_angles ∅ (camera_with "R_1" 90))
              eq_refl) as (_ & Hempty & Hraw).
  split; [exact Hempty|]. eexists _, _. split; [vm_compute; reflexivity|].
  eapply (Hraw weights_abduction arms_down). vm_compute. reflexivity.
Defined.



Lemma decide_with_axis_check_cases_witness :
  decide_with_axis_check weights_abduction 0 ∅ (measured 100 150) Local_init
    (requested "weights_abduction")
  = Ok (decide_two_angles weights_abduction (measured 100 150) Local_init
          (requested "weights_abduction"))
  /\ decide_with_axis_check stick_switch 0 shoulders_apart (measured 150 50)
       Local_init (requested "stick_switch")
     = Ok (Local_init, requested "stick_switch")
  /\ decide_with_axis_check stick_switch 0 ∅ (measured 150 50)
       Local_init (requested "stick_switch")
     = Raise (KeyError "L_shoulder").
Proof.
  destruct (decide_with_axis_check_cases weights_abduction 0 ∅ (measured 100 150)
              Local_init (requested "weights_abduction")) as [Hsame _].
  destruct (decide_with_axis_check_cases stick_switch 0 shoulders_apart
              (measured 150 50) Local_init (requested "stick_switch"))
    as [_ Hfar].
  destruct (decide_with_axis_check_cases stick_switch 0 ∅ (measured 150 50)
              Local_init (requested "stick_switch")) as [_ Hnone].
  split; [apply Hsame; reflexivity|]. split.
  - apply Hfar; cbn; eauto.
  - apply Hnone; cbn; eauto.
Defined.

Lemma by_sides_frame_needs_the_nose_witness :
  exists cam',
    by_sides_frame (np := coarse_numpy) notool_right_hand_up_and_bend arms_side
      Local_init (requested "notool_right_hand_up_and_bend") Camera_init
    = (Raise (KeyError "nose"), cam').
Proof.
  apply (by_sides_frame_needs_the_nose (np := coarse_numpy)
           notool_right_hand_up_and_bend arms_side).
  - intros k Hk. rewrite !elem_of_cons, elem_of_nil in Hk.
    destruct Hk as [-> | [-> | [-> | []]]]; split; vm_compute; eauto.
  - vm_compute. eauto.
  - vm_compute. eauto.
  - reflexivity.
Defined.

End Witnesses.

Section MoreWitnesses.
Local Open Scope Q_scope.

Lemma run_calibration_record_witness :
  exists s' w',
    run_calibration (np := coarse_numpy) Settings_init first_measurement_seen
    = Some (true, s', w')
    /\ patient_calibrated s' = true
    /\ (forall m, m ∈ calibration_measurements ->
          exists mx mn,
            patient_rom s' !! (name m +:+ "_Max") = Some mx
            /\ patient_rom s' !! (name m +:+ "_Min") = Some mn
            /\ fle (Fin 0) mn = true /\ fle mn mx = true)
    /\ (forall k, is_Some (patient_rom s' !! k) ->
          exists m, m ∈ calibration_measurements /\ k ∈ rom_keys m).
Proof.
  assert (Hdone : (fun r => match r with
                            | Some (done, _, _) => Some done
                            | None => None
                            end)
                    (run_calibration (np := coarse_numpy) Settings_init
                       first_measurement_seen) = Some true)
    by (vm_compute; reflexivity).
  destruct (run_calibration (np := coarse_numpy) Settings_init
              first_measurement_seen) as [[[[|] s'] w']|] eqn:E;
    [|discriminate Hdone..].
  exists s', w'. split; [reflexivity|].
  exact (run_calibration_record (np := coarse_numpy) Settings_init s'
           first_measurement_seen w' E).
Defined.

Lemma run_calibration_cancelled_witness :
  exists s' w',
    run_calibration (np := coarse_numpy) (calibrated_elbow 120)
      (steady_world (Some 3000%Z) (Some arms_side) 40)
    = Some (false, s', w')
    /\ stop_at (steady_world (Some 3000%Z) (Some arms_side) 40) (clock w') = true
    /\ (clock (steady_world (Some 3000%Z) (Some arms_side) 40) <= clock w')%Z
    /\ patient_calibrated s' = false
    /\ patient_rom s' = patient_rom (calibrated_elbow 120).
Proof.
  assert (Hdone : (fun r => match r with
                            | Some (done, _, _) => Some done
                            | None => None
                            end)
                    (run_calibration (np := coarse_numpy) (calibrated_elbow 120)
                       (steady_world (Some 3000%Z) (Some arms_side) 40))
                  = Some false)
    by (vm_compute; reflexivity).
  destruct (run_calibration (np := coarse_numpy) (calibrated_elbow 120)
              (steady_world (Some 3000%Z) (Some arms_side) 40))
    as [[[[|] s'] w']|] eqn:E;
    [discriminate Hdone | |discriminate Hdone].
  exists s', w'. split; [reflexivity|].
  exact (run_calibration_cancelled (np := coarse_numpy) (calibrated_elbow 120) s'
           (steady_world (Some 3000%Z) (Some arms_side) 40) w' E).
Defined.


Lemma calculate_rom_score_bounds_witness :
  fle (Patient_Calibration.calculate_rom_score
         {[ "R_Elbow_Max" := Fin 120; "L_Elbow_Max" := Fin 200 ]}) (Fin 100) = true
  /\ fle (Fin 0)
        (Patient_Calibration.calculate_rom_score
           {[ "R_Elbow_Max" := Fin 120; "L_Elbow_Max" := Fin 200 ]}) = true.
Proof.
  destruct (calculate_rom_score_bounds
              {[ "R_Elbow_Max" := Fin 120; "L_Elbow_Max" := Fin 200 ]})
    as [Hmost Hleast].
  split; [exact Hmost|]. apply Hleast. intros k v Hk.
  apply lookup_insert_Some in Hk as [[_ <-] | [_ Hk]]; [cbn; lra|].
  apply lookup_singleton_Some in Hk as [_ <-]. cbn. lra.
Defined.

Lemma calculate_asymmetry_facts_witness :
  Patient_Calibration.calculate_asymmetry
    {[ "R_Elbow_Max" := Fin 120; "L_Elbow_Max" := Fin 150;
       "R_Wrist_Hip_Hip_Max" := Fin 40 ]}
  = Patient_Calibration.calculate_asymmetry
      {[ "R_Elbow_Max" := Fin 120; "L_Elbow_Max" := Fin 150 ]}
  /\ not_negative
       (Patient_Calibration.calculate_asymmetry
          {[ "R_Elbow_Max" := Fin 120; "L_Elbow_Max" := Fin 150 ]}).
Proof.
  destruct (calculate_asymmetry_facts
              {[ "R_Elbow_Max" := Fin 120; "L_Elbow_Max" := Fin 150 ]})
    as [Hsame Hleast].
  split.
  - apply Hsame. intros pair side Hpair Hside.
    unfold Patient_Calibration.asymmetry_pairs in Hpair.
    rewrite !elem_of_cons, elem_of_nil in Hpair.
    destruct Hpair as [-> | [-> | [-> | []]]]; destruct Hside as [-> | ->];
      vm_compute; reflexivity.
  - apply Hleast. intros k v Hk.
    apply lookup_insert_Some in Hk as [[_ <-] | [_ Hk]]; [reflexivity|].
    apply lookup_singleton_Some in Hk as [_ <-]. reflexivity.
Defined.


Lemma save_to_excel_other_patients_witness :
  Patient_Calibration.load_from_excel "1234"
    (Patient_Calibration.save_to_excel "5678" "2025-11-02" "09:30:00"
       {[ "R_Elbow_Max" := Fin 120 ]} (Fin 80) (Fin 0)
       (Patient_Calibration.save_to_excel "1234" "2025-11-01" "09:30:00"
          {[ "R_Elbow_Max" := Fin 140 ]} (Fin 90) (Fin 0) []))
  = Patient_Calibration.load_from_excel "1234"
      (Patient_Calibration.save_to_excel "1234" "2025-11-01" "09:30:00"
         {[ "R_Elbow_Max" := Fin 140 ]} (Fin 90) (Fin 0) []).
Proof.
  apply (save_to_excel_other_patients "5678" "1234"). discriminate.
Defined.

Lemma load_from_excel_first_session_witness :
  match load_from_excel "1234"
          (save_to_excel "1234" "2025-11-01 09:30"
             [("ball_bend_elbows", ranges_of 120 50 110 55);
              ("weights_abduction", ranges_of 90 20 95 25)] []) with
  | None => False
  | Some calibration =>
      calibration !! "weights_abduction"
      = Some (row_ranges (session_row "1234" "2025-11-01 09:30"
                            ("weights_abduction", ranges_of 90 20 95 25)))
      /\ calibration !! "stick_switch" = None
  end.
Proof.
  assert (Hsheet : Forall (fun r : Row => PatientID r <> "1234") [])
    by constructor.
  assert (Hdup : NoDup [("ball_bend_elbows", ranges_of 120 50 110 55);
                        ("weights_abduction", ranges_of 90 20 95 25)].*1).
  { cbn. apply NoDup_cons. split; [|apply NoDup_singleton].
    rewrite elem_of_cons, elem_of_nil. intros [H | []]. discriminate H. }
  pose proof (load_from_excel_first_session "1234" "2025-11-01 09:30"
                [("ball_bend_elbows", ranges_of 120 50 110 55);
                 ("weights_abduction", ranges_of 90 20 95 25)] [] Hsheet Hdup) as H.
  destruct (load_from_excel "1234" _) as [calibration|]; [|discriminate H].
  destruct H as (_ & Hin & Hout). split.
  - apply Hin. right. left.
  - apply Hout. cbn. rewrite !not_elem_of_cons.
    repeat split; [discriminate.. | apply not_elem_of_nil].
Defined.

Lemma get_adaptive_range_for_joint_within_measured_witness :
  exists adapted_max : Q,
    get_adaptive_range_for_joint (calibrated_elbow 120) "R_Elbow"
      (Fin 10) (Fin 150)
    = (Fin 20, Fin adapted_max)
    /\ 20 <= adapted_max /\ adapted_max <= 120 /\ adapted_max < 150.
Proof.
  apply (get_adaptive_range_for_joint_within_measured (calibrated_elbow 120)
           "R_Elbow" (Fin 10) 20 120 150); try reflexivity.
  discriminate.
Defined.

Lemma exercise_method_keeps_slots_witness :
  slots_kept (camera_with "R_3" 170)
    (outcome_camera
       (exercise_two_angles_3d (np := coarse_numpy) weights_abduction one_repetition
          (set_rep 1 (requested "weights_abduction")) (camera_with "R_3" 170))).
Proof.
  apply (exercise_method_keeps_slots (np := coarse_numpy) "weights_abduction").
  - exact (method_two_angles weights_abduction).
  - repeat constructor.
  - reflexivity.
Defined.

End MoreWitnesses.
